(** * th_ctrl: the two-slot background job controller of the modem shell

    A shallow embedding of
    [samples/nrf9160/modem_shell/src/th/th_ctrl.c] and the properties of
    its slot bookkeeping: argument duplication and release, result buffer
    life cycle, admission, status and result reports, cancellation.

    Conventions of the embedding.
    - The C heap is a finite map from locations to blocks.  A block is
      either a character buffer (capacity in bytes and the C string it
      holds, i.e. the bytes before the first NUL) or an array of pointer
      cells.  [malloc], [calloc] and [mosh_strdup] consult an oracle, one
      boolean per call, that says whether the allocation succeeds.
    - A value of type [string] always stands for the contents of a C
      string, so it is understood to hold no NUL character.
    - Code runs in a state-and-fault monad: undefined behaviour (reading
      or freeing a block that is not allocated, writing past a buffer,
      indexing the caller's vector out of range) and failed assertions
      stop the run with a [Fault].
    - [argc] counts the elements of an argument vector and stays far
      below [INT_MAX]; it is kept in [nat], and the conversions between
      [size_t] and [int] are the identity.  Byte counts are in [Z]; the
      one narrowing conversion of the source (to [uint16_t]) is written
      out. *)

From Stdlib Require Import ZArith String Ascii DecimalString.
From stdpp Require Import base option list gmap strings.

Open Scope Z_scope.

(** ** Heap *)

Definition loc := positive.

Inductive ptr := NULL | Ptr (l : loc).

Definition is_null (p : ptr) : bool :=
  match p with NULL => true | Ptr _ => false end.

(** [Chars cap s]: [cap] bytes holding the C string [s].
    [Ptrs cells]: an array of [char *]; a cell that was never written is
    [None]. *)
Inductive block :=
  | Chars (cap : Z) (s : string)
  | Ptrs (cells : list (option ptr)).

Record memory := Memory {
  blocks : gmap loc block;
  oracle : list bool
}.

(** ** The monad *)

Inductive fault := AssertFailed | BadAccess.

Inductive outcome (S A : Type) :=
  | Done (a : A) (s : S)
  | Fault (f : fault).
Arguments Done {S A} a s.
Arguments Fault {S A} f.

Definition M (S A : Type) : Type := S → outcome S A.

Global Instance M_ret {S} : MRet (M S) := λ A a s, Done a s.
Global Instance M_bind {S} : MBind (M S) := λ A B k m s,
  match m s with
  | Done a s' => k a s'
  | Fault f => Fault f
  end.

Definition fail {S A} (f : fault) : M S A := λ _, Fault f.

Definition assert {S} (b : bool) : M S unit :=
  if b then mret tt else fail AssertFailed.

(** ** Allocator and memory accesses *)

Definition strlen_of (s : string) : Z := Z.of_nat (String.length s).

(** The next allocation succeeds unless the oracle says [false]; an
    exhausted oracle stands for "memory is plentiful". *)
Definition alloc_succeeds (o : list bool) : bool :=
  match o with false :: _ => false | _ => true end.

Definition alloc (b : block) : M memory ptr := λ m,
  if alloc_succeeds (oracle m) then
    let l := fresh (dom (blocks m)) in
    Done (Ptr l) (Memory (<[l := b]> (blocks m)) (tail (oracle m)))
  else Done NULL (Memory (blocks m) (tail (oracle m))).

(** [malloc(sizeof(char * ) * n)] *)
Definition malloc_ptrs (n : nat) : M memory ptr := alloc (Ptrs (replicate n None)).

(** [calloc(n, sizeof(char))] *)
Definition calloc (n : Z) : M memory ptr := alloc (Chars n EmptyString).

(** Modelled from the spec: [mosh_strdup] is declared in
    [utils/str_utils.h], which is not among the sources.  Following the
    Argument Vector contract ("each element independently owned ... or
    fail if allocation fails"), it returns a freshly allocated copy of
    its argument, or [NULL] when the allocation fails. *)
Definition mosh_strdup (s : string) : M memory ptr :=
  alloc (Chars (strlen_of s + 1) s).

Definition free (p : ptr) : M memory unit :=
  match p with
  | NULL => mret tt
  | Ptr l => λ m,
      match blocks m !! l with
      | Some _ => Done tt (Memory (delete l (blocks m)) (oracle m))
      | None => Fault BadAccess
      end
  end.

Definition load_block (p : ptr) : M memory block :=
  match p with
  | NULL => fail BadAccess
  | Ptr l => λ m,
      match blocks m !! l with
      | Some b => Done b m
      | None => Fault BadAccess
      end
  end.

Definition store_block (p : ptr) (b : block) : M memory unit :=
  match p with
  | NULL => fail BadAccess
  | Ptr l => λ m,
      match blocks m !! l with
      | Some _ => Done tt (Memory (<[l := b]> (blocks m)) (oracle m))
      | None => Fault BadAccess
      end
  end.

(** [p[i]] read as a pointer *)
Definition load_cell (p : ptr) (i : nat) : M memory ptr :=
  b ← load_block p;
  match b with
  | Ptrs cells =>
      match cells !! i with
      | Some (Some q) => mret q
      | _ => fail BadAccess
      end
  | Chars _ _ => fail BadAccess
  end.

(** [p[i] = q] *)
Definition store_cell (p : ptr) (i : nat) (q : ptr) : M memory unit :=
  b ← load_block p;
  match b with
  | Ptrs cells =>
      if decide (i < length cells)%nat
      then store_block p (Ptrs (<[i := Some q]> cells))
      else fail BadAccess
  | Chars _ _ => fail BadAccess
  end.

(** the C string stored at [p] *)
Definition load_str (p : ptr) : M memory string :=
  b ← load_block p;
  match b with
  | Chars _ s => mret s
  | Ptrs _ => fail BadAccess
  end.

Definition strlen (p : ptr) : M memory Z :=
  s ← load_str p; mret (strlen_of s).

(** [memset(p, 0, n)] on a character buffer *)
Definition memset0 (p : ptr) (n : Z) : M memory unit :=
  b ← load_block p;
  match b with
  | Chars cap _ =>
      if decide (n ≤ cap) then store_block p (Chars cap EmptyString) else fail BadAccess
  | Ptrs _ => fail BadAccess
  end.

(** [sprintf(p + off, "%s", w)]: writes [w] and a terminating NUL at
    offset [off].  The string held by the buffer ends at its first NUL,
    so a write that starts behind it leaves the string as it is. *)
Definition sprintf_at (p : ptr) (off : Z) (w : string) : M memory unit :=
  b ← load_block p;
  match b with
  | Chars cap s =>
      if decide (0 ≤ off ∧ off + strlen_of w + 1 ≤ cap) then
        if decide (off ≤ strlen_of s)
        then store_block p (Chars cap (String.substring 0 (Z.to_nat off) s +:+ w))
        else mret tt
      else fail BadAccess
  | Ptrs _ => fail BadAccess
  end.

(** [argv[i]] in a vector owned by the caller *)
Definition caller_arg {S} (argv : list string) (i : nat) : M S string :=
  match argv !! i with
  | Some a => mret a
  | None => fail BadAccess
  end.

(** ** Kernel objects and the slot record *)

Definition TH_RESPONSE_BUFFER_SIZE : Z := 10240.

Inductive work_q := th_work_q_1 | th_work_q_2.

(** [struct k_work]: whether the item is pending (queued or running),
    and the queue it was last submitted to. *)
Record k_work := KWork {
  k_work_is_pending : bool;
  k_work_queue : option work_q
}.

Record k_poll_signal := KPollSignal {
  signaled : bool;
  result : Z
}.

Definition k_poll_signal_raise (sig : k_poll_signal) (v : Z) : k_poll_signal :=
  KPollSignal true v.

(** [struct shell], reduced to the one field read here:
    [shell->ctx->cmd_buff_len] ([uint16_t]). *)
Record struct_shell := Shell {
  cmd_buff_len : Z
}.

Record th_ctrl_data := ThCtrlData {
  shell : option struct_shell;
  work : k_work;
  kill_signal : k_poll_signal;
  results_str : ptr;
  argv : ptr;
  argc : nat;
  cmd_len : Z;
  th_nbr : Z;
  cmd_str : ptr;
  background : bool
}.

Definition set_shell (x : option struct_shell) (d : th_ctrl_data) : th_ctrl_data :=
  ThCtrlData x (work d) (kill_signal d) (results_str d) (argv d) (argc d)
             (cmd_len d) (th_nbr d) (cmd_str d) (background d).
Definition set_work (x : k_work) (d : th_ctrl_data) : th_ctrl_data :=
  ThCtrlData (shell d) x (kill_signal d) (results_str d) (argv d) (argc d)
             (cmd_len d) (th_nbr d) (cmd_str d) (background d).
Definition set_kill_signal (x : k_poll_signal) (d : th_ctrl_data) : th_ctrl_data :=
  ThCtrlData (shell d) (work d) x (results_str d) (argv d) (argc d)
             (cmd_len d) (th_nbr d) (cmd_str d) (background d).
Definition set_results_str (x : ptr) (d : th_ctrl_data) : th_ctrl_data :=
  ThCtrlData (shell d) (work d) (kill_signal d) x (argv d) (argc d)
             (cmd_len d) (th_nbr d) (cmd_str d) (background d).
Definition set_argv (x : ptr) (d : th_ctrl_data) : th_ctrl_data :=
  ThCtrlData (shell d) (work d) (kill_signal d) (results_str d) x (argc d)
             (cmd_len d) (th_nbr d) (cmd_str d) (background d).
Definition set_argc (x : nat) (d : th_ctrl_data) : th_ctrl_data :=
  ThCtrlData (shell d) (work d) (kill_signal d) (results_str d) (argv d) x
             (cmd_len d) (th_nbr d) (cmd_str d) (background d).
Definition set_cmd_len (x : Z) (d : th_ctrl_data) : th_ctrl_data :=
  ThCtrlData (shell d) (work d) (kill_signal d) (results_str d) (argv d) (argc d)
             x (th_nbr d) (cmd_str d) (background d).
Definition set_th_nbr (x : Z) (d : th_ctrl_data) : th_ctrl_data :=
  ThCtrlData (shell d) (work d) (kill_signal d) (results_str d) (argv d) (argc d)
             (cmd_len d) x (cmd_str d) (background d).
Definition set_background (x : bool) (d : th_ctrl_data) : th_ctrl_data :=
  ThCtrlData (shell d) (work d) (kill_signal d) (results_str d) (argv d) (argc d)
             (cmd_len d) (th_nbr d) (cmd_str d) x.

(** What the shell has shown so far, oldest line first. *)
Inductive shell_msg :=
  | Msg (s : string)
  | Err (s : string).

(** The program state: the heap, the two static slots and the console. *)
Record state := State {
  heap : memory;
  th_work_data_1 : th_ctrl_data;
  th_work_data_2 : th_ctrl_data;
  console : list shell_msg
}.

(** A [struct th_ctrl_data *] can only point to one of the two statics. *)
Inductive th_ref := Th1 | Th2.

Definition data_of (r : th_ref) (s : state) : th_ctrl_data :=
  match r with Th1 => th_work_data_1 s | Th2 => th_work_data_2 s end.

Definition get_data (r : th_ref) : M state th_ctrl_data :=
  λ s, Done (data_of r s) s.

Definition update_data (r : th_ref) (f : th_ctrl_data → th_ctrl_data) (s : state) : state :=
  match r with
  | Th1 => State (heap s) (f (th_work_data_1 s)) (th_work_data_2 s) (console s)
  | Th2 => State (heap s) (th_work_data_1 s) (f (th_work_data_2 s)) (console s)
  end.

Definition modify_data (r : th_ref) (f : th_ctrl_data → th_ctrl_data) : M state unit :=
  λ s, Done tt (update_data r f s).

(** Runs a heap computation inside the program state. *)
Definition on_heap {A} (m : M memory A) : M state A := λ s,
  match m (heap s) with
  | Done a h => Done a (State h (th_work_data_1 s) (th_work_data_2 s) (console s))
  | Fault f => Fault f
  end.

Definition emit (x : shell_msg) : M state unit := λ s,
  Done tt (State (heap s) (th_work_data_1 s) (th_work_data_2 s) (console s ++ [x])).

Definition shell_print (sh : struct_shell) (line : string) : M state unit :=
  emit (Msg line).
Definition shell_error (sh : struct_shell) (line : string) : M state unit :=
  emit (Err line).

(** the double quote character, as a string *)
Definition dquote : string := String (ascii_of_nat 34) EmptyString.

(** [%d] *)
Definition dec (z : Z) : string := NilZero.string_of_int (Z.to_int z).

Definition k_work_submit_to_queue (q : work_q) (r : th_ref) : M state unit :=
  modify_data r (set_work (KWork true (Some q))).

(** ** The functions of th_ctrl.c *)

(** The loop of [th_ctrl_get_command_str_from_argv]: [k] iterations are
    left, [i] is the loop counter. *)
Fixpoint get_command_str_loop (k i : nat) (argv : ptr) (out_buf : ptr)
    (out_buf_len total_len : Z) : M memory unit :=
  match k with
  | O => mret tt
  | S k' =>
      a ← load_cell argv i;
      arg_len ← strlen a;
      if decide (total_len + arg_len > out_buf_len) then mret tt
      else
        w ← load_str a;
        sprintf_at out_buf total_len (w +:+ " ");;
        total_len' ← strlen out_buf;
        get_command_str_loop k' (S i) argv out_buf out_buf_len total_len'
  end.

Definition th_ctrl_get_command_str_from_argv (argc : nat) (argv : ptr)
    (out_buf : ptr) (out_buf_len : Z) : M memory ptr :=
  get_command_str_loop argc 0 argv out_buf out_buf_len 0;;
  mret out_buf.

(** The loop of [th_ctrl_util_duplicate_argv]; on a failed copy it
    releases the array and leaves with [NULL]. *)
Fixpoint duplicate_argv_loop (k i : nat) (argv : list string)
    (ptr_array : ptr) : M memory ptr :=
  match k with
  | O => mret ptr_array
  | S k' =>
      a ← caller_arg argv i;
      p ← mosh_strdup a;
      store_cell ptr_array i p;;
      if is_null p then free ptr_array;; mret NULL
      else duplicate_argv_loop k' (S i) argv ptr_array
  end.

Definition th_ctrl_util_duplicate_argv (argc : nat) (argv : list string)
    : M memory ptr :=
  ptr_array ← malloc_ptrs argc;
  if is_null ptr_array then mret NULL
  else duplicate_argv_loop argc 0 argv ptr_array.

(** The loop of [th_ctrl_util_duplicate_argv_free]; it starts at
    [i = 1]. *)
Fixpoint duplicate_argv_free_loop (k i : nat) (argv : ptr) : M memory unit :=
  match k with
  | O => mret tt
  | S k' =>
      p ← load_cell argv i;
      free p;;
      duplicate_argv_free_loop k' (S i) argv
  end.

Definition th_ctrl_util_duplicate_argv_free (argc : nat) (argv : ptr)
    : M memory unit :=
  duplicate_argv_free_loop (argc - 1) 1 argv;;
  free argv.

(** [data->results_str != NULL && strlen(data->results_str)] *)
Definition has_results (d : th_ctrl_data) : M state bool :=
  if is_null (results_str d) then mret false
  else n ← on_heap (strlen (results_str d)); mret (negb (n =? 0)).

Definition th_ctrl_data_status_print (sh : struct_shell) (data : th_ref)
    : M state unit :=
  d ← get_data data;
  shell_print sh ("thread #" +:+ dec (th_nbr d) +:+ " status:");;
  avail ← has_results d;
  if avail : bool then
    shell_print sh "  Results available";;
    (if k_work_is_pending (work d)
     then shell_print sh "  thread is running"
     else shell_print sh "  thread is not running");;
    print_buf ← on_heap (calloc (cmd_len d + 1));
    (* the fourth parameter is a uint16_t *)
    cmd ← on_heap (th_ctrl_get_command_str_from_argv
                     (argc d) (argv d) print_buf ((cmd_len d + 1) `mod` 65536));
    line ← on_heap (load_str cmd);
    shell_print sh ("  command: " +:+ line);;
    on_heap (free print_buf)
  else
    shell_print sh "  Nothing".

Definition th_ctrl_status_print (sh : struct_shell) : M state unit :=
  th_ctrl_data_status_print sh Th1;;
  th_ctrl_data_status_print sh Th2.

Definition raise_kill_signal (v : Z) (d : th_ctrl_data) : th_ctrl_data :=
  set_kill_signal (k_poll_signal_raise (kill_signal d) v) d.

Definition th_ctrl_kill_em_all : M state unit :=
  d1 ← get_data Th1;
  (if k_work_is_pending (work d1)
   then modify_data Th1 (raise_kill_signal 1)
   else mret tt);;
  d2 ← get_data Th2;
  (if k_work_is_pending (work d2)
   then modify_data Th2 (raise_kill_signal 2)
   else mret tt).

Definition th_ctrl_kill (sh : struct_shell) (nbr : Z) : M state unit :=
  if nbr =? 1 then
    d1 ← get_data Th1;
    if k_work_is_pending (work d1)
    then modify_data Th1 (raise_kill_signal 1)
    else shell_print sh "Thread #1 not running"
  else if nbr =? 2 then
    d2 ← get_data Th2;
    if k_work_is_pending (work d2)
    then modify_data Th2 (raise_kill_signal 2)
    else shell_print sh "Thread #2 not running"
  else mret tt.

Definition th_ctrl_data_result_print (sh : struct_shell) (data : th_ref)
    : M state unit :=
  d ← get_data data;
  avail ← has_results d;
  if negb avail then
    shell_print sh ("No results for thread #" +:+ dec (th_nbr d))
  else
    shell_print sh ("thread #" +:+ dec (th_nbr d) +:+ " results:");;
    shell_print sh "-------------------------------------";;
    text ← on_heap (load_str (results_str d));
    shell_print sh text;;
    shell_print sh "-------------------------------------";;
    (* Delete data if the work is done *)
    if negb (k_work_is_pending (work d)) then
      on_heap (free (results_str d));;
      modify_data data (set_results_str NULL);;
      shell_print sh ("Note: th results #" +:+ dec (th_nbr d) +:+ " were deleted.");;
      (* Clean up for cmd argv *)
      on_heap (th_ctrl_util_duplicate_argv_free (argc d) (argv d));;
      modify_data data (set_argc 0%nat);;
      modify_data data (set_argv NULL)
    else mret tt.

Definition th_ctrl_result_print (sh : struct_shell) (nbr : Z) : M state unit :=
  if nbr =? 1 then th_ctrl_data_result_print sh Th1
  else if nbr =? 2 then th_ctrl_data_result_print sh Th2
  else mret tt.

(** The part of [th_ctrl_data_start] from [assert(argc > 1)] to the end:
    both ways through the result buffer code reach it, and the early
    [return] on a failed [calloc] skips it. *)
Definition th_ctrl_data_start_argv (data : th_ref) (sh : struct_shell)
    (argc' : nat) (argv' : list string) (is_background : bool) : M state unit :=
  assert (1 <? argc')%nat;;
  d ← get_data data;
  (if negb (is_null (argv d))
   then (* Cleanup from possible previous *)
     on_heap (th_ctrl_util_duplicate_argv_free (argc d) (argv d))
   else mret tt);;
  modify_data data (set_argc (argc' - 1)%nat);;
  (* &argv[1] *)
  p ← on_heap (th_ctrl_util_duplicate_argv (argc' - 1)%nat (drop 1 argv'));
  modify_data data (set_argv p);;
  if is_null p then
    shell_error sh "Cannot start a thread: no memory for duplicated cmd args"
  else
    modify_data data (set_background is_background);;
    modify_data data (set_shell (Some sh));;
    modify_data data (set_cmd_len (cmd_buff_len sh));;
    d ← get_data data;
    if th_nbr d =? 1 then k_work_submit_to_queue th_work_q_1 data
    else
      assert (th_nbr d =? 2);;
      k_work_submit_to_queue th_work_q_2 data.

Definition th_ctrl_data_start (data : th_ref) (sh : struct_shell)
    (argc' : nat) (argv' : list string) (is_background : bool) : M state unit :=
  d ← get_data data;
  assert (negb (k_work_is_pending (work d)));;
  (if negb is_background && negb (is_null (results_str d)) then
     (* Flush and free result "file" for foreground *)
     on_heap (free (results_str d));;
     modify_data data (set_results_str NULL)
   else mret tt);;
  d ← get_data data;
  if is_background && is_null (results_str d) then
    p ← on_heap (calloc TH_RESPONSE_BUFFER_SIZE);
    modify_data data (set_results_str p);;
    if is_null p then
      shell_error sh "Cannot start a thread: no memory to store a response"
    else th_ctrl_data_start_argv data sh argc' argv' is_background
  else
    (if negb (is_null (results_str d)) then
       (* Clears also previous data if not read before starting a new *)
       on_heap (memset0 (results_str d) TH_RESPONSE_BUFFER_SIZE)
     else mret tt);;
    th_ctrl_data_start_argv data sh argc' argv' is_background.

(** [strcmp(a, b) != 0] *)
Definition strcmp_ne0 (a b : string) : bool := negb (String.eqb a b).

Definition th_ctrl_start (sh : struct_shell) (argc' : nat)
    (argv' : list string) (is_background : bool) : M state unit :=
  (* Only iperf3 currently supported *)
  kind ← caller_arg argv' 1;
  if strcmp_ne0 kind "iperf3" then
    shell_error sh "Only iperf3 is supported currently."
  else
    shell_print sh "Starting ...";;
    d1 ← get_data Th1;
    if negb (k_work_is_pending (work d1)) then
      th_ctrl_data_start Th1 sh argc' argv' is_background
    else
      d2 ← get_data Th2;
      if negb (k_work_is_pending (work d2)) then
        th_ctrl_data_start Th2 sh argc' argv' is_background
      else
        shell_error sh "Worker threads are all busy. Try again later.".

(** [k_work_init] and [k_poll_signal_init] followed by the assignment of
    [th_nbr], for one slot. *)
Definition init_data (nbr : Z) (d : th_ctrl_data) : th_ctrl_data :=
  set_th_nbr nbr
    (set_kill_signal (KPollSignal false (result (kill_signal d)))
       (set_work (KWork false None) d)).

Definition th_ctrl_init : M state unit :=
  modify_data Th1 (init_data 1);;
  modify_data Th2 (init_data 2).

(** The statics before [th_ctrl_init]: zero-initialised. *)
Definition zero_data : th_ctrl_data :=
  ThCtrlData None (KWork false None) (KPollSignal false 0) NULL NULL 0%nat 0 0 NULL false.

Definition boot (o : list bool) : state :=
  State (Memory ∅ o) zero_data zero_data [].

(** The strings [argv[i]], ..., [argv[i+k-1]] of a duplicated vector, as
    a callee that is handed [argc] and [argv] reads them. *)
Fixpoint load_argv (k i : nat) (argv : ptr) : M memory (list string) :=
  match k with
  | O => mret []
  | S k' =>
      a ← load_cell argv i;
      w ← load_str a;
      rest ← load_argv k' (S i) argv;
      mret (w :: rest)
  end.

(** ** The work handler

    [iperf_main] is the external job body.  It is a parameter here: given
    the arguments, the capacity of the output buffer (if it gets one) and
    the kill signal, it yields its return value and the text it leaves in
    the buffer.  The handler runs on the slot's own work queue thread;
    the embedding runs it in one step. *)
Section work_handler.
Variable iperf_main :
  nat → list string → option Z → k_poll_signal → Z * string.

Definition th_ctrl_work_handler (data : th_ref) : M state unit :=
  d ← get_data data;
  match shell d with
  | None => fail BadAccess
  | Some sh =>
      shell_print sh ("Starting a thread #" +:+ dec (th_nbr d));;
      assert (negb (is_null (argv d)));;
      args ← on_heap (load_argv (argc d) 0 (argv d));
      ret ← (if background d then
               assert (negb (is_null (results_str d)));;
               let r := iperf_main (argc d) args (Some TH_RESPONSE_BUFFER_SIZE)
                                   (kill_signal d) in
               on_heap (sprintf_at (results_str d) 0 (r.2));;
               mret (r.1)
             else
               assert (is_null (results_str d));;
               mret ((iperf_main (argc d) args None (kill_signal d)).1));
      shell_print sh "--------------------------------------------------";;
      shell_print sh ("iperf_main returned " +:+ dec ret +:+
                      " from a thread #" +:+ dec (th_nbr d));;
      (if background d then
         shell_print sh ("Use shell command to print results: " +:+ dquote
                         +:+ "th results " +:+ dec (th_nbr d) +:+ dquote)
       else mret tt);;
      shell_print sh "--------------------------------------------------"
  end.

(** The work queue runs the handler of a pending item to completion;
    the item is no longer pending afterwards. *)
Definition work_q_run (data : th_ref) : M state unit :=
  d ← get_data data;
  assert (k_work_is_pending (work d));;
  th_ctrl_work_handler data;;
  modify_data data (set_work (KWork false (k_work_queue (work d)))).
End work_handler.

(** ** Vocabulary of the specification *)

(** The block that holds a duplicated string. *)
Definition str_block (s : string) : block := Chars (strlen_of s + 1) s.

(** The cells of a fully written pointer array. *)
Definition cells_of (ls : list loc) : list (option ptr) :=
  (λ l, Some (Ptr l)) <$> ls.

(** An owned Argument Vector: the array at [a] points, in order, to the
    pairwise distinct blocks [ls], which hold the strings [strs]. *)
Definition owned_at (h : gmap loc block) (a : loc) (ls : list loc)
    (strs : list string) : Prop :=
  h !! a = Some (Ptrs (cells_of ls)) ∧
  NoDup (a :: ls) ∧
  Forall2 (λ l s, h !! l = Some (str_block s)) ls strs.

(** The next [k] allocations succeed. *)
Fixpoint all_succeed (k : nat) (o : list bool) : bool :=
  match k with
  | O => true
  | S k' => alloc_succeeds o && all_succeed k' (tail o)
  end.

(** Deallocation of a list of locations. *)
Definition free_all (ls : list loc) (h : gmap loc block) : gmap loc block :=
  foldl (λ h l, delete l h) h ls.

(** The reconstructed command line when nothing is cut off: every
    argument followed by one space. *)
Fixpoint command_line (strs : list string) : string :=
  match strs with
  | [] => EmptyString
  | a :: rest => (a +:+ " ") +:+ command_line rest
  end.

(** State updates used to write down results of runs. *)
Definition with_heap (h : memory) (s : state) : state :=
  State h (th_work_data_1 s) (th_work_data_2 s) (console s).

Definition say (msgs : list shell_msg) (s : state) : state :=
  State (heap s) (th_work_data_1 s) (th_work_data_2 s) (console s ++ msgs).

Definition other (r : th_ref) : th_ref :=
  match r with Th1 => Th2 | Th2 => Th1 end.

(** The slot id a slot is addressed by. *)
Definition slot_id (r : th_ref) : Z :=
  match r with Th1 => 1 | Th2 => 2 end.

Definition is_running (r : th_ref) (s : state) : bool :=
  k_work_is_pending (work (data_of r s)).

(** The slot holds the text [text] in its result buffer. *)
Definition results_at (s : state) (r : th_ref) (b : loc) (text : string) : Prop :=
  results_str (data_of r s) = Ptr b ∧
  blocks (heap s) !! b = Some (Chars TH_RESPONSE_BUFFER_SIZE text).

(** The slot owns a duplicated vector holding [strs]. *)
Definition argv_at (s : state) (r : th_ref) (a : loc) (ls : list loc)
    (strs : list string) : Prop :=
  argv (data_of r s) = Ptr a ∧
  argc (data_of r s) = length strs ∧
  owned_at (blocks (heap s)) a ls strs.

(** Element [i] of the vector at [q] is allocated and holds [s]. *)
Definition arg_at (h : gmap loc block) (q : ptr) (i : nat) (s : string) : Prop :=
  ∃ a cells l cap,
    q = Ptr a ∧ h !! a = Some (Ptrs cells) ∧
    cells !! i = Some (Some (Ptr l)) ∧ h !! l = Some (Chars cap s).

(** The strings the slot's [argc] and [argv] stand for, when all of them
    can be read. *)
Definition stored_argv (s : state) (r : th_ref) : option (list string) :=
  match load_argv (argc (data_of r s)) 0 (argv (data_of r s)) (heap s) with
  | Done strs _ => Some strs
  | Fault _ => None
  end.

(** The text in the slot's result buffer, if it has a buffer. *)
Definition stored_results (s : state) (r : th_ref) : option string :=
  match results_str (data_of r s) with
  | NULL => None
  | Ptr b =>
      match blocks (heap s) !! b with
      | Some (Chars _ text) => Some text
      | _ => None
      end
  end.

(** The vector a slot record points to is an owned vector of the heap
    [h], if the record points to one. *)
Definition argv_in (h : gmap loc block) (d : th_ctrl_data) : Prop :=
  argv d = NULL ∨
  ∃ a ls strs, argv d = Ptr a ∧ argc d = length strs ∧ owned_at h a ls strs.

(** Well-formed slot: what it points to is allocated, the vector and the
    result buffer do not overlap, and [th_ctrl_init] has given it its
    number. *)
Definition slot_wf (s : state) (r : th_ref) : Prop :=
  (results_str (data_of r s) = NULL ∨ ∃ b text, results_at s r b text) ∧
  (argv (data_of r s) = NULL ∨
   ∃ a ls strs, argv_at s r a ls strs ∧
                ∀ b, results_str (data_of r s) = Ptr b → b ∉ ls) ∧
  th_nbr (data_of r s) = slot_id r.

(** Messages and slot records used to write down the results of
    [th_ctrl_data_start]. *)
Definition no_mem_response : shell_msg :=
  Err "Cannot start a thread: no memory to store a response".

Definition no_mem_args : shell_msg :=
  Err "Cannot start a thread: no memory for duplicated cmd args".

(** The release of the vector of an earlier run, as [th_ctrl_data_start]
    performs it. *)
Definition release_old (d : th_ctrl_data) : M memory unit :=
  if negb (is_null (argv d))
  then th_ctrl_util_duplicate_argv_free (argc d) (argv d)
  else mret tt.

(** The slot record after a failed duplication of [n] arguments. *)
Definition dup_failed (n : nat) (d : th_ctrl_data) : th_ctrl_data :=
  set_argv NULL (set_argc n d).

(** The slot record after the hand-over to the work queue. *)
Definition submitted (sh : struct_shell) (bg : bool) (n : nat) (p : ptr)
    (d : th_ctrl_data) : th_ctrl_data :=
  set_work (KWork true (Some (if th_nbr d =? 1 then th_work_q_1 else th_work_q_2)))
    (set_cmd_len (cmd_buff_len sh)
       (set_shell (Some sh)
          (set_background bg (set_argv p (set_argc n d))))).

(** Whether a start has to allocate the result buffer. *)
Definition needs_buffer (bg : bool) (d : th_ctrl_data) : bool :=
  bg && is_null (results_str d).

(** The allocation oracle at the moment the duplication begins. *)
Definition oracle_at_dup (bg : bool) (s : state) (r : th_ref) : list bool :=
  if needs_buffer bg (data_of r s) then tail (oracle (heap s)) else oracle (heap s).

(** The state after [th_ctrl_init], with allocation oracle [o]. *)
Definition ready (o : list bool) : state :=
  State (Memory ∅ o) (init_data 1 zero_data) (init_data 2 zero_data) [].

Definition starting_line : shell_msg := Msg "Starting ...".
Definition busy_line : shell_msg :=
  Err "Worker threads are all busy. Try again later.".
Definition unsupported_line : shell_msg :=
  Err "Only iperf3 is supported currently.".

Definition not_running_line (r : th_ref) : shell_msg :=
  match r with
  | Th1 => Msg "Thread #1 not running"
  | Th2 => Msg "Thread #2 not running"
  end.

Definition status_header (d : th_ctrl_data) : shell_msg :=
  Msg ("thread #" +:+ dec (th_nbr d) +:+ " status:").

Definition running_line (d : th_ctrl_data) : shell_msg :=
  if k_work_is_pending (work d)
  then Msg "  thread is running"
  else Msg "  thread is not running".

Definition no_results_line (d : th_ctrl_data) : shell_msg :=
  Msg ("No results for thread #" +:+ dec (th_nbr d)).

Definition results_lines (d : th_ctrl_data) (text : string) : list shell_msg :=
  [Msg ("thread #" +:+ dec (th_nbr d) +:+ " results:");
   Msg "-------------------------------------";
   Msg text;
   Msg "-------------------------------------"].

Definition deleted_line (d : th_ctrl_data) : shell_msg :=
  Msg ("Note: th results #" +:+ dec (th_nbr d) +:+ " were deleted.").

(** What consuming the results leaves in the slot record. *)
Definition consumed (d : th_ctrl_data) : th_ctrl_data :=
  set_argv NULL (set_argc 0%nat (set_results_str NULL d)).

(** What [th_ctrl_data_status_print] shows for a slot: nothing, or the
    running flag and the command line. *)
Inductive slot_report :=
  | Nothing
  | Available (running : bool) (cmd : string).

Definition report_lines (d : th_ctrl_data) (v : slot_report) : list shell_msg :=
  status_header d ::
  match v with
  | Nothing => [Msg "  Nothing"]
  | Available run cmd =>
      [Msg "  Results available";
       Msg (if run then "  thread is running" else "  thread is not running");
       Msg ("  command: " +:+ cmd)]
  end.

(** The slot has no results: no buffer, or a buffer holding the empty
    string. *)
Definition no_results (s : state) (r : th_ref) : Prop :=
  results_str (data_of r s) = NULL ∨ stored_results s r = Some EmptyString.

(** ** Concrete runs *)

(** The state a run ends in (the start state itself if the run faults). *)
Definition after {A} (m : M state A) (s : state) : state :=
  match m s with
  | Done _ s' => s'
  | Fault _ => s
  end.

(** A shell whose command buffer holds the 20 characters of
    [th startbg iperf3 -s]. *)
Definition sh20 : struct_shell := Shell 20.

(** The vector the [th] command passes on for that line. *)
Definition cmdline : list string := ["startbg"; "iperf3"; "-s"].

(** A job body that writes [done] and returns 0. *)
Definition job_done (argc : nat) (argv : list string) (cap : option Z)
    (sig : k_poll_signal) : Z * string := (0, "done"%string).

(** Slot 1 after a background start on the initial state. *)
Definition bg_started : state := after (th_ctrl_start sh20 3 cmdline true) (ready []).

(** ... and after that job has finished. *)
Definition bg_finished : state := after (work_q_run job_done Th1) bg_started.

(** ** Vocabulary of the further properties *)

(** The notices two targeted kills print where [th_ctrl_kill_em_all]
    prints none. *)
Definition idle_notices (s : state) : list shell_msg :=
  (if is_running Th1 s then [] else [not_running_line Th1]) ++
  (if is_running Th2 s then [] else [not_running_line Th2]).

(** Slot 1 while its background job is running and has written part of
    its output into the result buffer it was handed. *)
Definition bg_writing : state :=
  after (on_heap (sprintf_at (results_str (data_of Th1 bg_started)) 0 "half")) bg_started.

(** The arguments that the loop of [th_ctrl_get_command_str_from_argv]
    copies: it walks the vector with the running length [total_len] and
    stops at the first argument with
    [total_len + arg_len > out_buf_len]. *)
Fixpoint copied_args (strs : list string) (out_buf_len total_len : Z) : list string :=
  match strs with
  | [] => []
  | a :: rest =>
      if decide (total_len + strlen_of a > out_buf_len) then []
      else a :: copied_args rest out_buf_len (total_len + strlen_of a + 1)
  end.

(** Slot 1 after the example job, started from a shell with command
    length [len], has finished. *)
Definition finished_with (len : Z) : state :=
  after (work_q_run job_done Th1)
    (after (th_ctrl_start (Shell len) 3 cmdline true) (ready [])).

(** The same state with another allocation oracle. *)
Definition with_oracle (o : list bool) (s : state) : state :=
  with_heap (Memory (blocks (heap s)) o) s.

(** What the work handler prints around a job that returned [ret]. *)
Definition handler_lines (d : th_ctrl_data) (ret : Z) : list shell_msg :=
  [Msg ("Starting a thread #" +:+ dec (th_nbr d));
   Msg "--------------------------------------------------";
   Msg ("iperf_main returned " +:+ dec ret +:+ " from a thread #" +:+ dec (th_nbr d))]
  ++ (if background d
      then [Msg ("Use shell command to print results: " +:+ dquote +:+
                 "th results " +:+ dec (th_nbr d) +:+ dquote)]
      else [])
  ++ [Msg "--------------------------------------------------"].

(** The slot record once the work queue is through with the item. *)
Definition work_done (d : th_ctrl_data) : th_ctrl_data :=
  set_work (KWork false (k_work_queue (work d))) d.

(** What the work handler calls the job body with, and what the body
    gives back: return code and result text. *)
Definition bg_call
    (iperf_main : nat → list string → option Z → k_poll_signal → Z * string)
    (s : state) (r : th_ref) (strs : list string) : Z * string :=
  iperf_main (length strs) strs (Some TH_RESPONSE_BUFFER_SIZE)
    (kill_signal (data_of r s)).

Definition fg_call
    (iperf_main : nat → list string → option Z → k_poll_signal → Z * string)
    (s : state) (r : th_ref) (strs : list string) : Z * string :=
  iperf_main (length strs) strs None (kill_signal (data_of r s)).

(** ** The pool invariant *)

(** Slot [r] owns the block at [l]: its result buffer, the array of its
    vector, or a block a cell of that array points to. *)
Definition owns (s : state) (r : th_ref) (l : loc) : Prop :=
  results_str (data_of r s) = Ptr l ∨
  argv (data_of r s) = Ptr l ∨
  ∃ a cells i,
    argv (data_of r s) = Ptr a ∧
    blocks (heap s) !! a = Some (Ptrs cells) ∧
    cells !! i = Some (Some (Ptr l)).

(** What holds of a slot between any two controller operations: the slot
    has its number; its result buffer, if any, is allocated with the full
    capacity; it either has no vector, no results and no job, or it owns a
    vector apart from the buffer whose command line fits the recorded
    command length; and while its job is pending it has a shell and a
    result buffer exactly if the job is a background job. *)
Definition slot_inv (s : state) (r : th_ref) : Prop :=
  th_nbr (data_of r s) = slot_id r ∧
  (results_str (data_of r s) = NULL ∨ ∃ b text, results_at s r b text) ∧
  (argv (data_of r s) = NULL ∧ no_results s r ∧ is_running r s = false
   ∨ ∃ a ls strs,
       argv_at s r a ls strs ∧
       (∀ b, results_str (data_of r s) = Ptr b → b ∉ ls) ∧
       strlen_of (command_line strs) ≤ cmd_len (data_of r s) < 65535) ∧
  (is_running r s = true →
   is_Some (shell (data_of r s)) ∧
   (results_str (data_of r s) = NULL ↔ background (data_of r s) = false)).

(** Both slots are in order and own disjoint parts of the heap. *)
Definition pool_inv (s : state) : Prop :=
  slot_inv s Th1 ∧ slot_inv s Th2 ∧
  ∀ l, owns s Th1 l → owns s Th2 l → False.

(** ** Operations on the pool *)

(** What can happen to the pool after [th_ctrl_init]: a call of one of
    the controller's entry points, or the work queue of a slot running
    the pending job to its end. *)
Inductive op :=
  | OpStart (sh : struct_shell) (argv' : list string) (bg : bool)
  | OpStatus (sh : struct_shell)
  | OpResult (sh : struct_shell) (nbr : Z)
  | OpKill (sh : struct_shell) (nbr : Z)
  | OpKillAll
  | OpJob (r : th_ref).

Section operations.
Variable iperf_main :
  nat → list string → option Z → k_poll_signal → Z * string.

Definition exec (o : op) : M state unit :=
  match o with
  | OpStart sh argv' bg => th_ctrl_start sh (length argv') argv' bg
  | OpStatus sh => th_ctrl_status_print sh
  | OpResult sh nbr => th_ctrl_result_print sh nbr
  | OpKill sh nbr => th_ctrl_kill sh nbr
  | OpKillAll => th_ctrl_kill_em_all
  | OpJob r => work_q_run iperf_main r
  end.

(** What the caller of an operation has to see to: a start passes at
    least the sub-command and the job kind, and the command line of the
    arguments from index 1 on fits the length of the shell's command
    buffer; a status report finds memory for its print buffers; the work
    queue only runs a pending job. *)
Definition op_ok (o : op) (s : state) : bool :=
  match o with
  | OpStart sh argv' bg =>
      (1 <? length argv')%nat &&
      (strlen_of (command_line (drop 1 argv')) <=? cmd_buff_len sh) &&
      (cmd_buff_len sh <? 65535)
  | OpStatus sh => all_succeed 2 (oracle (heap s))
  | OpJob r => is_running r s
  | _ => true
  end.

Fixpoint run (os : list op) : M state unit :=
  match os with
  | [] => mret tt
  | o :: os' => exec o;; run os'
  end.

(** Every operation of the sequence meets its precondition in the state
    it is reached in (nothing is asked of what follows a fault). *)
Fixpoint trace_ok (os : list op) (s : state) : bool :=
  match os with
  | [] => true
  | o :: os' =>
      op_ok o s &&
      match exec o s with
      | Done _ s' => trace_ok os' s'
      | Fault _ => true
      end
  end.
End operations.

(** The job body keeps to the capacity it is given. *)
Definition job_fits
    (iperf_main : nat → list string → option Z → k_poll_signal → Z * string)
    : Prop :=
  ∀ n args sig,
    strlen_of (iperf_main n args (Some TH_RESPONSE_BUFFER_SIZE) sig).2 + 1
    ≤ TH_RESPONSE_BUFFER_SIZE.

(** The slot [th_ctrl_start] settles on: the first idle one. *)
Definition first_idle (s : state) : option th_ref :=
  if negb (is_running Th1 s) then Some Th1
  else if negb (is_running Th2 s) then Some Th2
  else None.

(** Slot 1 after a foreground start on the initial state. *)
Definition fg_started : state :=
  after (th_ctrl_start sh20 3 ["start"; "iperf3"; "-s"]%string false) (ready []).

(** A session on the initial state that goes through every operation. *)
Definition session : list op :=
  [OpStart sh20 cmdline true; OpStatus sh20;
   OpStart sh20 ["start"; "iperf3"; "-c"]%string false; OpKill sh20 1;
   OpJob Th1; OpStatus sh20; OpResult sh20 1; OpKillAll; OpJob Th2;
   OpResult sh20 3; OpStart sh20 cmdline true; OpJob Th1; OpResult sh20 1].

(** ** What the status report shows *)

(** The slot has results: a result buffer holding a non-empty text. *)
Definition has_text (s : state) (r : th_ref) : bool :=
  match stored_results s r with
  | Some text => negb (bool_decide (text = EmptyString))
  | None => false
  end.

(** The stored arguments that pass the length check of
    [th_ctrl_get_command_str_from_argv] against the recorded command
    length plus one, taken as a [uint16_t]. *)
Definition shown_args (s : state) (r : th_ref) : list string :=
  match stored_argv s r with
  | Some strs => copied_args strs ((cmd_len (data_of r s) + 1) `mod` 65536) 0
  | None => []
  end.

(** What [th_ctrl_data_status_print] shows for the slot, read off the
    state. *)
Definition status_view (s : state) (r : th_ref) : slot_report :=
  if has_text s r
  then Available (is_running r s) (command_line (shown_args s r))
  else Nothing.

(** What the status report of a slot relies on: the result buffer, if the
    slot has one, is allocated; and if it holds a text, the stored
    arguments can be read and the line to show is no longer than the
    recorded command length (so that it fits the print buffer). *)
Definition status_ready (s : state) (r : th_ref) : Prop :=
  (results_str (data_of r s) = NULL ∨ is_Some (stored_results s r)) ∧
  (has_text s r = true →
   is_Some (stored_argv s r) ∧
   strlen_of (command_line (shown_args s r)) ≤ cmd_len (data_of r s)).

(** The print buffers a status report allocates: one for each slot with
    results. *)
Definition status_allocs (s : state) : nat :=
  ((if has_text s Th1 then 1 else 0) + (if has_text s Th2 then 1 else 0))%nat.

(** Slot 1 idle with its kill signal raised. *)
Definition raised_idle : state :=
  update_data Th1 (raise_kill_signal 1) (ready []).

(** * Proofs

    ** Rules of the monad and of the memory accesses *)

Section monad_rules.
Context {S : Type}.

Lemma bind_done {A B} (m : M S A) (k : A → M S B) s a s' :
  m s = Done a s' → (m ≫= k) s = k a s'.
Proof. intros H. unfold mbind, M_bind. by rewrite H. Qed.

Lemma ret_bind {A B} (a : A) (k : A → M S B) s :
  (mret a ≫= k) s = k a s.
Proof. reflexivity. Qed.

Lemma bind_fault {A B} (m : M S A) (k : A → M S B) s f :
  m s = Fault f → (m ≫= k) s = Fault f.
Proof. intros H. unfold mbind, M_bind. by rewrite H. Qed.

Lemma bind_inv {A B} (m : M S A) (k : A → M S B) s b s2 :
  (m ≫= k) s = Done b s2 → ∃ a s1, m s = Done a s1 ∧ k a s1 = Done b s2.
Proof.
  unfold mbind, M_bind. destruct (m s) as [a s1|f]; [eauto | discriminate].
Qed.
End monad_rules.

Lemma fresh_loc_free (h : gmap loc block) : h !! fresh (dom h) = None.
Proof. apply not_elem_of_dom, is_fresh. Qed.

Lemma alloc_done b m :
  alloc_succeeds (oracle m) = true →
  alloc b m = Done (Ptr (fresh (dom (blocks m))))
                   (Memory (<[fresh (dom (blocks m)) := b]> (blocks m)) (tail (oracle m))).
Proof. intros H. unfold alloc. by rewrite H. Qed.

Lemma alloc_null b m :
  alloc_succeeds (oracle m) = false →
  alloc b m = Done NULL (Memory (blocks m) (tail (oracle m))).
Proof. intros H. unfold alloc. by rewrite H. Qed.

Lemma free_done l b m :
  blocks m !! l = Some b →
  free (Ptr l) m = Done tt (Memory (delete l (blocks m)) (oracle m)).
Proof. intros H. simpl. by rewrite H. Qed.

Lemma load_block_done l b m :
  blocks m !! l = Some b → load_block (Ptr l) m = Done b m.
Proof. intros H. simpl. by rewrite H. Qed.

Lemma store_block_done l b b' m :
  blocks m !! l = Some b →
  store_block (Ptr l) b' m = Done tt (Memory (<[l := b']> (blocks m)) (oracle m)).
Proof. intros H. simpl. by rewrite H. Qed.

Lemma load_cell_done l cells i q m :
  blocks m !! l = Some (Ptrs cells) → cells !! i = Some (Some q) →
  load_cell (Ptr l) i m = Done q m.
Proof.
  intros H Hi. unfold load_cell.
  rewrite (bind_done _ _ _ _ _ (load_block_done _ _ _ H)). by rewrite Hi.
Qed.

Lemma store_cell_done l cells i q m :
  blocks m !! l = Some (Ptrs cells) → (i < length cells)%nat →
  store_cell (Ptr l) i q m
  = Done tt (Memory (<[l := Ptrs (<[i := Some q]> cells)]> (blocks m)) (oracle m)).
Proof.
  intros H Hi. unfold store_cell.
  rewrite (bind_done _ _ _ _ _ (load_block_done _ _ _ H)).
  rewrite decide_True by done. by apply store_block_done with (Ptrs cells).
Qed.

Lemma load_str_done l cap s m :
  blocks m !! l = Some (Chars cap s) → load_str (Ptr l) m = Done s m.
Proof.
  intros H. unfold load_str.
  by rewrite (bind_done _ _ _ _ _ (load_block_done _ _ _ H)).
Qed.

Lemma strlen_done l cap s m :
  blocks m !! l = Some (Chars cap s) → strlen (Ptr l) m = Done (strlen_of s) m.
Proof.
  intros H. unfold strlen.
  by rewrite (bind_done _ _ _ _ _ (load_str_done _ _ _ _ H)).
Qed.

(** ** Duplication of an argument vector *)

Lemma drop_tail {A} k (l : list A) : drop k (tail l) = drop (S k) l.
Proof. destruct l; simpl; [by rewrite drop_nil | done]. Qed.

Lemma cells_of_snoc ls l k :
  <[length ls := Some (Ptr l)]> (cells_of ls ++ replicate (S k) None)
  = cells_of (ls ++ [l]) ++ replicate k None.
Proof.
  unfold cells_of. rewrite fmap_app, <- app_assoc. simpl.
  replace (length ls) with (length ((λ l0, Some (Ptr l0)) <$> ls) + 0)%nat
    by (rewrite length_fmap; lia).
  by rewrite insert_app_r.
Qed.

Lemma duplicate_argv_loop_spec a argv k : ∀ i m ls,
  blocks m !! a = Some (Ptrs (cells_of ls ++ replicate k None)) →
  length ls = i →
  (i + k ≤ length argv)%nat →
  ∃ p m', duplicate_argv_loop k i argv (Ptr a) m = Done p m' ∧
    (∀ l, l ≠ a → is_Some (blocks m !! l) → blocks m' !! l = blocks m !! l) ∧
    if all_succeed k (oracle m) then
      ∃ ls', p = Ptr a ∧
        blocks m' !! a = Some (Ptrs (cells_of (ls ++ ls'))) ∧
        NoDup ls' ∧
        (∀ l, l ∈ ls' → blocks m !! l = None) ∧
        Forall2 (λ l s, blocks m' !! l = Some (str_block s)) ls' (take k (drop i argv)) ∧
        oracle m' = drop k (oracle m)
    else p = NULL ∧ blocks m' !! a = None.
Proof.
  induction k as [|k IH]; intros i m ls Ha Hlen Hle; subst i.
  - exists (Ptr a), m. simpl. split; [done|]. split; [done|].
    exists []. simpl in Ha. rewrite app_nil_r in Ha. rewrite app_nil_r.
    repeat split; auto using NoDup_nil_2. intros l Hl. by apply elem_of_nil in Hl.
  - destruct (lookup_lt_is_Some_2 argv (length ls)) as [s Hs]; [lia|].
    cbn [duplicate_argv_loop]. unfold caller_arg. rewrite Hs.
    rewrite ret_bind.
    unfold mosh_strdup.
    assert (Hcells : (length ls < length (cells_of ls ++ replicate (S k) None))%nat).
    { unfold cells_of. rewrite length_app, length_replicate, length_fmap. lia. }
    destruct (alloc_succeeds (oracle m)) eqn:Hor.
    + set (l := fresh (dom (blocks m))).
      assert (Hl : blocks m !! l = None) by apply fresh_loc_free.
      assert (Hla : l ≠ a) by (intros ->; congruence).
      rewrite (bind_done _ _ _ _ _ (alloc_done _ _ Hor)). fold l.
      set (m1 := Memory (<[l:=Chars (strlen_of s + 1) s]> (blocks m)) (tail (oracle m))).
      assert (Ha1 : blocks m1 !! a = Some (Ptrs (cells_of ls ++ replicate (S k) None))).
      { simpl. by rewrite lookup_insert_ne. }
      rewrite (bind_done _ _ _ _ _ (store_cell_done _ _ _ (Ptr l) _ Ha1 Hcells)).
      cbn [is_null]. rewrite cells_of_snoc.
      set (m2 := Memory _ _).
      destruct (IH (S (length ls)) m2 (ls ++ [l])) as (p & m' & Hrun & Hframe & Hres).
      { subst m2. simpl. by rewrite lookup_insert_eq. }
      { rewrite length_app. simpl. lia. }
      { lia. }
      exists p, m'. split; [exact Hrun|].
      assert (Hm2 : ∀ l0, l0 ≠ a → l0 ≠ l → blocks m2 !! l0 = blocks m !! l0).
      { intros l0 H1 H2. subst m2 m1. simpl.
        rewrite lookup_insert_ne by done. by rewrite lookup_insert_ne. }
      assert (Hm2l : blocks m2 !! l = Some (str_block s)).
      { subst m2 m1. simpl. rewrite lookup_insert_ne by done.
        by rewrite lookup_insert_eq. }
      split.
      { intros l0 H1 H2. assert (l0 ≠ l) by (intros ->; rewrite Hl in H2; by destruct H2).
        rewrite Hframe; [by apply Hm2 | done | by rewrite Hm2]. }
      cbn [all_succeed]. rewrite Hor. cbn [andb].
      change (oracle m2) with (tail (oracle m)) in Hres.
      destruct (all_succeed k (tail (oracle m))); [|exact Hres].
      destruct Hres as (ls' & -> & Ha' & Hnd & Hnew & Hstr & Hor').
      exists (l :: ls'). split; [done|].
      split; [by rewrite <- app_assoc in Ha'|].
      split.
      { apply NoDup_cons. split; [|done]. intros Hin. apply Hnew in Hin. congruence. }
      split.
      { intros l0 [->|Hin]%elem_of_cons; [done|].
        pose proof (Hnew _ Hin) as Hn.
        assert (l0 ≠ l) by (intros ->; congruence).
        assert (l0 ≠ a).
        { intros ->. subst m2. simpl in Hn. by rewrite lookup_insert_eq in Hn. }
        by rewrite <- Hm2. }
      split.
      { rewrite (drop_S _ _ _ Hs). cbn [take]. constructor; [|exact Hstr].
        rewrite Hframe; [done | done | by rewrite Hm2l]. }
      rewrite Hor'. apply drop_tail.
    + rewrite (bind_done _ _ _ _ _ (alloc_null _ _ Hor)).
      set (m1 := Memory (blocks m) (tail (oracle m))).
      rewrite (bind_done _ _ _ _ _ (store_cell_done _ _ _ NULL m1 Ha Hcells)).
      cbn [is_null]. set (m2 := Memory _ _).
      assert (Ha2 : blocks m2 !! a = Some (Ptrs (<[length ls:=Some NULL]> (cells_of ls ++ replicate (S k) None)))).
      { subst m2. simpl. by rewrite lookup_insert_eq. }
      rewrite (bind_done _ _ _ _ _ (free_done _ _ _ Ha2)).
      eexists _, _. split; [reflexivity|]. simpl.
      split.
      { intros l0 H1 _. rewrite lookup_delete_ne by done. by rewrite lookup_insert_ne. }
      rewrite Hor. simpl. split; [done|]. by rewrite lookup_delete_eq.
Qed.

Lemma duplicate_argv_spec n argv m :
  (n ≤ length argv)%nat →
  ∃ p m', th_ctrl_util_duplicate_argv n argv m = Done p m' ∧
    (∀ l b, blocks m !! l = Some b → blocks m' !! l = Some b) ∧
    if all_succeed (S n) (oracle m) then
      ∃ a ls, p = Ptr a ∧ owned_at (blocks m') a ls (take n argv) ∧
        (∀ l, l ∈ a :: ls → blocks m !! l = None) ∧
        oracle m' = drop (S n) (oracle m)
    else p = NULL.
Proof.
  intros Hn. unfold th_ctrl_util_duplicate_argv, malloc_ptrs.
  cbn [all_succeed].
  destruct (alloc_succeeds (oracle m)) eqn:Hor.
  - set (a := fresh (dom (blocks m))).
    assert (Hfa : blocks m !! a = None) by apply fresh_loc_free.
    rewrite (bind_done _ _ _ _ _ (alloc_done _ _ Hor)). fold a. cbn [is_null].
    set (m1 := Memory _ _).
    destruct (duplicate_argv_loop_spec a argv n 0%nat m1 [])
      as (p & m' & Hrun & Hframe & Hres).
    { subst m1. simpl. by rewrite lookup_insert_eq. }
    { done. }
    { simpl. lia. }
    exists p, m'. split; [exact Hrun|]. split.
    { intros l b Hl. assert (l ≠ a) by (intros ->; congruence).
      rewrite Hframe; subst m1; simpl; rewrite ?lookup_insert_ne; eauto. }
    change (oracle m1) with (tail (oracle m)) in Hres. cbn [andb].
    destruct (all_succeed n (tail (oracle m))); [|by destruct Hres].
    destruct Hres as (ls & -> & Ha & Hnd & Hnew & Hstr & Hor').
    exists a, ls. split; [done|].
    assert (Hnew' : ∀ l, l ∈ ls → l ≠ a ∧ blocks m !! l = None).
    { intros l Hl. pose proof (Hnew l Hl) as Hn'. subst m1. simpl in Hn'.
      assert (l ≠ a) by (intros ->; by rewrite lookup_insert_eq in Hn').
      by rewrite lookup_insert_ne in Hn'. }
    split; [|split].
    + split; [done|]. split; [|done].
      apply NoDup_cons. split; [|done]. intros Hin. by destruct (Hnew' _ Hin).
    + intros l [->|Hin]%elem_of_cons; [done|]. by destruct (Hnew' _ Hin).
    + rewrite Hor'. apply drop_tail.
  - rewrite (bind_done _ _ _ _ _ (alloc_null _ _ Hor)). cbn [is_null].
    eexists _, _. split; [reflexivity|]. split; [done|]. done.
Qed.

(** ** Strings, and the release of an argument vector *)

Lemma string_app_cons c (s t : string) : String c s +:+ t = String c (s +:+ t).
Proof. reflexivity. Qed.

Lemma string_app_nil_r (s : string) : s +:+ EmptyString = s.
Proof.
  induction s as [|c s IH]; [done|]. by rewrite string_app_cons, IH.
Qed.

Lemma string_app_assoc (s1 s2 s3 : string) :
  (s1 +:+ s2) +:+ s3 = s1 +:+ (s2 +:+ s3).
Proof.
  induction s1 as [|c s1 IH]; [done|]. by rewrite !string_app_cons, IH.
Qed.

Lemma strlen_of_app (s1 s2 : string) :
  strlen_of (s1 +:+ s2) = strlen_of s1 + strlen_of s2.
Proof.
  unfold strlen_of. induction s1 as [|c s1 IH]; [done|].
  rewrite string_app_cons. cbn [String.length]. lia.
Qed.

Lemma strlen_of_nonneg s : 0 ≤ strlen_of s.
Proof. unfold strlen_of. lia. Qed.

Lemma substring_all (s : string) : String.substring 0 (String.length s) s = s.
Proof. induction s as [|c s IH]; simpl; [done | by f_equal]. Qed.

Lemma lookup_free_all ls : ∀ h l,
  free_all ls h !! l = if decide (l ∈ ls) then None else h !! l.
Proof.
  unfold free_all.
  induction ls as [|l0 ls IH]; intros h l; cbn [foldl].
  - case_decide as H; [by apply elem_of_nil in H | done].
  - rewrite IH.
    destruct (decide (l ∈ ls)) as [H1|H1], (decide (l ∈ l0 :: ls)) as [H2|H2];
      try done.
    + exfalso. apply H2. by apply list_elem_of_further.
    + apply elem_of_cons in H2 as [->|?]; [apply lookup_delete_eq | done].
    + apply lookup_delete_ne. intros ->. apply H2, list_elem_of_here.
Qed.

Lemma cells_of_lookup ls i l :
  ls !! i = Some l → cells_of ls !! i = Some (Some (Ptr l)).
Proof. intros H. unfold cells_of. by rewrite list_lookup_fmap, H. Qed.

Lemma duplicate_argv_free_loop_spec a ls k : ∀ i m,
  blocks m !! a = Some (Ptrs (cells_of ls)) →
  (k = 0 ∨ i + k ≤ length ls)%nat →
  a ∉ drop i ls →
  NoDup (drop i ls) →
  (∀ l, l ∈ take k (drop i ls) → is_Some (blocks m !! l)) →
  duplicate_argv_free_loop k i (Ptr a) m
  = Done tt (Memory (free_all (take k (drop i ls)) (blocks m)) (oracle m)).
Proof.
  induction k as [|k IH]; intros i m Ha Hk Hna Hnd Hlive.
  - simpl. by destruct m.
  - destruct (lookup_lt_is_Some_2 ls i) as [l Hi]; [lia|].
    rewrite (drop_S _ _ _ Hi) in *. cbn [take] in *.
    apply NoDup_cons in Hnd as [Hl Hnd].
    apply not_elem_of_cons in Hna as [Hal Hna].
    destruct (Hlive l) as [b Hb]; [apply list_elem_of_here|].
    cbn [duplicate_argv_free_loop].
    rewrite (bind_done _ _ _ _ _ (load_cell_done _ _ _ _ _ Ha (cells_of_lookup _ _ _ Hi))).
    rewrite (bind_done _ _ _ _ _ (free_done _ _ _ Hb)).
    rewrite IH; [done | | lia | done | done |].
    + simpl. by rewrite lookup_delete_ne.
    + intros l' Hl'. simpl. rewrite lookup_delete_ne.
      * apply Hlive. by apply list_elem_of_further.
      * intros ->. apply Hl. by eapply subseteq_take.
Qed.

Lemma owned_at_length h a ls strs : owned_at h a ls strs → length ls = length strs.
Proof. intros (_ & _ & H). by eapply Forall2_length. Qed.

Lemma duplicate_argv_free_spec a ls strs m :
  owned_at (blocks m) a ls strs →
  th_ctrl_util_duplicate_argv_free (length strs) (Ptr a) m
  = Done tt (Memory (delete a (free_all (drop 1 ls) (blocks m))) (oracle m)).
Proof.
  intros Hown. pose proof (owned_at_length _ _ _ _ Hown) as Hlen.
  destruct Hown as (Ha & Hnd & Hstr).
  apply NoDup_cons in Hnd as [Hna Hnd].
  unfold th_ctrl_util_duplicate_argv_free.
  assert (Htake : take (length strs - 1) (drop 1 ls) = drop 1 ls).
  { apply take_ge. rewrite length_drop. lia. }
  assert (Hloop : duplicate_argv_free_loop (length strs - 1) 1 (Ptr a) m
            = Done tt (Memory (free_all (drop 1 ls) (blocks m)) (oracle m))).
  { rewrite <- Htake at 1. apply duplicate_argv_free_loop_spec; [done | lia | | |].
    - intros Hin. apply Hna. by eapply subseteq_drop.
    - eapply sublist_NoDup; [done | apply sublist_drop].
    - rewrite Htake. intros l Hl. apply subseteq_drop in Hl.
      apply list_elem_of_lookup in Hl as [j Hj].
      destruct (Forall2_lookup_l _ _ _ _ _ Hstr Hj) as (s & _ & Hs). eauto. }
  rewrite (bind_done (duplicate_argv_free_loop _ _ _) _ m _ _ Hloop).
  erewrite free_done; [done|]. simpl.
  rewrite lookup_free_all, decide_False; [done|].
  intros Hin. apply Hna. by eapply subseteq_drop.
Qed.

(** The first element of a released vector stays allocated. *)
Lemma duplicate_argv_free_keeps_first h a l0 ls s0 strs :
  owned_at h a (l0 :: ls) (s0 :: strs) →
  delete a (free_all (drop 1 (l0 :: ls)) h) !! l0 = Some (str_block s0).
Proof.
  intros (Ha & Hnd & Hstr).
  apply NoDup_cons in Hnd as [Hna Hnd]. apply NoDup_cons in Hnd as [Hl0 _].
  apply not_elem_of_cons in Hna as [Hne _].
  apply Forall2_cons in Hstr as [Hs0 _].
  rewrite lookup_delete_ne by done. simpl.
  by rewrite lookup_free_all, decide_False.
Qed.

(** ** The reconstructed command line *)

Lemma sprintf_at_done b cap s w m :
  blocks m !! b = Some (Chars cap s) →
  strlen_of s + strlen_of w + 1 ≤ cap →
  sprintf_at (Ptr b) (strlen_of s) w m
  = Done tt (Memory (<[b := Chars cap (s +:+ w)]> (blocks m)) (oracle m)).
Proof.
  intros Hb Hcap. unfold sprintf_at.
  rewrite (bind_done _ _ _ _ _ (load_block_done _ _ _ Hb)).
  pose proof (strlen_of_nonneg s).
  rewrite decide_True by done. rewrite decide_True by lia.
  unfold strlen_of at 1. rewrite Nat2Z.id, substring_all.
  by eapply store_block_done.
Qed.

Lemma strings_at_frame (h h' : gmap loc block) ls strs :
  Forall2 (λ l s, h !! l = Some (str_block s)) ls strs →
  (∀ l, l ∈ ls → h' !! l = h !! l) →
  Forall2 (λ l s, h' !! l = Some (str_block s)) ls strs.
Proof.
  induction 1 as [|l s ls strs Hl _ IH]; intros Hsame; constructor.
  - rewrite Hsame; [done | apply list_elem_of_here].
  - apply IH. intros l' Hl'. by apply Hsame, list_elem_of_further.
Qed.

Lemma get_command_str_loop_spec h0 o q strs p cap obl k : ∀ i acc,
  h0 !! p = None →
  (∀ j s, strs !! j = Some s → arg_at h0 q j s) →
  (k = 0 ∨ i + k ≤ length strs)%nat →
  strlen_of acc + strlen_of (command_line (take k (drop i strs))) ≤ obl →
  strlen_of acc + strlen_of (command_line (take k (drop i strs))) + 1 ≤ cap →
  get_command_str_loop k i q (Ptr p) obl (strlen_of acc)
    (Memory (<[p := Chars cap acc]> h0) o)
  = Done tt (Memory (<[p := Chars cap (acc +:+ command_line (take k (drop i strs)))]> h0) o).
Proof.
  induction k as [|k IH]; intros i acc Hp Hargs Hk Hobl Hcap.
  - simpl. by rewrite string_app_nil_r.
  - destruct (lookup_lt_is_Some_2 strs i) as [s Hs]; [lia|].
    destruct (Hargs _ _ Hs) as (a & cells & l & capl & -> & Ha & Hl & Hls).
    assert (Hap : a ≠ p) by (intros ->; congruence).
    assert (Hlp : l ≠ p) by (intros ->; congruence).
    rewrite (drop_S _ _ _ Hs) in *. cbn [take command_line] in *.
    rewrite !strlen_of_app in Hobl, Hcap.
    pose proof (strlen_of_nonneg (command_line (take k (drop (S i) strs)))).
    pose proof (strlen_of_nonneg s).
    change (strlen_of " ") with 1 in *.
    set (m := Memory _ o).
    assert (Ha' : blocks m !! a = Some (Ptrs cells))
      by (subst m; simpl; by rewrite lookup_insert_ne).
    assert (Hls' : blocks m !! l = Some (Chars capl s))
      by (subst m; simpl; by rewrite lookup_insert_ne).
    assert (Hbuf : blocks m !! p = Some (Chars cap acc))
      by (subst m; simpl; by rewrite lookup_insert_eq).
    cbn [get_command_str_loop].
    rewrite (bind_done _ _ _ _ _ (load_cell_done _ _ _ _ _ Ha' Hl)).
    rewrite (bind_done _ _ _ _ _ (strlen_done _ _ _ _ Hls')).
    rewrite decide_False by lia.
    rewrite (bind_done _ _ _ _ _ (load_str_done _ _ _ _ Hls')).
    rewrite (bind_done _ _ _ _ _ (sprintf_at_done _ _ _ (s +:+ " ") _ Hbuf
               ltac:(rewrite strlen_of_app; change (strlen_of " ") with 1; lia))).
    subst m. cbn [blocks oracle]. rewrite insert_insert_eq.
    set (m1 := Memory _ o).
    assert (Hbuf1 : blocks m1 !! p = Some (Chars cap (acc +:+ s +:+ " ")))
      by (subst m1; simpl; by rewrite lookup_insert_eq).
    rewrite (bind_done _ _ _ _ _ (strlen_done _ _ _ _ Hbuf1)).
    subst m1. rewrite IH; [by rewrite string_app_assoc | done | done | lia | |];
      rewrite !strlen_of_app; change (strlen_of " ") with 1; lia.
Qed.

Lemma load_argv_inv k : ∀ i q m strs m',
  load_argv k i q m = Done strs m' →
  m' = m ∧ length strs = k ∧
  ∀ j s, strs !! j = Some s → arg_at (blocks m) q (i + j) s.
Proof.
  induction k as [|k IH]; intros i q m strs m' Hrun.
  - injection Hrun as <- <-. repeat split. intros j s Hj. by destruct j.
  - cbn [load_argv] in Hrun.
    apply bind_inv in Hrun as (l & m1 & Hcell & Hrun).
    apply bind_inv in Hrun as (w & m2 & Hstr & Hrun).
    apply bind_inv in Hrun as (rest & m3 & Hrest & Hrun).
    injection Hrun as <- <-.
    unfold load_cell in Hcell.
    apply bind_inv in Hcell as (blk & m1' & Hblk & Hcell).
    destruct q as [|a]; [discriminate|]. simpl in Hblk.
    destruct (blocks m !! a) as [blk'|] eqn:Ha; [|discriminate].
    injection Hblk as <- <-.
    destruct blk' as [|cells]; [discriminate|].
    destruct (cells !! i) as [[l'|]|] eqn:Hi; try discriminate.
    injection Hcell as <- <-.
    unfold load_str in Hstr.
    apply bind_inv in Hstr as (blk & m2' & Hblk & Hstr).
    destruct l' as [|l]; [discriminate|]. simpl in Hblk.
    destruct (blocks m !! l) as [blk'|] eqn:Hl; [|discriminate].
    injection Hblk as <- <-.
    destruct blk' as [cap t|]; [|discriminate].
    injection Hstr as <- <-.
    destruct (IH _ _ _ _ _ Hrest) as (-> & Hlen & Hargs).
    split; [done|]. split; [simpl; by rewrite Hlen|].
    intros [|j] s Hj.
    + injection Hj as <-. rewrite Nat.add_0_r. by exists a, cells, l, cap.
    + rewrite <- Nat.add_succ_comm. by apply Hargs.
Qed.

Lemma load_argv_owned a ls strs m k : ∀ i,
  blocks m !! a = Some (Ptrs (cells_of ls)) →
  Forall2 (λ l s, blocks m !! l = Some (str_block s)) ls strs →
  (k = 0 ∨ i + k ≤ length ls)%nat →
  load_argv k i (Ptr a) m = Done (take k (drop i strs)) m.
Proof.
  induction k as [|k IH]; intros i Ha Hstr Hk; [done|].
  destruct (lookup_lt_is_Some_2 ls i) as [l Hl]; [lia|].
  destruct (Forall2_lookup_l _ _ _ _ _ Hstr Hl) as (s & Hs & Hls).
  cbn [load_argv].
  rewrite (bind_done _ _ _ _ _ (load_cell_done _ _ _ _ _ Ha (cells_of_lookup _ _ _ Hl))).
  rewrite (bind_done _ _ _ _ _ (load_str_done _ _ _ _ Hls)).
  rewrite (bind_done _ _ _ _ _ (IH (S i) Ha Hstr ltac:(lia))).
  by rewrite (drop_S _ _ _ Hs).
Qed.

(** ** Status report of one slot *)

Lemma on_heap_done {A} (m : M memory A) s a h :
  m (heap s) = Done a h → on_heap m s = Done a (with_heap h s).
Proof. intros H. unfold on_heap. by rewrite H. Qed.

Lemma on_heap_fault {A} (m : M memory A) s f :
  m (heap s) = Fault f → on_heap m s = Fault f.
Proof. intros H. unfold on_heap. by rewrite H. Qed.

Lemma with_heap_id s : with_heap (heap s) s = s.
Proof. by destruct s. Qed.

Lemma strlen_of_zero text : (strlen_of text =? 0) = bool_decide (text = EmptyString).
Proof. by destruct text. Qed.

Lemma shell_print_done sh line s :
  shell_print sh line s = Done tt (say [Msg line] s).
Proof. done. Qed.

Lemma shell_error_done sh line s :
  shell_error sh line s = Done tt (say [Err line] s).
Proof. done. Qed.

Lemma say_say l1 l2 s : say l2 (say l1 s) = say (l1 ++ l2) s.
Proof. unfold say. simpl. by rewrite <- app_assoc. Qed.

Lemma has_results_null d s :
  results_str d = NULL → has_results d s = Done false s.
Proof. intros H. unfold has_results. by rewrite H. Qed.

Lemma has_results_live d s b cap text :
  results_str d = Ptr b →
  blocks (heap s) !! b = Some (Chars cap text) →
  has_results d s = Done (negb (bool_decide (text = EmptyString))) s.
Proof.
  intros H Hb. unfold has_results. rewrite H. cbn [is_null].
  rewrite (bind_done _ _ _ _ _ (on_heap_done _ _ _ _ (strlen_done _ _ _ _ Hb))).
  by rewrite with_heap_id, strlen_of_zero.
Qed.

Lemma status_print_nothing sh r s :
  (results_str (data_of r s) = NULL ∨
   ∃ b cap, results_str (data_of r s) = Ptr b ∧
            blocks (heap s) !! b = Some (Chars cap EmptyString)) →
  th_ctrl_data_status_print sh r s
  = Done tt (say [status_header (data_of r s); Msg "  Nothing"] s).
Proof.
  intros H. unfold th_ctrl_data_status_print.
  rewrite (bind_done _ _ s (data_of r s) s) by done.
  unfold shell_print at 1.
  rewrite (bind_done _ _ s tt (say [status_header (data_of r s)] s)) by done.
  assert (Hres : has_results (data_of r s) (say [status_header (data_of r s)] s)
                 = Done false (say [status_header (data_of r s)] s)).
  { destruct H as [H|(b & cap & H & Hb)].
    - by apply has_results_null.
    - by rewrite (has_results_live _ _ b cap EmptyString). }
  rewrite (bind_done _ _ _ _ _ Hres).
  unfold shell_print, emit, say. simpl. by rewrite <- app_assoc.
Qed.

Lemma owned_at_live h a ls strs l :
  owned_at h a ls strs → l ∈ a :: ls → is_Some (h !! l).
Proof.
  intros (Ha & _ & Hstr) [->|Hin]%elem_of_cons; [eauto|].
  apply list_elem_of_lookup in Hin as [j Hj].
  destruct (Forall2_lookup_l _ _ _ _ _ Hstr Hj) as (s & _ & Hs). eauto.
Qed.

Lemma owned_at_frame (h h' : gmap loc block) a ls strs :
  owned_at h a ls strs →
  (∀ l, l ∈ a :: ls → h' !! l = h !! l) →
  owned_at h' a ls strs.
Proof.
  intros (Ha & Hnd & Hstr) Hsame. split; [|split; [done|]].
  - rewrite Hsame; [done | apply list_elem_of_here].
  - eapply strings_at_frame; [exact Hstr|].
    intros l Hl. by apply Hsame, list_elem_of_further.
Qed.

Lemma stored_results_inv s r text :
  stored_results s r = Some text →
  ∃ b cap, results_str (data_of r s) = Ptr b ∧
           blocks (heap s) !! b = Some (Chars cap text).
Proof.
  unfold stored_results. destruct (results_str (data_of r s)) as [|b]; [done|].
  destruct (blocks (heap s) !! b) as [[cap t|]|] eqn:Hb; try done.
  intros [= ->]. eauto.
Qed.

Lemma stored_argv_inv s r strs :
  stored_argv s r = Some strs →
  argc (data_of r s) = length strs ∧
  ∀ j a, strs !! j = Some a → arg_at (blocks (heap s)) (argv (data_of r s)) j a.
Proof.
  unfold stored_argv.
  destruct (load_argv _ _ _ _) as [strs' m'|] eqn:Hload; [|done].
  intros [= ->]. apply load_argv_inv in Hload as (_ & Hlen & Hargs). done.
Qed.

Lemma get_command_str_spec h0 o q strs p cap obl :
  h0 !! p = None →
  (∀ j a, strs !! j = Some a → arg_at h0 q j a) →
  strlen_of (command_line strs) ≤ obl →
  strlen_of (command_line strs) + 1 ≤ cap →
  th_ctrl_get_command_str_from_argv (length strs) q (Ptr p) obl
    (Memory (<[p := Chars cap EmptyString]> h0) o)
  = Done (Ptr p) (Memory (<[p := Chars cap (command_line strs)]> h0) o).
Proof.
  intros Hp Hargs Hobl Hcap.
  unfold th_ctrl_get_command_str_from_argv.
  change 0 with (strlen_of EmptyString).
  assert (Htake : take (length strs) (drop 0 strs) = strs).
  { rewrite drop_0. by apply take_ge. }
  rewrite (bind_done (get_command_str_loop _ _ _ _ _ _) _ _ _ _
             (get_command_str_loop_spec h0 o q strs p cap obl (length strs)
                0%nat EmptyString Hp Hargs
                ltac:(right; lia)
                ltac:(rewrite Htake; change (strlen_of EmptyString) with 0; lia)
                ltac:(rewrite Htake; change (strlen_of EmptyString) with 0; lia))).
  by rewrite Htake.
Qed.

Lemma status_print_results sh r s text strs :
  stored_results s r = Some text →
  text ≠ EmptyString →
  stored_argv s r = Some strs →
  alloc_succeeds (oracle (heap s)) = true →
  0 ≤ cmd_len (data_of r s) < 65535 →
  strlen_of (command_line strs) ≤ cmd_len (data_of r s) →
  th_ctrl_data_status_print sh r s
  = Done tt (say [status_header (data_of r s); Msg "  Results available";
                  running_line (data_of r s);
                  Msg ("  command: " +:+ command_line strs)]
               (with_heap (Memory (blocks (heap s)) (tail (oracle (heap s)))) s)).
Proof.
  intros (b & capb & Hres & Hb)%stored_results_inv Htext
         (Hargc & Hargs)%stored_argv_inv Hor Hlen Hfit.
  set (d := data_of r s) in *.
  unfold th_ctrl_data_status_print.
  rewrite (bind_done _ _ s d s) by done.
  rewrite (bind_done _ _ _ _ _ (shell_print_done _ _ _)).
  rewrite (bind_done _ _ _ _ _
             (has_results_live d (say [status_header d] s) b capb text Hres Hb)).
  rewrite bool_decide_false by done. cbn [negb].
  rewrite (bind_done _ _ _ _ _ (shell_print_done _ _ _)), say_say.
  rewrite (bind_done _ _ _ tt
             (say [status_header d; Msg "  Results available"; running_line d] s)).
  2:{ unfold running_line. destruct (k_work_is_pending (work d));
      by rewrite shell_print_done, say_say. }
  set (s2 := say _ s).
  set (p := fresh (dom (blocks (heap s)))).
  assert (Hp : blocks (heap s) !! p = None) by apply fresh_loc_free.
  unfold calloc.
  rewrite (bind_done _ _ _ _ _
             (on_heap_done _ s2 _ _ (alloc_done _ (heap s) Hor))).
  fold p. rewrite Hargc, Z.mod_small by lia.
  assert (Hcmd := get_command_str_spec (blocks (heap s)) (tail (oracle (heap s)))
                    (argv d) strs p (cmd_len d + 1) (cmd_len d + 1)
                    Hp Hargs ltac:(lia) ltac:(lia)).
  set (h1 := Memory _ _) in Hcmd |- *.
  rewrite (bind_done _ _ _ _ _ (on_heap_done _ (with_heap h1 s2) _ _ Hcmd)).
  set (h2 := Memory _ _).
  assert (Hp2 : blocks h2 !! p = Some (Chars (cmd_len d + 1) (command_line strs))).
  { subst h2. simpl. apply lookup_insert_eq. }
  rewrite (bind_done _ _ _ _ _
             (on_heap_done _ (with_heap h2 (with_heap h1 s2)) _ _
                (load_str_done _ _ _ _ Hp2))).
  rewrite (bind_done _ _ _ _ _ (shell_print_done _ _ _)).
  set (s3 := say _ _).
  rewrite (on_heap_done _ s3 _ _ (free_done _ _ _ Hp2)).
  f_equal. subst s3 h2 h1 s2. unfold say, with_heap. simpl.
  rewrite <- app_assoc. simpl.
  rewrite delete_insert_eq, delete_id by done. done.
Qed.

(** ** Result report of one slot *)

Lemma data_of_update r f s : data_of r (update_data r f s) = f (data_of r s).
Proof. by destruct r. Qed.

Lemma data_of_update_other r f s :
  data_of (other r) (update_data r f s) = data_of (other r) s.
Proof. by destruct r. Qed.

Lemma data_of_say r l s : data_of r (say l s) = data_of r s.
Proof. by destruct r. Qed.

Lemma data_of_with_heap r h s : data_of r (with_heap h s) = data_of r s.
Proof. by destruct r. Qed.

Lemma modify_data_done r f s : modify_data r f s = Done tt (update_data r f s).
Proof. done. Qed.

Lemma get_data_done r s : get_data r s = Done (data_of r s) s.
Proof. done. Qed.

Lemma heap_update_data r f s : heap (update_data r f s) = heap s.
Proof. by destruct r. Qed.

Lemma result_print_none sh r s :
  (results_str (data_of r s) = NULL ∨
   ∃ b cap, results_str (data_of r s) = Ptr b ∧
            blocks (heap s) !! b = Some (Chars cap EmptyString)) →
  th_ctrl_data_result_print sh r s
  = Done tt (say [no_results_line (data_of r s)] s).
Proof.
  intros H. unfold th_ctrl_data_result_print.
  rewrite (bind_done _ _ _ _ _ (get_data_done r s)).
  assert (Hres : has_results (data_of r s) s = Done false s).
  { destruct H as [H|(b & cap & H & Hb)].
    - by apply has_results_null.
    - by rewrite (has_results_live _ _ b cap EmptyString). }
  by rewrite (bind_done _ _ _ _ _ Hres).
Qed.

(** The common start of a report when results exist: header, rule,
    text, rule. *)
Lemma result_print_text sh r s b cap text (k : th_ctrl_data → M state unit) :
  results_str (data_of r s) = Ptr b →
  blocks (heap s) !! b = Some (Chars cap text) →
  text ≠ EmptyString →
  (d ← get_data r;
   avail ← has_results d;
   if negb avail then shell_print sh ("No results for thread #" +:+ dec (th_nbr d))
   else
     shell_print sh ("thread #" +:+ dec (th_nbr d) +:+ " results:");;
     shell_print sh "-------------------------------------";;
     text ← on_heap (load_str (results_str d));
     shell_print sh text;;
     shell_print sh "-------------------------------------";;
     k d) s
  = k (data_of r s) (say (results_lines (data_of r s) text) s).
Proof.
  intros Hres Hb Htext.
  rewrite (bind_done _ _ _ _ _ (get_data_done r s)).
  rewrite (bind_done _ _ _ _ _ (has_results_live _ s b cap text Hres Hb)).
  rewrite bool_decide_false by done. cbn [negb].
  rewrite (bind_done _ _ _ _ _ (shell_print_done _ _ _)).
  rewrite (bind_done _ _ _ _ _ (shell_print_done _ _ _)), say_say.
  set (s1 := say _ s). rewrite Hres.
  rewrite (bind_done _ _ _ _ _ (on_heap_done _ s1 _ _ (load_str_done _ _ _ _ Hb))).
  change (with_heap (heap s) s1) with s1.
  rewrite (bind_done _ _ _ _ _ (shell_print_done _ _ _)).
  rewrite (bind_done _ _ _ _ _ (shell_print_done _ _ _)).
  subst s1. by rewrite !say_say.
Qed.

Lemma result_print_running sh r s b cap text :
  results_str (data_of r s) = Ptr b →
  blocks (heap s) !! b = Some (Chars cap text) →
  text ≠ EmptyString →
  is_running r s = true →
  th_ctrl_data_result_print sh r s
  = Done tt (say (results_lines (data_of r s) text) s).
Proof.
  intros Hres Hb Htext Hrun. unfold th_ctrl_data_result_print.
  erewrite (result_print_text sh r s b cap text (λ d, if negb _ then _ else _));
    [|done..].
  unfold is_running in Hrun. by rewrite Hrun.
Qed.

Lemma result_print_finished sh r s b cap text a ls strs :
  results_str (data_of r s) = Ptr b →
  blocks (heap s) !! b = Some (Chars cap text) →
  text ≠ EmptyString →
  is_running r s = false →
  argv_at s r a ls strs →
  b ∉ ls →
  th_ctrl_data_result_print sh r s
  = Done tt
      (say (results_lines (data_of r s) text ++ [deleted_line (data_of r s)])
         (update_data r consumed
            (with_heap
               (Memory (delete a (free_all (drop 1 ls) (delete b (blocks (heap s)))))
                       (oracle (heap s))) s))).
Proof.
  intros Hres Hb Htext Hrun (Hargv & Hargc & Hown) Hbls.
  set (d := data_of r s) in *.
  unfold th_ctrl_data_result_print.
  erewrite (result_print_text sh r s b cap text (λ d, if negb _ then _ else _));
    [|done..].
  unfold is_running in Hrun. fold d in Hrun |- *. rewrite Hrun. cbn [negb].
  rewrite Hres, Hargv, Hargc.
  set (s1 := say _ s).
  rewrite (bind_done _ _ _ _ _ (on_heap_done _ s1 _ _ (free_done _ _ _ Hb))).
  set (h1 := Memory _ _).
  rewrite (bind_done _ _ _ _ _ (modify_data_done _ _ _)).
  rewrite (bind_done _ _ _ _ _ (shell_print_done _ _ _)).
  assert (Hba : b ≠ a).
  { intros ->. destruct Hown as (Ha & _). congruence. }
  assert (Hown1 : owned_at (blocks h1) a ls strs).
  { eapply owned_at_frame; [exact Hown|]. intros l Hl. subst h1. simpl.
    apply lookup_delete_ne. intros ->.
    apply elem_of_cons in Hl as [?|?]; done. }
  set (s2 := say _ _).
  assert (Hh2 : heap s2 = h1).
  { subst s2. simpl. by rewrite heap_update_data. }
  assert (Hfree := duplicate_argv_free_spec a ls strs h1 Hown1).
  rewrite <- Hh2 in Hfree at 1.
  rewrite (bind_done _ _ _ _ _ (on_heap_done _ s2 _ _ Hfree)).
  rewrite (bind_done _ _ _ _ _ (modify_data_done _ _ _)).
  rewrite modify_data_done. f_equal.
  subst s2 s1 h1 d. destruct r, s; unfold say, with_heap, update_data, consumed; simpl;
    by rewrite <- !app_assoc.
Qed.

(** ** [th_ctrl_data_start], phase by phase *)

Lemma assert_true {S} (s : S) : assert true s = Done tt s.
Proof. done. Qed.

Ltac mstep :=
  first
    [ rewrite (bind_done _ _ _ _ _ (get_data_done _ _))
    | rewrite (bind_done _ _ _ _ _ (modify_data_done _ _ _))
    | rewrite (bind_done _ _ _ _ _ (shell_print_done _ _ _))
    | rewrite (bind_done _ _ _ _ _ (shell_error_done _ _ _))
    | rewrite (bind_done _ _ _ _ _ (assert_true _))
    | rewrite ret_bind ].

Lemma start_argv_eq r sh n argv' bg s h2 p h3 :
  (1 < n)%nat →
  release_old (data_of r s) (heap s) = Done tt h2 →
  th_ctrl_util_duplicate_argv (n - 1) (drop 1 argv') h2 = Done p h3 →
  th_ctrl_data_start_argv r sh n argv' bg s
  = if is_null p then
      Done tt (say [no_mem_args] (update_data r (dup_failed (n - 1)) (with_heap h3 s)))
    else if (th_nbr (data_of r s) =? 1) || (th_nbr (data_of r s) =? 2) then
      Done tt (update_data r (submitted sh bg (n - 1) p) (with_heap h3 s))
    else Fault AssertFailed.
Proof.
  intros Hn Hrel Hdup. unfold th_ctrl_data_start_argv.
  rewrite (proj2 (Nat.ltb_lt 1 n) Hn). repeat mstep.
  rewrite (bind_done _ _ s tt (with_heap h2 s)).
  2:{ unfold release_old in Hrel. destruct (negb (is_null (argv (data_of r s)))).
      - by apply on_heap_done.
      - injection Hrel as <-. by rewrite with_heap_id. }
  mstep.
  set (s1 := update_data _ _ _).
  assert (Hh : heap s1 = h2) by (subst s1; by rewrite heap_update_data).
  rewrite <- Hh in Hdup.
  rewrite (bind_done _ _ _ _ _ (on_heap_done _ s1 _ _ Hdup)).
  mstep. destruct p as [|a]; cbn [is_null].
  - rewrite shell_error_done. f_equal.
    subst s1. by destruct r, s.
  - repeat mstep. rewrite !data_of_update, !data_of_with_heap.
    subst s1. rewrite !data_of_update, !data_of_with_heap.
    cbn [th_nbr set_cmd_len set_shell set_background set_argv set_argc].
    destruct (th_nbr (data_of r s) =? 1) eqn:H1; cbn [orb].
    + unfold k_work_submit_to_queue. rewrite modify_data_done. f_equal.
      unfold submitted. destruct r, s; simpl in *; by rewrite H1.
    + destruct (th_nbr (data_of r s) =? 2) eqn:H2.
      * mstep. unfold k_work_submit_to_queue. rewrite modify_data_done. f_equal.
        unfold submitted. destruct r, s; simpl in *; by rewrite H1.
      * done.
Qed.

Lemma start_argv_release_fault r sh n argv' bg s f :
  release_old (data_of r s) (heap s) = Fault f →
  th_ctrl_data_start_argv r sh n argv' bg s
  = if (1 <? n)%nat then Fault f else Fault AssertFailed.
Proof.
  intros Hrel. unfold th_ctrl_data_start_argv.
  destruct (1 <? n)%nat; [|done]. repeat mstep.
  unfold release_old in Hrel. destruct (negb (is_null (argv (data_of r s)))).
  - by rewrite (bind_fault _ _ _ _ (on_heap_fault _ _ _ Hrel)).
  - discriminate.
Qed.

Lemma memset0_done b cap t n m :
  blocks m !! b = Some (Chars cap t) → n ≤ cap →
  memset0 (Ptr b) n m
  = Done tt (Memory (<[b := Chars cap EmptyString]> (blocks m)) (oracle m)).
Proof.
  intros Hb Hn. unfold memset0.
  rewrite (bind_done _ _ _ _ _ (load_block_done _ _ _ Hb)).
  rewrite decide_True by done. by eapply store_block_done.
Qed.

Lemma set_results_str_same d : set_results_str (results_str d) d = d.
Proof. by destruct d. Qed.

Lemma update_data_id r s : update_data r (λ d, d) s = s.
Proof. by destruct r, s. Qed.

(** [th_ctrl_data_start] up to the argument phase: what the result buffer
    code makes of the slot, case by case. *)
Lemma data_start_eq r sh n argv' bg s :
  th_ctrl_data_start r sh n argv' bg s
  = let d := data_of r s in
    let h := heap s in
    if k_work_is_pending (work d) then Fault AssertFailed
    else
      match results_str d with
      | NULL =>
          if bg then
            if alloc_succeeds (oracle h) then
              let b := fresh (dom (blocks h)) in
              th_ctrl_data_start_argv r sh n argv' bg
                (update_data r (set_results_str (Ptr b))
                   (with_heap
                      (Memory (<[b := Chars TH_RESPONSE_BUFFER_SIZE EmptyString]> (blocks h))
                              (tail (oracle h))) s))
            else
              Done tt (say [no_mem_response]
                         (with_heap (Memory (blocks h) (tail (oracle h))) s))
          else th_ctrl_data_start_argv r sh n argv' bg s
      | Ptr b =>
          match blocks h !! b with
          | None => Fault BadAccess
          | Some blk =>
              if bg then
                match blk with
                | Chars cap _ =>
                    if decide (TH_RESPONSE_BUFFER_SIZE ≤ cap) then
                      th_ctrl_data_start_argv r sh n argv' bg
                        (with_heap
                           (Memory (<[b := Chars cap EmptyString]> (blocks h))
                                   (oracle h)) s)
                    else Fault BadAccess
                | Ptrs _ => Fault BadAccess
                end
              else
                th_ctrl_data_start_argv r sh n argv' bg
                  (update_data r (set_results_str NULL)
                     (with_heap (Memory (delete b (blocks h)) (oracle h)) s))
          end
      end.
Proof.
  cbv zeta. unfold th_ctrl_data_start. mstep.
  destruct (k_work_is_pending (work (data_of r s))) eqn:Hrun; cbn [negb]; [done|].
  mstep.
  destruct (results_str (data_of r s)) as [|b] eqn:Hres; cbn [is_null negb andb].
  - rewrite andb_false_r. repeat mstep. rewrite Hres. cbn [is_null negb andb].
    destruct bg; cbn [andb negb].
    + unfold calloc. destruct (alloc_succeeds (oracle (heap s))) eqn:Hor.
      * rewrite (bind_done _ _ _ _ _ (on_heap_done _ s _ _ (alloc_done _ _ Hor))).
        mstep. cbn [is_null]. done.
      * rewrite (bind_done _ _ _ _ _ (on_heap_done _ s _ _ (alloc_null _ _ Hor))).
        mstep. cbn [is_null]. rewrite shell_error_done. f_equal.
        rewrite <- Hres at 1.
        destruct r, s; simpl in *; by rewrite set_results_str_same.
    + by mstep.
  - destruct bg; cbn [andb negb].
    + repeat mstep. rewrite Hres. cbn [is_null negb andb].
      destruct (blocks (heap s) !! b) as [blk|] eqn:Hb.
      * destruct blk as [cap t|cells].
        -- destruct (decide (TH_RESPONSE_BUFFER_SIZE ≤ cap)) as [Hcap|Hcap].
           ++ by rewrite (bind_done _ _ _ _ _
                            (on_heap_done _ s _ _ (memset0_done _ _ _ _ _ Hb Hcap))).
           ++ apply bind_fault, on_heap_fault. unfold memset0.
              rewrite (bind_done _ _ _ _ _ (load_block_done _ _ _ Hb)).
              by rewrite decide_False.
        -- apply bind_fault, on_heap_fault. unfold memset0.
           by rewrite (bind_done _ _ _ _ _ (load_block_done _ _ _ Hb)).
      * apply bind_fault, on_heap_fault. unfold memset0.
        apply bind_fault. simpl. by rewrite Hb.
    + destruct (blocks (heap s) !! b) as [blk|] eqn:Hb.
      * rewrite (bind_done _ _ s tt
                   (update_data r (set_results_str NULL)
                      (with_heap (Memory (delete b (blocks (heap s))) (oracle (heap s))) s))).
        2:{ rewrite (bind_done _ _ _ _ _ (on_heap_done _ s _ _ (free_done _ _ _ Hb))).
            apply modify_data_done. }
        mstep. rewrite data_of_update. cbn [results_str set_results_str is_null negb].
        by mstep.
      * apply bind_fault, bind_fault, on_heap_fault. simpl. by rewrite Hb.
Qed.

(** ** Runs of a start that return *)

Lemma start_argv_assert r sh n argv' bg s :
  (1 <? n)%nat = false →
  th_ctrl_data_start_argv r sh n argv' bg s = Fault AssertFailed.
Proof. intros H. unfold th_ctrl_data_start_argv. by rewrite H. Qed.

Lemma update_data_ext r f g s :
  f (data_of r s) = g (data_of r s) → update_data r f s = update_data r g s.
Proof. destruct r, s; simpl; by intros ->. Qed.

(** Every run of the argument phase that returns went through the
    release of the old vector and the duplication of the new one. *)
Lemma start_argv_inv r sh n argv' bg s s' :
  (n ≤ length argv')%nat →
  th_ctrl_data_start_argv r sh n argv' bg s = Done tt s' →
  (1 < n)%nat ∧
  ∃ h2 p h3,
    release_old (data_of r s) (heap s) = Done tt h2 ∧
    th_ctrl_util_duplicate_argv (n - 1) (drop 1 argv') h2 = Done p h3 ∧
    s' = if is_null p
         then say [no_mem_args] (update_data r (dup_failed (n - 1)) (with_heap h3 s))
         else update_data r (submitted sh bg (n - 1) p) (with_heap h3 s).
Proof.
  intros Hlen Hrun.
  destruct (1 <? n)%nat eqn:Hn.
  2:{ by rewrite start_argv_assert in Hrun. }
  apply Nat.ltb_lt in Hn. split; [done|].
  destruct (release_old (data_of r s) (heap s)) as [[] h2|f] eqn:Hrel.
  2:{ rewrite (start_argv_release_fault _ _ _ _ _ _ _ Hrel) in Hrun.
      by destruct (1 <? n)%nat. }
  destruct (duplicate_argv_spec (n - 1) (drop 1 argv') h2) as (p & h3 & Hdup & _).
  { rewrite length_drop. lia. }
  exists h2, p, h3. split; [done|]. split; [done|].
  rewrite (start_argv_eq _ _ _ _ _ _ _ _ _ Hn Hrel Hdup) in Hrun.
  destruct (is_null p); [congruence|].
  destruct (_ || _); [congruence | discriminate].
Qed.

(** Every run of [th_ctrl_data_start] that returns either stopped at the
    failed allocation of the result buffer or entered the argument phase
    with only the heap and the slot's [results_str] changed. *)
Lemma data_start_inv r sh n argv' bg s s' :
  th_ctrl_data_start r sh n argv' bg s = Done tt s' →
  is_running r s = false ∧
  ((bg = true ∧ results_str (data_of r s) = NULL ∧
    alloc_succeeds (oracle (heap s)) = false ∧
    s' = say [no_mem_response]
           (with_heap (Memory (blocks (heap s)) (tail (oracle (heap s)))) s))
   ∨ ∃ res h,
       th_ctrl_data_start_argv r sh n argv' bg
         (update_data r (set_results_str res) (with_heap h s)) = Done tt s').
Proof.
  rewrite data_start_eq. cbv zeta. unfold is_running.
  destruct (k_work_is_pending (work (data_of r s))); [done|].
  intros Hrun. split; [done|].
  destruct (results_str (data_of r s)) as [|b] eqn:Hres.
  - destruct bg.
    + destruct (alloc_succeeds (oracle (heap s))) eqn:Hor.
      * right. eauto.
      * left. repeat split; congruence.
    + right. exists NULL, (heap s). rewrite with_heap_id.
      rewrite (update_data_ext r _ (λ d, d)), update_data_id; [done|].
      rewrite <- Hres. apply set_results_str_same.
  - destruct (blocks (heap s) !! b) as [blk|]; [|done].
    destruct bg.
    + destruct blk as [cap t|]; [|done]. case_decide; [|done].
      right. exists (Ptr b), (Memory (<[b:=Chars cap EmptyString]> (blocks (heap s))) (oracle (heap s))).
      rewrite (update_data_ext r _ (λ d, d)), update_data_id; [done|].
      rewrite data_of_with_heap, <- Hres. apply set_results_str_same.
    + right. eauto.
Qed.

(** A start that left the slot running has stored an owned copy of the
    caller's arguments from index 1 on. *)
Lemma data_start_started r sh n argv' bg s s' :
  n = length argv' →
  th_ctrl_data_start r sh n argv' bg s = Done tt s' →
  is_running r s' = true →
  (1 < n)%nat ∧
  ∃ a ls res,
    data_of r s' = submitted sh bg (n - 1) (Ptr a) (set_results_str res (data_of r s)) ∧
    owned_at (blocks (heap s')) a ls (drop 1 argv') ∧
    data_of (other r) s' = data_of (other r) s ∧
    console s' = console s.
Proof.
  intros Hlen Hrun Hrunning.
  apply data_start_inv in Hrun as (Hidle & [(_ & _ & _ & ->)|(res & h & Hrun)]).
  { unfold is_running in *. rewrite data_of_say, data_of_with_heap in Hrunning.
    congruence. }
  apply start_argv_inv in Hrun as (Hn & h2 & p & h3 & Hrel & Hdup & ->); [|lia].
  split; [done|].
  destruct (duplicate_argv_spec (n - 1) (drop 1 argv') h2) as (p' & h3' & Hdup' & _ & Hres).
  { rewrite length_drop. lia. }
  rewrite Hdup in Hdup'. injection Hdup' as <- <-.
  destruct (all_succeed (S (n - 1)) (oracle h2)).
  2:{ subst p. cbn [is_null] in Hrunning. unfold is_running in *.
      rewrite data_of_say, data_of_update, data_of_with_heap, data_of_update,
        data_of_with_heap in Hrunning.
      simpl in Hrunning. congruence. }
  destruct Hres as (a & ls & -> & Hown & _ & _). cbn [is_null].
  exists a, ls, res.
  rewrite data_of_update, data_of_with_heap, data_of_update, data_of_with_heap.
  split; [done|]. split.
  { rewrite take_ge in Hown by (rewrite length_drop; lia).
    by rewrite heap_update_data. }
  split; [by destruct r, s | by destruct r, s].
Qed.

(** ** Starts on a well-formed slot *)

Lemma owned_not_buffer h a ls strs b :
  owned_at h a ls strs →
  h !! b = Some (Chars TH_RESPONSE_BUFFER_SIZE EmptyString) →
  b ∉ a :: ls.
Proof.
  intros (Ha & _ & Hstr) Hb [->|Hin]%elem_of_cons; [congruence|].
  apply list_elem_of_lookup in Hin as [j Hj].
  destruct (Forall2_lookup_l _ _ _ _ _ Hstr Hj) as (s & _ & Hs).
  rewrite Hb in Hs. injection Hs as Hcap <-. done.
Qed.

Lemma release_old_run d h :
  argv_in (blocks h) d →
  ∃ h2, release_old d h = Done tt h2 ∧ oracle h2 = oracle h ∧
    ∀ b, blocks h !! b = Some (Chars TH_RESPONSE_BUFFER_SIZE EmptyString) →
         blocks h2 !! b = Some (Chars TH_RESPONSE_BUFFER_SIZE EmptyString).
Proof.
  intros [Hnull | (a & ls & strs & Ha & Hc & Hown)]; unfold release_old.
  - rewrite Hnull. cbn [is_null negb]. exists h. auto.
  - rewrite Ha, Hc. cbn [is_null negb].
    eexists. split; [by apply duplicate_argv_free_spec|]. split; [reflexivity|].
    intros b Hb. simpl.
    pose proof (owned_not_buffer _ _ _ _ _ Hown Hb) as [Hba Hbls]%not_elem_of_cons.
    rewrite lookup_delete_ne, lookup_free_all, decide_False; [done | | congruence].
    intros Hin. by apply Hbls, (subseteq_drop 1).
Qed.

Lemma slot_id_cases r : (slot_id r =? 1) || (slot_id r =? 2) = true.
Proof. by destruct r. Qed.

Lemma start_argv_run r sh n argv' bg s0 h2 :
  (1 < n)%nat → n = length argv' →
  th_nbr (data_of r s0) = slot_id r →
  release_old (data_of r s0) (heap s0) = Done tt h2 →
  ∃ s', th_ctrl_data_start_argv r sh n argv' bg s0 = Done tt s' ∧
    data_of (other r) s' = data_of (other r) s0 ∧
    (∀ l blk, blocks h2 !! l = Some blk → blocks (heap s') !! l = Some blk) ∧
    if all_succeed n (oracle h2) then
      ∃ a ls, data_of r s' = submitted sh bg (n - 1) (Ptr a) (data_of r s0) ∧
        owned_at (blocks (heap s')) a ls (drop 1 argv') ∧
        (∀ l, l ∈ a :: ls → blocks h2 !! l = None) ∧
        console s' = console s0
    else
      data_of r s' = dup_failed (n - 1) (data_of r s0) ∧
      console s' = console s0 ++ [no_mem_args].
Proof.
  intros Hn Hlen Hnbr Hrel.
  destruct (duplicate_argv_spec (n - 1) (drop 1 argv') h2)
    as (p & h3 & Hdup & Hframe & Hres).
  { rewrite length_drop. lia. }
  rewrite (start_argv_eq _ _ _ _ _ _ _ _ _ Hn Hrel Hdup), Hnbr, slot_id_cases.
  replace (S (n - 1)) with n in Hres by lia.
  destruct (all_succeed n (oracle h2)).
  - destruct Hres as (a & ls & -> & Hown & Hfresh & _). cbn [is_null].
    eexists. split; [done|].
    rewrite data_of_update_other, !data_of_update, !data_of_with_heap,
      heap_update_data.
    split; [done|]. split; [done|].
    exists a, ls. split; [done|]. split.
    { by rewrite take_ge in Hown by (rewrite length_drop; lia). }
    split; [done | by destruct r].
  - subst p. cbn [is_null]. eexists. split; [done|].
    rewrite !data_of_say, data_of_update_other, !data_of_update, !data_of_with_heap.
    split; [done|]. split; [by destruct r|]. split; [done | by destruct r].
Qed.

Lemma data_start_no_buffer r sh n argv' bg s :
  is_running r s = false →
  needs_buffer bg (data_of r s) = true →
  alloc_succeeds (oracle (heap s)) = false →
  th_ctrl_data_start r sh n argv' bg s
  = Done tt (say [no_mem_response]
               (with_heap (Memory (blocks (heap s)) (tail (oracle (heap s)))) s)).
Proof.
  unfold is_running, needs_buffer. intros Hidle [-> Hnull]%andb_true_iff Hor.
  rewrite data_start_eq. cbv zeta. rewrite Hidle.
  destruct (results_str (data_of r s)); [|done]. by rewrite Hor.
Qed.

Lemma argv_in_frame (h h' : gmap loc block) d :
  argv_in h d →
  (∀ l, is_Some (h !! l) → h' !! l = h !! l) →
  argv_in h' d.
Proof.
  intros [Hnull|(a & ls & strs & Ha & Hc & Hown)] Hsame; [by left|].
  right. exists a, ls, strs. split; [done|]. split; [done|].
  eapply owned_at_frame; [done|]. intros l Hl. apply Hsame.
  by eapply owned_at_live.
Qed.

Lemma cells_of_inj ls ls' : cells_of ls = cells_of ls' → ls = ls'.
Proof.
  revert ls'. induction ls as [|l ls IH]; intros [|l' ls']; simpl; intros [=]; [done|].
  f_equal; auto.
Qed.

Lemma data_start_prepare r sh n argv' bg s :
  slot_wf s r →
  is_running r s = false →
  needs_buffer bg (data_of r s) && negb (alloc_succeeds (oracle (heap s))) = false →
  ∃ res h0,
    th_ctrl_data_start r sh n argv' bg s
    = th_ctrl_data_start_argv r sh n argv' bg
        (update_data r (set_results_str res) (with_heap h0 s)) ∧
    oracle h0 = oracle_at_dup bg s r ∧
    (if bg then ∃ b, res = Ptr b ∧
                     blocks h0 !! b = Some (Chars TH_RESPONSE_BUFFER_SIZE EmptyString)
     else res = NULL) ∧
    argv_in (blocks h0) (data_of r s).
Proof.
  intros (Hres & Hargv & _) Hidle Hbuf.
  assert (Hin : argv_in (blocks (heap s)) (data_of r s)).
  { destruct Hargv as [?|(a & ls & strs & (Ha & Hc & Hown) & _)]; [by left|].
    right. by exists a, ls, strs. }
  unfold is_running in Hidle. unfold oracle_at_dup, needs_buffer in *.
  rewrite data_start_eq. cbv zeta. rewrite Hidle.
  destruct Hres as [Hnull|(b & text & Hb & Hlive)].
  - rewrite Hnull in *. cbn [is_null] in *. destruct bg; cbn [andb negb] in *.
    + destruct (alloc_succeeds (oracle (heap s))); [|done].
      eexists _, _. split; [done|]. split; [done|]. split.
      * eexists. split; [done|]. simpl. apply lookup_insert_eq.
      * eapply argv_in_frame; [done|]. intros l [blk Hl]. simpl.
        apply lookup_insert_ne. intros <-. by rewrite fresh_loc_free in Hl.
    + exists NULL, (heap s). rewrite with_heap_id.
      rewrite (update_data_ext r _ (λ d, d)), update_data_id; [done|].
      rewrite <- Hnull. apply set_results_str_same.
  - rewrite Hb, Hlive in *. cbn [is_null] in *. rewrite andb_false_r.
    assert (Hbne : ∀ l, is_Some (blocks (heap s) !! l) → l ≠ b →
                        delete b (blocks (heap s)) !! l = blocks (heap s) !! l).
    { intros l _ Hne. by apply lookup_delete_ne. }
    assert (Hnot : ∀ a ls strs, owned_at (blocks (heap s)) a ls strs →
                                argv (data_of r s) = Ptr a → b ∉ a :: ls).
    { intros a ls strs Hown Ha.
      destruct Hargv as [?|(a' & ls' & strs' & (Ha' & Hc' & Hown') & Hbls)];
        [congruence|].
      rewrite Ha in Ha'. injection Ha' as <-.
      destruct Hown as (Hcells & _), Hown' as (Hcells' & _).
      rewrite Hcells in Hcells'. injection Hcells' as Heq.
      apply cells_of_inj in Heq as ->.
      apply not_elem_of_cons. split; [intros ->; congruence | by apply Hbls]. }
    destruct bg.
    + rewrite decide_True by done.
      exists (Ptr b). eexists. split.
      { rewrite (update_data_ext r _ (λ d, d)), update_data_id; [done|].
        rewrite data_of_with_heap, <- Hb. apply set_results_str_same. }
      split; [done|]. split.
      * eexists. split; [done|]. simpl. apply lookup_insert_eq.
      * destruct Hin as [?|(a & ls & strs & Ha & Hc & Hown)]; [by left|].
        right. exists a, ls, strs. split; [done|]. split; [done|].
        eapply owned_at_frame; [done|]. intros l Hl. simpl.
        apply lookup_insert_ne. intros <-. by eapply Hnot.
    + eexists _, _. split; [done|]. split; [done|]. split; [done|].
      destruct Hin as [?|(a & ls & strs & Ha & Hc & Hown)]; [by left|].
      right. exists a, ls, strs. split; [done|]. split; [done|].
      eapply owned_at_frame; [done|]. intros l Hl. simpl.
      apply lookup_delete_ne. intros <-. by eapply Hnot.
Qed.

Lemma release_old_set_results res d : release_old (set_results_str res d) = release_old d.
Proof. done. Qed.

(** [th_ctrl_data_start] on a well-formed idle slot, when the result
    buffer (if one is needed) can be allocated: the run returns, the slot
    stays well-formed, and the duplication decides between hand-over and
    the out-of-memory report. *)
Lemma data_start_wf r sh n argv' bg s :
  slot_wf s r →
  is_running r s = false →
  (1 < n)%nat → n = length argv' →
  needs_buffer bg (data_of r s) && negb (alloc_succeeds (oracle (heap s))) = false →
  ∃ s' res,
    th_ctrl_data_start r sh n argv' bg s = Done tt s' ∧
    data_of (other r) s' = data_of (other r) s ∧
    (if bg then ∃ b, res = Ptr b ∧
                     blocks (heap s') !! b = Some (Chars TH_RESPONSE_BUFFER_SIZE EmptyString)
     else res = NULL) ∧
    slot_wf s' r ∧
    if all_succeed n (oracle_at_dup bg s r) then
      ∃ a ls,
        data_of r s' = submitted sh bg (n - 1) (Ptr a) (set_results_str res (data_of r s)) ∧
        owned_at (blocks (heap s')) a ls (drop 1 argv') ∧
        console s' = console s
    else
      data_of r s' = dup_failed (n - 1) (set_results_str res (data_of r s)) ∧
      console s' = console s ++ [no_mem_args].
Proof.
  intros Hwf Hidle Hn Hlen Hbuf.
  destruct (data_start_prepare r sh n argv' bg s Hwf Hidle Hbuf)
    as (res & h0 & -> & Hor & Hres & Hin).
  set (s0 := update_data r (set_results_str res) (with_heap h0 s)).
  assert (Hd0 : data_of r s0 = set_results_str res (data_of r s)).
  { subst s0. by rewrite data_of_update, data_of_with_heap. }
  assert (Hh0 : heap s0 = h0) by (subst s0; by rewrite heap_update_data).
  destruct (release_old_run (data_of r s) h0 Hin) as (h2 & Hrel & Hor2 & Hkeep).
  destruct (start_argv_run r sh n argv' bg s0 h2 Hn Hlen)
    as (s' & Hrun & Hother & Hframe & Hcases).
  { rewrite Hd0. destruct Hwf as (_ & _ & Hnbr). done. }
  { by rewrite Hd0, Hh0, release_old_set_results. }
  exists s', res. split; [done|].
  split. { rewrite Hother. subst s0. by rewrite data_of_update_other, data_of_with_heap. }
  assert (Hbuf' : if bg then ∃ b, res = Ptr b ∧
                      blocks (heap s') !! b = Some (Chars TH_RESPONSE_BUFFER_SIZE EmptyString)
                  else res = NULL).
  { destruct bg; [|done]. destruct Hres as (b & -> & Hb).
    exists b. split; [done|]. by apply Hframe, Hkeep. }
  split; [done|].
  assert (Hcon : console s0 = console s) by (subst s0; by destruct r).
  rewrite Hor2, Hor in Hcases. rewrite Hd0, Hcon in Hcases.
  destruct Hwf as (_ & _ & Hnbr).
  unfold slot_wf, results_at, argv_at.
  destruct (all_succeed n (oracle_at_dup bg s r)).
  - destruct Hcases as (a & ls & Hd & Hown & _ & Hc).
    split; [|by exists a, ls].
    split; [|split].
    + rewrite Hd. destruct bg.
      * right. destruct Hbuf' as (b & -> & Hb). by exists b, EmptyString.
      * left. by rewrite Hbuf'.
    + right. exists a, ls, (drop 1 argv'). split.
      * split; [by rewrite Hd|]. split; [|done].
        rewrite Hd. simpl. rewrite length_drop. lia.
      * rewrite Hd. simpl. intros b ->. destruct bg; [|done].
        destruct Hbuf' as (b' & [= <-] & Hb).
        pose proof (owned_not_buffer _ _ _ _ _ Hown Hb) as [_ ?]%not_elem_of_cons.
        done.
    + by rewrite Hd.
  - destruct Hcases as (Hd & Hc). split; [|done].
    split; [|split].
    + rewrite Hd. destruct bg.
      * right. destruct Hbuf' as (b & -> & Hb). by exists b, EmptyString.
      * left. by rewrite Hbuf'.
    + left. by rewrite Hd.
    + by rewrite Hd.
Qed.

(** ** Controller operations: cancellation, duplication, release *)

Lemma th_ctrl_start_eq sh n argv' bg s :
  th_ctrl_start sh n argv' bg s
  = match argv' !! 1%nat with
    | None => Fault BadAccess
    | Some kind =>
        if strcmp_ne0 kind "iperf3" then Done tt (say [unsupported_line] s)
        else if negb (is_running Th1 s) then
          th_ctrl_data_start Th1 sh n argv' bg (say [starting_line] s)
        else if negb (is_running Th2 s) then
          th_ctrl_data_start Th2 sh n argv' bg (say [starting_line] s)
        else Done tt (say [starting_line; busy_line] s)
    end.
Proof.
  unfold th_ctrl_start, caller_arg.
  destruct (argv' !! 1%nat) as [kind|]; [|done].
  rewrite ret_bind. destruct (strcmp_ne0 kind "iperf3"); [done|].
  repeat mstep. unfold is_running. rewrite !data_of_say.
  destruct (negb (k_work_is_pending (work (data_of Th1 s)))); [done|].
  mstep. rewrite !data_of_say.
  destruct (negb (k_work_is_pending (work (data_of Th2 s)))); [done|].
  by rewrite shell_error_done, say_say.
Qed.

Lemma th_ctrl_init_ready o : th_ctrl_init (boot o) = Done tt (ready o).
Proof. reflexivity. Qed.

(** C9. [th_ctrl_kill] on slot 1 or 2: if the slot is not running it
    prints the "not running" notice and changes nothing else; if the slot
    is running it raises that slot's kill signal with the slot id as the
    value and changes nothing else. *)
Theorem kill_spec sh r s :
  th_ctrl_kill sh (slot_id r) s
  = Done tt (if is_running r s
             then update_data r (raise_kill_signal (slot_id r)) s
             else say [not_running_line r] s)
  ∧ kill_signal (raise_kill_signal (slot_id r) (data_of r s))
    = KPollSignal true (slot_id r)
  ∧ set_kill_signal (kill_signal (data_of r s))
      (raise_kill_signal (slot_id r) (data_of r s)) = data_of r s.
Proof.
  split; [|split; [done | by destruct (data_of r s)]].
  unfold th_ctrl_kill, is_running.
  destruct r; simpl; mstep; by destruct (k_work_is_pending _).
Qed.

(** C4, as the code has it. [th_ctrl_kill_em_all] raises the kill signal
    of exactly the slots that are running, each with its slot id, leaves
    the others as they are, and prints nothing. *)
Theorem kill_em_all_spec s :
  th_ctrl_kill_em_all s
  = Done tt
      (update_data Th2 (if is_running Th2 s then raise_kill_signal 2 else λ d, d)
         (update_data Th1 (if is_running Th1 s then raise_kill_signal 1 else λ d, d) s)).
Proof.
  unfold th_ctrl_kill_em_all, is_running. mstep.
  destruct s as [h d1 d2 c]. simpl.
  destruct (k_work_is_pending (work d1)); repeat mstep; simpl;
    destruct (k_work_is_pending (work d2)); done.
Qed.

(** C4, counterexample. With both slots idle, [th_ctrl_kill_em_all]
    raises no signal at all: the state is left as it was. *)
Lemma kill_em_all_idle_raises_nothing :
  th_ctrl_kill_em_all (ready []) = Done tt (ready []) ∧
  signaled (kill_signal (th_work_data_1 (ready []))) = false ∧
  signaled (kill_signal (th_work_data_2 (ready []))) = false.
Proof. done. Qed.

(** C2, failing run. The array and the copy of the first argument are
    allocated, the copy of the second argument fails: the function
    returns [NULL] after freeing the array only, and the copy of the
    first argument stays allocated. *)
Theorem duplicate_argv_failure_leaks :
  th_ctrl_util_duplicate_argv 2 ["iperf3"; "-s"] (Memory ∅ [true; true; false])
  = Done NULL (Memory {[2%positive := str_block "iperf3"]} []).
Proof. vm_compute. reflexivity. Qed.

(** C3, the defect. Releasing an owned vector of at least one element
    returns, frees the array and the elements from index 1 on, and leaves
    element 0 allocated. *)
Theorem duplicate_argv_free_skips_first m a l0 ls s0 strs :
  owned_at (blocks m) a (l0 :: ls) (s0 :: strs) →
  ∃ m', th_ctrl_util_duplicate_argv_free (length (s0 :: strs)) (Ptr a) m = Done tt m' ∧
        blocks m' !! l0 = Some (str_block s0) ∧
        blocks m' !! a = None ∧
        ∀ l, l ∈ ls → blocks m' !! l = None.
Proof.
  intros Hown. eexists. split; [by apply duplicate_argv_free_spec|].
  split; [by eapply duplicate_argv_free_keeps_first|]. simpl.
  split; [apply lookup_delete_eq|].
  intros l Hl. destruct Hown as (_ & Hnd & _).
  apply NoDup_cons in Hnd as [Hna _].
  rewrite lookup_delete_ne, lookup_free_all, decide_True; [done | done |].
  intros ->. apply Hna. by apply list_elem_of_further.
Qed.

(** C3, instance: the vector of [iperf3 -s]. *)
Lemma duplicate_argv_free_skips_first_witness :
  ∃ m', th_ctrl_util_duplicate_argv_free 2 (Ptr 1%positive)
          (Memory {[1%positive := Ptrs [Some (Ptr 2%positive); Some (Ptr 3%positive)];
                    2%positive := str_block "iperf3";
                    3%positive := str_block "-s"]} []) = Done tt m' ∧
        blocks m' !! 2%positive = Some (str_block "iperf3") ∧
        blocks m' !! 1%positive = None ∧
        ∀ l, l ∈ [3%positive] → blocks m' !! l = None.
Proof.
  apply (duplicate_argv_free_skips_first _ 1%positive 2%positive [3%positive]
           "iperf3" ["-s"]).
  split; [reflexivity|]. split.
  - apply (bool_decide_unpack _). vm_compute. exact I.
  - repeat constructor.
Defined.

(** ** Admission *)

Lemma all_succeed_S k : ∀ o, all_succeed (S k) o = true → all_succeed k o = true.
Proof.
  induction k as [|k IH]; intros o H; [done|].
  cbn [all_succeed] in *. apply andb_true_iff in H as [-> H]. cbn [andb].
  by apply IH.
Qed.

Lemma all_succeed_at_dup n bg s r :
  all_succeed (S n) (oracle (heap s)) = true →
  needs_buffer bg (data_of r s) && negb (alloc_succeeds (oracle (heap s))) = false ∧
  all_succeed n (oracle_at_dup bg s r) = true.
Proof.
  intros H. unfold oracle_at_dup. split.
  - cbn [all_succeed] in H. apply andb_true_iff in H as [-> _].
    by rewrite andb_false_r.
  - destruct (needs_buffer bg (data_of r s)).
    + cbn [all_succeed] in H. by apply andb_true_iff in H as [_ H].
    + by apply all_succeed_S.
Qed.

Lemma slot_wf_say l s r : slot_wf s r → slot_wf (say l s) r.
Proof.
  unfold slot_wf, results_at, argv_at. by rewrite !data_of_say.
Qed.

Lemma load_argv_of_args k : ∀ i q m strs,
  length strs = k →
  (∀ j s, strs !! j = Some s → arg_at (blocks m) q (i + j) s) →
  load_argv k i q m = Done strs m.
Proof.
  induction k as [|k IH]; intros i q m strs Hlen Hargs.
  - by destruct strs.
  - destruct strs as [|s strs]; [done|]. injection Hlen as Hlen.
    destruct (Hargs 0%nat s eq_refl) as (a & cells & l & cap & -> & Ha & Hl & Hs).
    rewrite Nat.add_0_r in Hl. cbn [load_argv].
    rewrite (bind_done _ _ _ _ _ (load_cell_done _ _ _ _ _ Ha Hl)).
    rewrite (bind_done _ _ _ _ _ (load_str_done _ _ _ _ Hs)).
    rewrite (bind_done _ _ _ _ _ (IH (S i) (Ptr a) m strs Hlen
               ltac:(intros j s' Hj; rewrite Nat.add_succ_comm; by apply (Hargs (S j))))).
    done.
Qed.

(** What is stored in a slot depends on the blocks of the heap only. *)
Lemma stored_argv_blocks s s' r :
  data_of r s' = data_of r s →
  blocks (heap s') = blocks (heap s) →
  stored_argv s' r = stored_argv s r.
Proof.
  intros Hd Hb. unfold stored_argv. rewrite Hd.
  destruct (load_argv _ _ _ (heap s)) as [strs m|f] eqn:Hs.
  - apply load_argv_inv in Hs as (_ & Hlen & Hargs).
    rewrite <- Hb in Hargs. by rewrite (load_argv_of_args _ _ _ _ _ Hlen Hargs).
  - destruct (load_argv _ _ _ (heap s')) as [strs m|f'] eqn:Hs'; [|done].
    apply load_argv_inv in Hs' as (_ & Hlen & Hargs).
    rewrite Hb in Hargs. by rewrite (load_argv_of_args _ _ _ _ _ Hlen Hargs) in Hs.
Qed.

Lemma stored_results_blocks s s' r :
  data_of r s' = data_of r s →
  blocks (heap s') = blocks (heap s) →
  stored_results s' r = stored_results s r.
Proof. intros Hd Hb. unfold stored_results. by rewrite Hd, Hb. Qed.

Lemma stored_argv_owned s r a ls strs :
  argv_at s r a ls strs → stored_argv s r = Some strs.
Proof.
  intros (Ha & Hc & Hown). unfold stored_argv. rewrite Ha, Hc.
  pose proof (owned_at_length _ _ _ _ Hown) as Hlen.
  destruct Hown as (Hcells & _ & Hstr).
  rewrite (load_argv_owned a ls strs (heap s) (length strs) 0 Hcells Hstr)
    by (right; lia).
  by rewrite drop_0, take_ge.
Qed.

Lemma data_start_other r sh n argv' bg s s' :
  n = length argv' →
  th_ctrl_data_start r sh n argv' bg s = Done tt s' →
  data_of (other r) s' = data_of (other r) s.
Proof.
  intros Hlen Hrun.
  apply data_start_inv in Hrun as (_ & [(_ & _ & _ & ->)|(res & h & Hrun)]).
  { by rewrite data_of_say, data_of_with_heap. }
  apply start_argv_inv in Hrun as (_ & h2 & p & h3 & _ & _ & ->); [|lia].
  destruct (is_null p);
    by rewrite ?data_of_say, !data_of_update_other, !data_of_with_heap,
         data_of_update_other, data_of_with_heap.
Qed.

Lemma th_ref_cases (r r' : th_ref) : r = r' ∨ r = other r'.
Proof. destruct r, r'; auto. Qed.

(** A controller start after which slot [r], idle before, is running:
    the job kind was accepted, and the slot has taken an owned copy of
    the arguments from index 1 on. *)
Lemma start_started sh n argv' bg s s' r :
  n = length argv' →
  th_ctrl_start sh n argv' bg s = Done tt s' →
  is_running r s = false → is_running r s' = true →
  argv' !! 1%nat = Some "iperf3" ∧ (1 < n)%nat ∧
  ∃ a ls res,
    data_of r s' = submitted sh bg (n - 1) (Ptr a) (set_results_str res (data_of r s)) ∧
    owned_at (blocks (heap s')) a ls (drop 1 argv').
Proof.
  intros Hlen Hrun Hidle Hrunning. rewrite th_ctrl_start_eq in Hrun.
  destruct (argv' !! 1%nat) as [kind|]; [|done].
  unfold strcmp_ne0 in Hrun. destruct (String.eqb kind "iperf3") eqn:Hk.
  2:{ injection Hrun as <-. unfold is_running in *. rewrite data_of_say in Hrunning.
      congruence. }
  cbn [negb] in Hrun. apply String.eqb_eq in Hk as ->. split; [done|].
  assert (Hon : ∀ r0, th_ctrl_data_start r0 sh n argv' bg (say [starting_line] s)
                      = Done tt s' → r0 = r).
  { intros r0 H0. destruct (th_ref_cases r r0) as [-> | ->]; [done|].
    apply data_start_other in H0; [|done].
    unfold is_running in *. rewrite H0, data_of_say in Hrunning. congruence. }
  assert (Hfin : th_ctrl_data_start r sh n argv' bg (say [starting_line] s) = Done tt s').
  { destruct (negb (is_running Th1 s)); [by rewrite <- (Hon Th1 Hrun)|].
    destruct (negb (is_running Th2 s)); [by rewrite <- (Hon Th2 Hrun)|].
    injection Hrun as <-. unfold is_running in *. rewrite data_of_say in Hrunning.
    congruence. }
  destruct (data_start_started _ _ _ _ _ _ _ Hlen Hfin Hrunning)
    as (Hn & a & ls & res & Hd & Hown & _).
  split; [done|]. exists a, ls, res. by rewrite data_of_say in Hd.
Qed.

(** ** Claims about the start *)

(** The start of a supported job on slot [r], once the scan has settled
    on it: the other slot is not touched, and on a well-formed slot with
    enough memory the job is handed over. *)
Lemma start_on_slot sh n argv' bg s r :
  n = length argv' → (1 < n)%nat →
  is_running r s = false →
  (∀ s', th_ctrl_data_start r sh n argv' bg (say [starting_line] s) = Done tt s' →
         data_of (other r) s' = data_of (other r) s) ∧
  (slot_wf s r → all_succeed (S n) (oracle (heap s)) = true →
   ∃ s', th_ctrl_data_start r sh n argv' bg (say [starting_line] s) = Done tt s' ∧
         is_running r s' = true ∧
         stored_argv s' r = Some (drop 1 argv')).
Proof.
  intros Hlen Hn Hidle. split.
  - intros s' Hrun. apply data_start_other in Hrun; [|done].
    by rewrite data_of_say in Hrun.
  - intros Hwf Hmem.
    destruct (all_succeed_at_dup n bg (say [starting_line] s) r Hmem) as [Hbuf Hdup].
    destruct (data_start_wf r sh n argv' bg (say [starting_line] s)
                (slot_wf_say _ _ _ Hwf) ltac:(by unfold is_running; rewrite data_of_say)
                Hn Hlen Hbuf)
      as (s' & res & Hrun & _ & _ & _ & Hcases).
    rewrite Hdup in Hcases. destruct Hcases as (a & ls & Hd & Hown & _).
    exists s'. split; [done|]. split.
    + unfold is_running. by rewrite Hd.
    + apply (stored_argv_owned _ _ a ls). split; [by rewrite Hd|].
      split; [|done]. rewrite Hd. simpl. rewrite length_drop. lia.
Qed.

(** C5. For a supported job kind, [th_ctrl_start] scans the slots in the
    order 1, 2.  If slot 1 is idle the start is made on slot 1 (slot 2 is
    not touched; on a well-formed slot with enough memory the job is
    handed over and slot 1 runs); otherwise, if slot 2 is idle, the same
    holds for slot 2; if both run, the "all busy" error is shown and only
    the console changes. *)
Theorem start_admission sh n argv' bg s :
  argv' !! 1%nat = Some "iperf3" → n = length argv' →
  (is_running Th1 s = false →
     th_ctrl_start sh n argv' bg s
     = th_ctrl_data_start Th1 sh n argv' bg (say [starting_line] s) ∧
     (∀ s', th_ctrl_start sh n argv' bg s = Done tt s' →
            th_work_data_2 s' = th_work_data_2 s) ∧
     (slot_wf s Th1 → all_succeed (S n) (oracle (heap s)) = true →
      ∃ s', th_ctrl_start sh n argv' bg s = Done tt s' ∧
            is_running Th1 s' = true ∧
            stored_argv s' Th1 = Some (drop 1 argv'))) ∧
  (is_running Th1 s = true → is_running Th2 s = false →
     th_ctrl_start sh n argv' bg s
     = th_ctrl_data_start Th2 sh n argv' bg (say [starting_line] s) ∧
     (∀ s', th_ctrl_start sh n argv' bg s = Done tt s' →
            th_work_data_1 s' = th_work_data_1 s) ∧
     (slot_wf s Th2 → all_succeed (S n) (oracle (heap s)) = true →
      ∃ s', th_ctrl_start sh n argv' bg s = Done tt s' ∧
            is_running Th2 s' = true ∧
            stored_argv s' Th2 = Some (drop 1 argv'))) ∧
  (is_running Th1 s = true → is_running Th2 s = true →
     th_ctrl_start sh n argv' bg s = Done tt (say [starting_line; busy_line] s)).
Proof.
  intros Hkind Hlen.
  assert (Hn : (1 < n)%nat).
  { apply lookup_lt_Some in Hkind. lia. }
  rewrite th_ctrl_start_eq, Hkind. cbn [strcmp_ne0 String.eqb negb].
  change (negb ("iperf3" =? "iperf3")%string) with false. cbv iota.
  split; [|split].
  - intros H1. rewrite H1. cbn [negb]. split; [done|].
    destruct (start_on_slot sh n argv' bg s Th1 Hlen Hn H1) as [Ho Hs]. done.
  - intros H1 H2. rewrite H1, H2. cbn [negb]. split; [done|].
    destruct (start_on_slot sh n argv' bg s Th2 Hlen Hn H2) as [Ho Hs]. done.
  - intros H1 H2. by rewrite H1, H2.
Qed.

(** C10. A list shorter than 2 makes [th_ctrl_start] read past the
    caller's vector (undefined behaviour).  After a start that set the
    idle slot [r] running, the job kind was read at index 1, which is the
    first element of what is stored; the slot records [argc = n - 1] and
    owns [n - 1] freshly allocated strings, the caller's elements 1 to
    [n - 1] in order (element 0 is not stored); and that vector is what
    later reads of [argc] and [argv] yield. *)
Theorem start_stores_stripped_vector sh n argv' bg s :
  n = length argv' →
  ((length argv' < 2)%nat → th_ctrl_start sh n argv' bg s = Fault BadAccess) ∧
  ∀ s' r,
    th_ctrl_start sh n argv' bg s = Done tt s' →
    is_running r s = false → is_running r s' = true →
    (2 ≤ n)%nat ∧
    argv' !! 1%nat = Some "iperf3" ∧
    head (drop 1 argv') = Some "iperf3" ∧
    argc (data_of r s') = (n - 1)%nat ∧
    length (drop 1 argv') = (n - 1)%nat ∧
    (∃ a ls, argv_at s' r a ls (drop 1 argv')) ∧
    stored_argv s' r = Some (drop 1 argv').
Proof.
  intros Hlen. split.
  - intros Hshort. rewrite th_ctrl_start_eq.
    by rewrite (lookup_ge_None_2 argv' 1) by lia.
  - intros s' r Hrun Hidle Hrunning.
    destruct (start_started _ _ _ _ _ _ _ Hlen Hrun Hidle Hrunning)
      as (Hkind & Hn & a & ls & res & Hd & Hown).
    assert (Hat : argv_at s' r a ls (drop 1 argv')).
    { split; [by rewrite Hd|]. split; [|done].
      rewrite Hd. simpl. rewrite length_drop. lia. }
    split; [lia|]. split; [done|]. split.
    { by rewrite head_lookup, lookup_drop. }
    split; [by rewrite Hd|]. split; [rewrite length_drop; lia|].
    split; [by exists a, ls | by eapply stored_argv_owned].
Qed.

(** C8, as the code has it. After a start that set the idle slot [r]
    running, in every later state in which the slot still holds the
    vector and the command length of that start and has non-empty
    results: if the command length recorded from the shell is at least
    the length of the line built below (and below 65535) and the print
    buffer can be allocated, the status report shows the caller's
    arguments from index 1 on, each followed by one space.  Element 0 is
    not part of the line and the line ends in a space. *)
Theorem status_command_line sh sh' n argv' bg s s1 s2 r :
  n = length argv' →
  th_ctrl_start sh n argv' bg s = Done tt s1 →
  is_running r s = false → is_running r s1 = true →
  stored_argv s2 r = stored_argv s1 r →
  cmd_len (data_of r s2) = cmd_len (data_of r s1) →
  (∃ text, stored_results s2 r = Some text ∧ text ≠ EmptyString) →
  alloc_succeeds (oracle (heap s2)) = true →
  0 ≤ cmd_buff_len sh < 65535 →
  strlen_of (command_line (drop 1 argv')) ≤ cmd_buff_len sh →
  th_ctrl_data_status_print sh' r s2
  = Done tt
      (say (report_lines (data_of r s2)
              (Available (is_running r s2) (command_line (drop 1 argv'))))
         (with_heap (Memory (blocks (heap s2)) (tail (oracle (heap s2)))) s2)).
Proof.
  intros Hlen Hrun Hidle Hrunning Hsame Hcl (text & Htext & Hne) Hor Hrange Hfit.
  destruct (start_started _ _ _ _ _ _ _ Hlen Hrun Hidle Hrunning)
    as (_ & Hn & a & ls & res & Hd & Hown).
  assert (Hargv : stored_argv s1 r = Some (drop 1 argv')).
  { apply (stored_argv_owned _ _ a ls). split; [by rewrite Hd|].
    split; [|done]. rewrite Hd. simpl. rewrite length_drop. lia. }
  assert (Hcmd : cmd_len (data_of r s2) = cmd_buff_len sh) by (by rewrite Hcl, Hd).
  rewrite <- Hsame in Hargv.
  rewrite (status_print_results sh' r s2 text (drop 1 argv') Htext Hne Hargv Hor)
    by (rewrite Hcmd; done).
  unfold report_lines, running_line, is_running.
  by destruct (k_work_is_pending (work (data_of r s2))).
Qed.

(** ** Claims about reports and failed starts *)

Lemma no_results_inv s r :
  no_results s r →
  results_str (data_of r s) = NULL ∨
  ∃ b cap, results_str (data_of r s) = Ptr b ∧
           blocks (heap s) !! b = Some (Chars cap EmptyString).
Proof. intros [?|H%stored_results_inv]; auto. Qed.

(** C6, the defect. The report of a finished job with results prints the
    text, frees the result buffer, the array of the vector and its
    elements from index 1 on, and clears the three fields, so that
    reporting again finds no results; the first element of the vector
    stays allocated. *)
Theorem result_print_leaks_first_argument sh r s b cap text a l0 ls s0 strs :
  results_str (data_of r s) = Ptr b →
  blocks (heap s) !! b = Some (Chars cap text) →
  text ≠ EmptyString →
  is_running r s = false →
  argv_at s r a (l0 :: ls) (s0 :: strs) →
  b ∉ l0 :: ls →
  ∃ s', th_ctrl_data_result_print sh r s = Done tt s' ∧
        console s' = console s ++ results_lines (data_of r s) text
                               ++ [deleted_line (data_of r s)] ∧
        data_of r s' = consumed (data_of r s) ∧
        blocks (heap s') !! b = None ∧
        blocks (heap s') !! a = None ∧
        (∀ l, l ∈ ls → blocks (heap s') !! l = None) ∧
        blocks (heap s') !! l0 = Some (str_block s0) ∧
        th_ctrl_data_result_print sh r s'
        = Done tt (say [no_results_line (data_of r s')] s').
Proof.
  intros Hres Hb Htext Hidle Hat Hbls.
  rewrite (result_print_finished sh r s b cap text a (l0 :: ls) (s0 :: strs)
             Hres Hb Htext Hidle Hat Hbls).
  destruct Hat as (Ha & Hc & Hown).
  assert (Hba : b ≠ a).
  { intros ->. destruct Hown as (Hcells & _). congruence. }
  assert (Hown1 : owned_at (delete b (blocks (heap s))) a (l0 :: ls) (s0 :: strs)).
  { eapply owned_at_frame; [done|]. intros l Hl.
    apply lookup_delete_ne. intros ->.
    apply elem_of_cons in Hl as [?|?]; done. }
  pose proof Hown as (_ & Hnd & _).
  apply NoDup_cons in Hnd as [Hna Hnd]. apply NoDup_cons in Hnd as [Hl0 _].
  apply not_elem_of_cons in Hbls as [Hbl0 Hbls].
  set (s' := say _ _).
  assert (Hd : data_of r s' = consumed (data_of r s)).
  { subst s'. by rewrite data_of_say, data_of_update, data_of_with_heap. }
  assert (Hheap : blocks (heap s')
                  = delete a (free_all ls (delete b (blocks (heap s)))))
    by (subst s'; by destruct r).
  exists s'. split; [done|]. split; [subst s'; by destruct r, s|].
  split; [done|]. rewrite Hheap.
  split.
  { rewrite lookup_delete_ne, lookup_free_all, decide_False by done.
    apply lookup_delete_eq. }
  split; [apply lookup_delete_eq|].
  split.
  { intros l Hl. rewrite lookup_delete_ne, lookup_free_all, decide_True; [done..|].
    intros ->. apply Hna. by apply list_elem_of_further. }
  split; [by apply (duplicate_argv_free_keeps_first _ a l0 ls s0 strs)|].
  apply result_print_none. left. by rewrite Hd.
Qed.

(** C1, as the code has it. On a well-formed idle slot and a caller
    vector of length [n > 1]:
    - if the result buffer has to be allocated and that fails, the start
      shows the error and leaves the slot record and the heap blocks as
      they were;
    - otherwise, if one of the allocations of the duplication fails, the
      start shows the error and the slot stays idle, keeping its mode,
      shell, command length, number and kill signal, and the other slot
      is untouched; but the slot record has [argv = NULL] and
      [argc = n - 1] (the vector of an earlier run went through the
      release before), and the result buffer is as this attempt prepared
      it: for a background start an allocated, zero-filled buffer (newly
      allocated if there was none), for a foreground start none. *)
Theorem start_out_of_memory r sh n argv' bg s :
  slot_wf s r → is_running r s = false →
  (1 < n)%nat → n = length argv' →
  (needs_buffer bg (data_of r s) = true →
   alloc_succeeds (oracle (heap s)) = false →
   th_ctrl_data_start r sh n argv' bg s
   = Done tt (say [no_mem_response]
                (with_heap (Memory (blocks (heap s)) (tail (oracle (heap s)))) s))) ∧
  (needs_buffer bg (data_of r s) && negb (alloc_succeeds (oracle (heap s))) = false →
   all_succeed n (oracle_at_dup bg s r) = false →
   ∃ s' res,
     th_ctrl_data_start r sh n argv' bg s = Done tt s' ∧
     console s' = console s ++ [no_mem_args] ∧
     is_running r s' = false ∧
     data_of r s' = dup_failed (n - 1) (set_results_str res (data_of r s)) ∧
     data_of (other r) s' = data_of (other r) s ∧
     (if bg then ∃ b, res = Ptr b ∧
                      blocks (heap s') !! b
                      = Some (Chars TH_RESPONSE_BUFFER_SIZE EmptyString)
      else res = NULL) ∧
     slot_wf s' r).
Proof.
  intros Hwf Hidle Hn Hlen. split.
  - intros Hbuf Hor. by apply data_start_no_buffer.
  - intros Hbuf Hdup.
    destruct (data_start_wf r sh n argv' bg s Hwf Hidle Hn Hlen Hbuf)
      as (s' & res & Hrun & Hother & Hres & Hwf' & Hcases).
    rewrite Hdup in Hcases. destruct Hcases as [Hd Hc].
    exists s', res. split; [done|]. split; [done|].
    split; [unfold is_running in *; by rewrite Hd|]. auto.
Qed.

(** ** Concrete runs against the claims as stated *)

(** C1, counterexample. A background start on the initial state whose
    result buffer is allocated and whose array allocation then fails:
    the error is shown and the slot stays idle, but the slot record has
    changed ([results_str], [argc]) and the buffer allocated in this
    attempt is still allocated. *)
Lemma start_failure_keeps_partial_state :
  ∃ s', th_ctrl_data_start Th1 sh20 3 cmdline true (ready [true; false]) = Done tt s' ∧
        console s' = [no_mem_args] ∧
        is_running Th1 s' = false ∧
        results_str (th_work_data_1 (ready [true; false])) = NULL ∧
        results_str (th_work_data_1 s') = Ptr 1%positive ∧
        blocks (heap s') !! 1%positive = Some (Chars TH_RESPONSE_BUFFER_SIZE EmptyString) ∧
        argc (th_work_data_1 (ready [true; false])) = 0%nat ∧
        argc (th_work_data_1 s') = 2%nat.
Proof. eexists. vm_compute. repeat split. Qed.

(** C7, counterexample. After a foreground start slot 1 is running and
    has no results; the status report shows "Nothing" for it and no
    running flag. *)
Lemma running_slot_reported_as_nothing :
  let s := after (th_ctrl_start sh20 3 ["startfg"; "iperf3"; "-s"] false) (ready []) in
  is_running Th1 s = true ∧
  th_ctrl_status_print sh20 s
  = Done tt (say [Msg "thread #1 status:"; Msg "  Nothing";
                  Msg "thread #2 status:"; Msg "  Nothing"] s).
Proof. vm_compute. split; reflexivity. Qed.

(** C8, counterexample. After the background start of
    [startbg iperf3 -s] and the end of the job, the status shows
    [iperf3 -s ] (element 0 is missing, a space is appended), which is
    neither the caller's list nor its tail joined by spaces; with a
    recorded command length of 7 it shows [iperf3 ] only. *)
Lemma command_line_differs_from_arguments :
  is_running Th1 bg_started = true ∧
  "iperf3 -s "%string ≠ String.concat " " cmdline ∧
  "iperf3 -s "%string ≠ String.concat " " (drop 1 cmdline) ∧
  th_ctrl_data_status_print sh20 Th1 bg_finished
  = Done tt (say [Msg "thread #1 status:"; Msg "  Results available";
                  Msg "  thread is not running";
                  Msg "  command: iperf3 -s "] bg_finished) ∧
  (let s1 := after (th_ctrl_start (Shell 7) 3 cmdline true) (ready []) in
   let s2 := after (work_q_run job_done Th1) s1 in
   is_running Th1 s1 = true ∧
   th_ctrl_data_status_print sh20 Th1 s2
   = Done tt (say [Msg "thread #1 status:"; Msg "  Results available";
                   Msg "  thread is not running";
                   Msg "  command: iperf3 "] s2)).
Proof. vm_compute. repeat split; discriminate. Qed.

(** The scenario of the design: the example job runs in the background
    on slot 1 and finishes; the first result report shows its text and
    discards it, the second finds no results. *)
Example scenario_results :
  console (after (th_ctrl_result_print sh20 1;; th_ctrl_result_print sh20 1) bg_finished)
  = console bg_finished
    ++ [Msg "thread #1 results:";
        Msg "-------------------------------------";
        Msg "done";
        Msg "-------------------------------------";
        Msg "Note: th results #1 were deleted.";
        Msg "No results for thread #1"].
Proof. vm_compute. reflexivity. Qed.

(** ** Instances of the theorems *)

(** The initial state is well-formed. *)
Lemma ready_wf o r : slot_wf (ready o) r.
Proof. destruct r; (split; [by left|]; split; [by left | done]). Qed.

Lemma bg_started_wf_2 : slot_wf bg_started Th2.
Proof.
  split; [left; vm_compute; reflexivity|].
  split; [left|]; vm_compute; reflexivity.
Qed.

(** C1, instance: a background start on the initial state whose buffer
    allocation fails, and one whose array allocation fails. *)
Lemma start_out_of_memory_witness :
  th_ctrl_data_start Th1 sh20 3 cmdline true (ready [false])
  = Done tt (say [no_mem_response] (ready [])) ∧
  ∃ s' res,
    th_ctrl_data_start Th1 sh20 3 cmdline true (ready [true; false]) = Done tt s' ∧
    console s' = console (ready [true; false]) ++ [no_mem_args] ∧
    is_running Th1 s' = false ∧
    data_of Th1 s' = dup_failed (3 - 1) (set_results_str res (data_of Th1 (ready [true; false]))) ∧
    data_of (other Th1) s' = data_of (other Th1) (ready [true; false]) ∧
    (if true then ∃ b, res = Ptr b ∧
                       blocks (heap s') !! b
                       = Some (Chars TH_RESPONSE_BUFFER_SIZE EmptyString)
     else res = NULL) ∧
    slot_wf s' Th1.
Proof.
  split.
  - apply (proj1 (start_out_of_memory Th1 sh20 3 cmdline true (ready [false])
                    (ready_wf _ _) eq_refl ltac:(lia) eq_refl)); vm_compute; reflexivity.
  - apply (proj2 (start_out_of_memory Th1 sh20 3 cmdline true (ready [true; false])
                    (ready_wf _ _) eq_refl ltac:(lia) eq_refl)); vm_compute; reflexivity.
Defined.

(** C5, instance: three background starts in a row on the initial state
    go to slot 1, to slot 2, and are turned down. *)
Lemma start_admission_witness :
  (∃ s', th_ctrl_start sh20 3 cmdline true (ready []) = Done tt s' ∧
         is_running Th1 s' = true ∧
         stored_argv s' Th1 = Some (drop 1 cmdline)) ∧
  (∃ s', th_ctrl_start sh20 3 cmdline true bg_started = Done tt s' ∧
         is_running Th2 s' = true ∧
         stored_argv s' Th2 = Some (drop 1 cmdline)) ∧
  th_ctrl_start sh20 3 cmdline true (after (th_ctrl_start sh20 3 cmdline true) bg_started)
  = Done tt (say [starting_line; busy_line]
               (after (th_ctrl_start sh20 3 cmdline true) bg_started)).
Proof.
  split; [|split].
  - apply (proj1 (start_admission sh20 3 cmdline true (ready []) eq_refl eq_refl));
      [reflexivity | apply ready_wf | reflexivity].
  - apply (proj1 (proj2 (start_admission sh20 3 cmdline true bg_started eq_refl eq_refl)));
      [vm_compute; reflexivity | vm_compute; reflexivity | apply bg_started_wf_2
      | vm_compute; reflexivity].
  - apply (proj2 (proj2 (start_admission sh20 3 cmdline true
                           (after (th_ctrl_start sh20 3 cmdline true) bg_started)
                           eq_refl eq_refl))); vm_compute; reflexivity.
Defined.

(** C10, instance: a vector of one element, and the background start of
    the example command line. *)
Lemma start_stores_stripped_vector_witness :
  th_ctrl_start sh20 1 ["startbg"] true (ready []) = Fault BadAccess ∧
  ((2 ≤ 3)%nat ∧
   cmdline !! 1%nat = Some "iperf3" ∧
   head (drop 1 cmdline) = Some "iperf3" ∧
   argc (data_of Th1 bg_started) = (3 - 1)%nat ∧
   length (drop 1 cmdline) = (3 - 1)%nat ∧
   (∃ a ls, argv_at bg_started Th1 a ls (drop 1 cmdline)) ∧
   stored_argv bg_started Th1 = Some (drop 1 cmdline)).
Proof.
  split.
  - apply (proj1 (start_stores_stripped_vector sh20 1 ["startbg"] true (ready []) eq_refl)).
    simpl. lia.
  - apply (proj2 (start_stores_stripped_vector sh20 3 cmdline true (ready []) eq_refl)
             bg_started Th1); vm_compute; reflexivity.
Defined.

(** C8, instance: the status of slot 1 after the example job has
    finished. *)
Lemma status_command_line_witness :
  th_ctrl_data_status_print sh20 Th1 bg_finished
  = Done tt
      (say (report_lines (data_of Th1 bg_finished)
              (Available (is_running Th1 bg_finished) (command_line (drop 1 cmdline))))
         (with_heap (Memory (blocks (heap bg_finished)) (tail (oracle (heap bg_finished))))
            bg_finished)).
Proof.
  apply (status_command_line sh20 sh20 3 cmdline true (ready []) bg_started bg_finished Th1);
    try (vm_compute; reflexivity).
  - exists "done". split; [vm_compute; reflexivity | discriminate].
  - simpl. lia.
  - vm_compute. discriminate.
Defined.

(** C6, instance: the result report of slot 1 after the example job has
    finished. *)
Lemma result_print_leaks_first_argument_witness :
  ∃ s', th_ctrl_data_result_print sh20 Th1 bg_finished = Done tt s' ∧
        console s' = console bg_finished
                     ++ results_lines (data_of Th1 bg_finished) "done"
                     ++ [deleted_line (data_of Th1 bg_finished)] ∧
        data_of Th1 s' = consumed (data_of Th1 bg_finished) ∧
        blocks (heap s') !! 1%positive = None ∧
        blocks (heap s') !! 2%positive = None ∧
        (∀ l, l ∈ [4%positive] → blocks (heap s') !! l = None) ∧
        blocks (heap s') !! 3%positive = Some (str_block "iperf3") ∧
        th_ctrl_data_result_print sh20 Th1 s'
        = Done tt (say [no_results_line (data_of Th1 s')] s').
Proof.
  apply (result_print_leaks_first_argument sh20 Th1 bg_finished 1%positive
           TH_RESPONSE_BUFFER_SIZE "done" 2%positive 3%positive [4%positive]
           "iperf3" ["-s"]); try (vm_compute; reflexivity).
  - discriminate.
  - split; [vm_compute; reflexivity|]. split; [vm_compute; reflexivity|].
    split; [vm_compute; reflexivity|]. split.
    + apply (bool_decide_unpack _). vm_compute. exact I.
    + repeat constructor.
  - apply (bool_decide_unpack _). vm_compute. exact I.
Defined.

(** * Further properties

    ** Unsupported jobs and cancellation *)

(** X1. A job kind other than [iperf3] is turned down before anything
    else happens: the error is shown, and neither a slot nor the heap is
    touched, whatever the state of the slots. *)
Theorem start_unsupported sh n argv' bg s kind :
  argv' !! 1%nat = Some kind → kind ≠ "iperf3"%string →
  th_ctrl_start sh n argv' bg s = Done tt (say [unsupported_line] s).
Proof.
  intros Hk Hne. rewrite th_ctrl_start_eq, Hk. unfold strcmp_ne0.
  by rewrite (proj2 (String.eqb_neq kind "iperf3") Hne).
Qed.

(** X1, instance. *)
Lemma start_unsupported_witness :
  th_ctrl_start sh20 3 ["startbg"; "ping"; "-c"] true bg_started
  = Done tt (say [unsupported_line] bg_started).
Proof.
  apply (start_unsupported sh20 3 ["startbg"; "ping"; "-c"] true bg_started "ping").
  - reflexivity.
  - discriminate.
Defined.

Lemma kill_eq sh r s :
  th_ctrl_kill sh (slot_id r) s
  = Done tt (if is_running r s
             then update_data r (raise_kill_signal (slot_id r)) s
             else say [not_running_line r] s).
Proof.
  unfold th_ctrl_kill, is_running.
  destruct r; simpl; mstep; by destruct (k_work_is_pending _).
Qed.

Lemma kill_em_all_eq s :
  th_ctrl_kill_em_all s
  = Done tt
      (update_data Th2 (if is_running Th2 s then raise_kill_signal 2 else λ d, d)
         (update_data Th1 (if is_running Th1 s then raise_kill_signal 1 else λ d, d) s)).
Proof.
  unfold th_ctrl_kill_em_all, is_running. mstep.
  destruct s as [h d1 d2 c]. simpl.
  destruct (k_work_is_pending (work d1)); repeat mstep; simpl;
    destruct (k_work_is_pending (work d2)); done.
Qed.

(** X2. Killing a running slot twice is the same as killing it once, and
    a kill never ends the run: the slot is still running afterwards. *)
Theorem kill_twice sh r s :
  is_running r s = true →
  (th_ctrl_kill sh (slot_id r);; th_ctrl_kill sh (slot_id r)) s
  = th_ctrl_kill sh (slot_id r) s ∧
  is_running r (after (th_ctrl_kill sh (slot_id r)) s) = true.
Proof.
  intros Hrun. unfold after. rewrite (bind_done _ _ _ _ _ (kill_eq sh r s)).
  rewrite !kill_eq, Hrun.
  assert (Hrun' : is_running r (update_data r (raise_kill_signal (slot_id r)) s) = true).
  { unfold is_running in *. by rewrite data_of_update. }
  rewrite Hrun'. split; [|done]. f_equal. by destruct r, s.
Qed.

(** X2, instance. *)
Lemma kill_twice_witness :
  (th_ctrl_kill sh20 (slot_id Th1);; th_ctrl_kill sh20 (slot_id Th1)) bg_started
  = th_ctrl_kill sh20 (slot_id Th1) bg_started ∧
  is_running Th1 (after (th_ctrl_kill sh20 (slot_id Th1)) bg_started) = true.
Proof. apply (kill_twice sh20 Th1 bg_started). vm_compute. reflexivity. Defined.

(** X3. [th_ctrl_kill_em_all] leaves the slots and the heap exactly as
    [th_ctrl_kill] on slot 1 followed by [th_ctrl_kill] on slot 2 does;
    the only difference is that the two targeted kills print a notice
    for each slot that is not running. *)
Theorem kill_em_all_as_two_kills sh s :
  (th_ctrl_kill sh 1;; th_ctrl_kill sh 2) s
  = Done tt (say (idle_notices s) (after th_ctrl_kill_em_all s)).
Proof.
  unfold after, idle_notices. rewrite kill_em_all_eq.
  rewrite (bind_done _ _ _ _ _ (kill_eq sh Th1 s)).
  rewrite (kill_eq sh Th2). unfold is_running.
  destruct s as [h d1 d2 c]. simpl.
  destruct (k_work_is_pending (work d1)); simpl;
    destruct (k_work_is_pending (work d2));
    simpl; unfold say; simpl; rewrite ?app_nil_r, <- ?app_assoc; done.
Qed.

(** X4. A slot number other than 1 and 2 is ignored without a word:
    [th_ctrl_kill] and [th_ctrl_result_print] return with the state, the
    console included, as it was. *)
Theorem unknown_slot_ignored sh nbr s :
  nbr ≠ 1 → nbr ≠ 2 →
  th_ctrl_kill sh nbr s = Done tt s ∧ th_ctrl_result_print sh nbr s = Done tt s.
Proof.
  intros H1 H2. unfold th_ctrl_kill, th_ctrl_result_print.
  by rewrite (proj2 (Z.eqb_neq nbr 1) H1), (proj2 (Z.eqb_neq nbr 2) H2).
Qed.

(** X4, instance. *)
Lemma unknown_slot_ignored_witness :
  th_ctrl_kill sh20 3 bg_finished = Done tt bg_finished ∧
  th_ctrl_result_print sh20 3 bg_finished = Done tt bg_finished.
Proof. apply (unknown_slot_ignored sh20 3 bg_finished); lia. Defined.

(** ** Result reports, duplication and release *)

Lemma result_print_route sh r :
  th_ctrl_result_print sh (slot_id r) = th_ctrl_data_result_print sh r.
Proof. by destruct r. Qed.

(** X5. A result report on a slot whose job is still running shows the
    text written so far and nothing else happens: no block is freed and
    no field of either slot changes, so the results stay available. *)
Theorem report_while_running sh r s text :
  stored_results s r = Some text → text ≠ EmptyString →
  is_running r s = true →
  th_ctrl_result_print sh (slot_id r) s
  = Done tt (say (results_lines (data_of r s) text) s).
Proof.
  intros (b & cap & Hres & Hb)%stored_results_inv Hne Hrun.
  rewrite result_print_route. by eapply result_print_running.
Qed.

(** X5, instance. *)
Lemma report_while_running_witness :
  th_ctrl_result_print sh20 (slot_id Th1) bg_writing
  = Done tt (say (results_lines (data_of Th1 bg_writing) "half") bg_writing).
Proof.
  apply (report_while_running sh20 Th1 bg_writing "half").
  - vm_compute. reflexivity.
  - discriminate.
  - vm_compute. reflexivity.
Defined.

(** X6. A result report on a slot without results (no buffer, as after a
    foreground start, or an empty buffer) only prints the "No results"
    notice: nothing is freed, so the vector of a foreground job is not
    released by reports. *)
Theorem report_without_results sh r s :
  no_results s r →
  th_ctrl_result_print sh (slot_id r) s
  = Done tt (say [no_results_line (data_of r s)] s).
Proof.
  intros H%no_results_inv. rewrite result_print_route. by apply result_print_none.
Qed.

(** X6, instance: slot 1 right after a background start. *)
Lemma report_without_results_witness :
  th_ctrl_result_print sh20 (slot_id Th1) bg_started
  = Done tt (say [no_results_line (data_of Th1 bg_started)] bg_started).
Proof.
  apply (report_without_results sh20 Th1 bg_started).
  right. vm_compute. reflexivity.
Defined.

Lemma all_succeed_false_iff_null n argv m p m' :
  (n ≤ length argv)%nat →
  th_ctrl_util_duplicate_argv n argv m = Done p m' →
  p = NULL ↔ all_succeed (S n) (oracle m) = false.
Proof.
  intros Hn Hrun.
  destruct (duplicate_argv_spec n argv m Hn) as (p' & m'' & Hrun' & _ & Hres).
  rewrite Hrun in Hrun'. injection Hrun' as <- <-.
  destruct (all_succeed (S n) (oracle m)).
  - destruct Hres as (a & ls & -> & _). split; discriminate.
  - by subst p.
Qed.

(** X7. With enough memory, [th_ctrl_util_duplicate_argv] returns an
    owned vector: a new array pointing, in order, to [n] pairwise
    distinct new blocks holding copies of the caller's [n] strings.  None
    of these blocks was allocated before (so the copy shares nothing with
    other owners), every block allocated before is still there with its
    contents, and exactly [n + 1] allocations were made. *)
Theorem duplicate_argv_success n argv m :
  (n ≤ length argv)%nat →
  all_succeed (S n) (oracle m) = true →
  ∃ a ls m',
    th_ctrl_util_duplicate_argv n argv m = Done (Ptr a) m' ∧
    owned_at (blocks m') a ls (take n argv) ∧
    (∀ l, l ∈ a :: ls → blocks m !! l = None) ∧
    (∀ l b, blocks m !! l = Some b → blocks m' !! l = Some b) ∧
    oracle m' = drop (S n) (oracle m).
Proof.
  intros Hn Hmem.
  destruct (duplicate_argv_spec n argv m Hn) as (p & m' & Hrun & Hframe & Hres).
  rewrite Hmem in Hres. destruct Hres as (a & ls & -> & Hown & Hfresh & Hor).
  by exists a, ls, m'.
Qed.

(** X7, instance. *)
Lemma duplicate_argv_success_witness :
  ∃ a ls m',
    th_ctrl_util_duplicate_argv 2 ["iperf3"; "-s"] (Memory ∅ [true; true; true; false])
    = Done (Ptr a) m' ∧
    owned_at (blocks m') a ls (take 2 ["iperf3"; "-s"]) ∧
    (∀ l, l ∈ a :: ls → blocks (Memory ∅ [true; true; true; false]) !! l = None) ∧
    (∀ l b, blocks (Memory ∅ [true; true; true; false]) !! l = Some b →
            blocks m' !! l = Some b) ∧
    oracle m' = drop 3 (oracle (Memory ∅ [true; true; true; false])).
Proof.
  apply (duplicate_argv_success 2 ["iperf3"; "-s"] (Memory ∅ [true; true; true; false]));
    [simpl; lia | reflexivity].
Defined.

(** X8. Whatever the allocator does, [th_ctrl_util_duplicate_argv] on a
    vector of at least [n] strings returns, it returns [NULL] exactly
    when one of its [n + 1] allocations fails, and it never frees or
    changes a block that was allocated before the call. *)
Theorem duplicate_argv_outcome n argv m :
  (n ≤ length argv)%nat →
  ∃ p m',
    th_ctrl_util_duplicate_argv n argv m = Done p m' ∧
    (p = NULL ↔ all_succeed (S n) (oracle m) = false) ∧
    (∀ l b, blocks m !! l = Some b → blocks m' !! l = Some b).
Proof.
  intros Hn.
  destruct (duplicate_argv_spec n argv m Hn) as (p & m' & Hrun & Hframe & _).
  exists p, m'. split; [done|]. split; [|done].
  by eapply all_succeed_false_iff_null.
Qed.

(** X8, instance. *)
Lemma duplicate_argv_outcome_witness :
  ∃ p m',
    th_ctrl_util_duplicate_argv 2 ["iperf3"; "-s"]
      (Memory {[5%positive := str_block "kept"]} [true; false]) = Done p m' ∧
    (p = NULL ↔ all_succeed 3 (oracle (Memory {[5%positive := str_block "kept"]}
                                          [true; false])) = false) ∧
    (∀ l b, blocks (Memory {[5%positive := str_block "kept"]} [true; false]) !! l = Some b →
            blocks m' !! l = Some b).
Proof.
  apply (duplicate_argv_outcome 2 ["iperf3"; "-s"]
           (Memory {[5%positive := str_block "kept"]} [true; false])).
  simpl. lia.
Defined.

(** X9. Duplication followed by release does not give back everything:
    after [th_ctrl_util_duplicate_argv] (with enough memory) and
    [th_ctrl_util_duplicate_argv_free] on its result, the blocks
    allocated before are as they were, the array and the copies from
    index 1 on are gone, and the copy of the first string, which was not
    allocated before, still is. *)
Theorem duplicate_then_release s0 rest m :
  all_succeed (S (length (s0 :: rest))) (oracle m) = true →
  ∃ a l0 ls m1 m2,
    th_ctrl_util_duplicate_argv (length (s0 :: rest)) (s0 :: rest) m = Done (Ptr a) m1 ∧
    owned_at (blocks m1) a (l0 :: ls) (s0 :: rest) ∧
    th_ctrl_util_duplicate_argv_free (length (s0 :: rest)) (Ptr a) m1 = Done tt m2 ∧
    (∀ l b, blocks m !! l = Some b → blocks m2 !! l = Some b) ∧
    blocks m2 !! a = None ∧
    (∀ l, l ∈ ls → blocks m2 !! l = None) ∧
    blocks m !! l0 = None ∧
    blocks m2 !! l0 = Some (str_block s0).
Proof.
  intros Hmem.
  destruct (duplicate_argv_spec (length (s0 :: rest)) (s0 :: rest) m ltac:(done))
    as (p & m1 & Hrun & Hframe & Hres).
  rewrite Hmem in Hres. destruct Hres as (a & ls' & -> & Hown & Hfresh & _).
  rewrite firstn_all in Hown.
  pose proof (owned_at_length _ _ _ _ Hown) as Hlen.
  destruct ls' as [|l0 ls]; [done|].
  exists a, l0, ls, m1. eexists.
  split; [done|]. split; [done|].
  split; [by apply duplicate_argv_free_spec|].
  pose proof Hown as (_ & Hnd & _).
  apply NoDup_cons in Hnd as [Hna Hnd]. apply NoDup_cons in Hnd as [Hl0 _].
  cbn [blocks drop].
  split.
  { intros l b Hl.
    assert (l ∉ a :: l0 :: ls) by (intros Hin; apply Hfresh in Hin; congruence).
    rewrite lookup_delete_ne, lookup_free_all, decide_False; [by apply Hframe| |].
    - intros Hin. apply H. by do 2 apply list_elem_of_further.
    - intros ->. apply H, list_elem_of_here. }
  split; [apply lookup_delete_eq|].
  split.
  { intros l Hl. rewrite lookup_delete_ne, lookup_free_all, decide_True; [done..|].
    intros ->. apply Hna. by apply list_elem_of_further. }
  split; [apply Hfresh; apply list_elem_of_further, list_elem_of_here|].
  by apply (duplicate_argv_free_keeps_first _ a l0 ls s0 rest).
Qed.

(** X9, instance. *)
Lemma duplicate_then_release_witness :
  ∃ a l0 ls m1 m2,
    th_ctrl_util_duplicate_argv (length ["iperf3"; "-s"]) ["iperf3"; "-s"] (Memory ∅ [])
    = Done (Ptr a) m1 ∧
    owned_at (blocks m1) a (l0 :: ls) ["iperf3"; "-s"] ∧
    th_ctrl_util_duplicate_argv_free (length ["iperf3"; "-s"]) (Ptr a) m1 = Done tt m2 ∧
    (∀ l b, blocks (Memory ∅ []) !! l = Some b → blocks m2 !! l = Some b) ∧
    blocks m2 !! a = None ∧
    (∀ l, l ∈ ls → blocks m2 !! l = None) ∧
    blocks (Memory ∅ []) !! l0 = None ∧
    blocks m2 !! l0 = Some (str_block "iperf3").
Proof. apply (duplicate_then_release "iperf3" ["-s"] (Memory ∅ [])). reflexivity. Defined.

(** ** The command line when the buffer length cuts it off *)

Lemma copied_args_prefix strs obl : ∀ t, copied_args strs obl t `prefix_of` strs.
Proof.
  induction strs as [|a rest IH]; intros t; simpl; [done|].
  case_decide; [apply prefix_nil|]. by apply prefix_cons.
Qed.

Lemma copied_args_all strs obl : ∀ t,
  t + strlen_of (command_line strs) ≤ obl → copied_args strs obl t = strs.
Proof.
  induction strs as [|a rest IH]; intros t Hfit; simpl; [done|].
  cbn [command_line] in Hfit. rewrite !strlen_of_app in Hfit.
  change (strlen_of " ") with 1 in Hfit.
  pose proof (strlen_of_nonneg (command_line rest)).
  rewrite decide_False by lia. f_equal. apply IH. lia.
Qed.

Lemma get_command_str_loop_general h0 o q strs p cap obl k : ∀ i acc,
  h0 !! p = None →
  (∀ j s, strs !! j = Some s → arg_at h0 q j s) →
  (k = 0 ∨ i + k ≤ length strs)%nat →
  strlen_of acc
  + strlen_of (command_line (copied_args (take k (drop i strs)) obl (strlen_of acc)))
  + 1 ≤ cap →
  get_command_str_loop k i q (Ptr p) obl (strlen_of acc)
    (Memory (<[p := Chars cap acc]> h0) o)
  = Done tt
      (Memory (<[p := Chars cap
                       (acc +:+ command_line
                                  (copied_args (take k (drop i strs)) obl (strlen_of acc)))]>
                 h0) o).
Proof.
  induction k as [|k IH]; intros i acc Hp Hargs Hk Hcap.
  - simpl. by rewrite string_app_nil_r.
  - destruct (lookup_lt_is_Some_2 strs i) as [s Hs]; [lia|].
    destruct (Hargs _ _ Hs) as (a & cells & l & capl & -> & Ha & Hl & Hls).
    assert (Hap : a ≠ p) by (intros ->; congruence).
    assert (Hlp : l ≠ p) by (intros ->; congruence).
    rewrite (drop_S _ _ _ Hs) in *. cbn [take copied_args] in *.
    set (m := Memory _ o).
    assert (Ha' : blocks m !! a = Some (Ptrs cells))
      by (subst m; simpl; by rewrite lookup_insert_ne).
    assert (Hls' : blocks m !! l = Some (Chars capl s))
      by (subst m; simpl; by rewrite lookup_insert_ne).
    assert (Hbuf : blocks m !! p = Some (Chars cap acc))
      by (subst m; simpl; by rewrite lookup_insert_eq).
    cbn [get_command_str_loop].
    rewrite (bind_done _ _ _ _ _ (load_cell_done _ _ _ _ _ Ha' Hl)).
    rewrite (bind_done _ _ _ _ _ (strlen_done _ _ _ _ Hls')).
    destruct (decide (strlen_of acc + strlen_of s > obl)) as [Hbig|Hok].
    { subst m. cbn [command_line]. by rewrite string_app_nil_r. }
    cbn [command_line] in *. rewrite !strlen_of_app in Hcap.
    pose proof (strlen_of_nonneg
                  (command_line (copied_args (take k (drop (S i) strs)) obl
                                   (strlen_of acc + strlen_of s + 1)))).
    pose proof (strlen_of_nonneg s).
    change (strlen_of " ") with 1 in *.
    rewrite (bind_done _ _ _ _ _ (load_str_done _ _ _ _ Hls')).
    rewrite (bind_done _ _ _ _ _ (sprintf_at_done _ _ _ (s +:+ " ") _ Hbuf
               ltac:(rewrite strlen_of_app; change (strlen_of " ") with 1; lia))).
    subst m. cbn [blocks oracle]. rewrite insert_insert_eq.
    set (m1 := Memory _ o).
    assert (Hbuf1 : blocks m1 !! p = Some (Chars cap (acc +:+ s +:+ " ")))
      by (subst m1; simpl; by rewrite lookup_insert_eq).
    rewrite (bind_done _ _ _ _ _ (strlen_done _ _ _ _ Hbuf1)).
    assert (Hlen : strlen_of (acc +:+ s +:+ " ") = strlen_of acc + strlen_of s + 1).
    { rewrite !strlen_of_app. change (strlen_of " ") with 1. lia. }
    subst m1. rewrite IH; [|done|done|lia|]; rewrite Hlen.
    + by rewrite string_app_assoc.
    + lia.
Qed.

(** The buffer check of the loop compares the length of the argument
    alone; the space and the terminator are written all the same. *)
Lemma get_command_str_loop_overflow h0 o q strs p cap obl pre : ∀ k i acc a rest,
  h0 !! p = None →
  (∀ j s, strs !! j = Some s → arg_at h0 q j s) →
  (i + k ≤ length strs)%nat →
  take k (drop i strs) = pre ++ a :: rest →
  strlen_of acc + strlen_of (command_line pre) + 1 ≤ cap →
  strlen_of acc + strlen_of (command_line pre) + strlen_of a ≤ obl →
  cap < strlen_of acc + strlen_of (command_line pre) + strlen_of a + 2 →
  get_command_str_loop k i q (Ptr p) obl (strlen_of acc)
    (Memory (<[p := Chars cap acc]> h0) o)
  = Fault BadAccess.
Proof.
  induction pre as [|s0 pre IH]; intros k i acc a rest Hp Hargs Hk Htake Hcap Hobl Hover.
  - destruct k as [|k]; [done|].
    destruct (lookup_lt_is_Some_2 strs i) as [s Hs]; [lia|].
    rewrite (drop_S _ _ _ Hs) in Htake. cbn [take app] in Htake.
    injection Htake as -> Hrest.
    destruct (Hargs _ _ Hs) as (a' & cells & l & capl & -> & Ha & Hl & Hls).
    assert (Hap : a' ≠ p) by (intros ->; congruence).
    assert (Hlp : l ≠ p) by (intros ->; congruence).
    cbn [command_line] in *. change (strlen_of EmptyString) with 0 in *.
    pose proof (strlen_of_nonneg acc). pose proof (strlen_of_nonneg a).
    set (m := Memory _ o).
    assert (Ha' : blocks m !! a' = Some (Ptrs cells))
      by (subst m; simpl; by rewrite lookup_insert_ne).
    assert (Hls' : blocks m !! l = Some (Chars capl a))
      by (subst m; simpl; by rewrite lookup_insert_ne).
    assert (Hbuf : blocks m !! p = Some (Chars cap acc))
      by (subst m; simpl; by rewrite lookup_insert_eq).
    cbn [get_command_str_loop].
    rewrite (bind_done _ _ _ _ _ (load_cell_done _ _ _ _ _ Ha' Hl)).
    rewrite (bind_done _ _ _ _ _ (strlen_done _ _ _ _ Hls')).
    rewrite decide_False by lia.
    rewrite (bind_done _ _ _ _ _ (load_str_done _ _ _ _ Hls')).
    apply bind_fault. unfold sprintf_at.
    rewrite (bind_done _ _ _ _ _ (load_block_done _ _ _ Hbuf)).
    rewrite decide_False; [done|].
    rewrite strlen_of_app. change (strlen_of " ") with 1. lia.
  - destruct k as [|k]; [done|].
    destruct (lookup_lt_is_Some_2 strs i) as [s Hs]; [lia|].
    rewrite (drop_S _ _ _ Hs) in Htake. cbn [take app] in Htake.
    injection Htake as -> Htake.
    destruct (Hargs _ _ Hs) as (a' & cells & l & capl & -> & Ha & Hl & Hls).
    assert (Hap : a' ≠ p) by (intros ->; congruence).
    assert (Hlp : l ≠ p) by (intros ->; congruence).
    cbn [command_line] in *. rewrite !strlen_of_app in *.
    change (strlen_of " ") with 1 in *.
    pose proof (strlen_of_nonneg acc). pose proof (strlen_of_nonneg a).
    pose proof (strlen_of_nonneg s0). pose proof (strlen_of_nonneg (command_line pre)).
    set (m := Memory _ o).
    assert (Ha' : blocks m !! a' = Some (Ptrs cells))
      by (subst m; simpl; by rewrite lookup_insert_ne).
    assert (Hls' : blocks m !! l = Some (Chars capl s0))
      by (subst m; simpl; by rewrite lookup_insert_ne).
    assert (Hbuf : blocks m !! p = Some (Chars cap acc))
      by (subst m; simpl; by rewrite lookup_insert_eq).
    cbn [get_command_str_loop].
    rewrite (bind_done _ _ _ _ _ (load_cell_done _ _ _ _ _ Ha' Hl)).
    rewrite (bind_done _ _ _ _ _ (strlen_done _ _ _ _ Hls')).
    rewrite decide_False by lia.
    rewrite (bind_done _ _ _ _ _ (load_str_done _ _ _ _ Hls')).
    rewrite (bind_done _ _ _ _ _ (sprintf_at_done _ _ _ (s0 +:+ " ") _ Hbuf
               ltac:(rewrite strlen_of_app; change (strlen_of " ") with 1; lia))).
    subst m. cbn [blocks oracle]. rewrite insert_insert_eq.
    set (m1 := Memory _ o).
    assert (Hbuf1 : blocks m1 !! p = Some (Chars cap (acc +:+ s0 +:+ " ")))
      by (subst m1; simpl; by rewrite lookup_insert_eq).
    rewrite (bind_done _ _ _ _ _ (strlen_done _ _ _ _ Hbuf1)).
    assert (Hlen : strlen_of (acc +:+ s0 +:+ " ") = strlen_of acc + strlen_of s0 + 1).
    { rewrite !strlen_of_app. change (strlen_of " ") with 1. lia. }
    subst m1. apply (IH k (S i) _ a rest); [done|done|lia|done|..]; rewrite Hlen; lia.
Qed.

(** ** Status reports beyond the recorded command length *)

(** The status report of a slot with results, up to the allocation of
    the print buffer. *)
Lemma status_print_available sh r s text :
  stored_results s r = Some text → text ≠ EmptyString →
  th_ctrl_data_status_print sh r s
  = (print_buf ← on_heap (calloc (cmd_len (data_of r s) + 1));
     cmd ← on_heap (th_ctrl_get_command_str_from_argv
                      (argc (data_of r s)) (argv (data_of r s)) print_buf
                      ((cmd_len (data_of r s) + 1) `mod` 65536));
     line ← on_heap (load_str cmd);
     shell_print sh ("  command: " +:+ line);;
     on_heap (free print_buf))
      (say [status_header (data_of r s); Msg "  Results available";
            running_line (data_of r s)] s).
Proof.
  intros (b & capb & Hres & Hb)%stored_results_inv Htext.
  set (d := data_of r s) in *.
  unfold th_ctrl_data_status_print.
  rewrite (bind_done _ _ s d s) by done.
  rewrite (bind_done _ _ _ _ _ (shell_print_done _ _ _)).
  rewrite (bind_done _ _ _ _ _
             (has_results_live d (say [status_header d] s) b capb text Hres Hb)).
  rewrite bool_decide_false by done. cbn [negb].
  rewrite (bind_done _ _ _ _ _ (shell_print_done _ _ _)), say_say.
  rewrite (bind_done _ _ _ tt
             (say [status_header d; Msg "  Results available"; running_line d] s)).
  2:{ unfold running_line. destruct (k_work_is_pending (work d));
      by rewrite shell_print_done, say_say. }
  done.
Qed.

(** The status report of a slot with results whose shown line fits the
    print buffer. *)
Lemma status_print_shown sh r s text strs :
  stored_results s r = Some text → text ≠ EmptyString →
  stored_argv s r = Some strs →
  alloc_succeeds (oracle (heap s)) = true →
  0 ≤ cmd_len (data_of r s) →
  strlen_of (command_line
               (copied_args strs ((cmd_len (data_of r s) + 1) `mod` 65536) 0))
  ≤ cmd_len (data_of r s) →
  th_ctrl_data_status_print sh r s
  = Done tt
      (say [status_header (data_of r s); Msg "  Results available";
            running_line (data_of r s);
            Msg ("  command: " +:+
                 command_line
                   (copied_args strs ((cmd_len (data_of r s) + 1) `mod` 65536) 0))]
         (with_heap (Memory (blocks (heap s)) (tail (oracle (heap s)))) s)).
Proof.
  intros Htext Hne (Hargc & Hargs)%stored_argv_inv Hor Hlen Hfit.
  rewrite (status_print_available sh r s text Htext Hne).
  set (d := data_of r s) in *. set (obl := (cmd_len d + 1) `mod` 65536) in *.
  set (s2 := say _ s).
  set (p := fresh (dom (blocks (heap s)))).
  assert (Hp : blocks (heap s) !! p = None) by apply fresh_loc_free.
  unfold calloc.
  rewrite (bind_done _ _ _ _ _
             (on_heap_done _ s2 _ _ (alloc_done _ (heap s) Hor))).
  fold p. rewrite Hargc.
  assert (Htake : take (length strs) (drop 0 strs) = strs).
  { rewrite drop_0. by apply take_ge. }
  assert (Hloop := get_command_str_loop_general (blocks (heap s)) (tail (oracle (heap s)))
                     (argv d) strs p (cmd_len d + 1) obl (length strs) 0%nat EmptyString
                     Hp Hargs ltac:(right; lia)).
  rewrite Htake in Hloop. change (strlen_of EmptyString) with 0 in Hloop.
  specialize (Hloop ltac:(lia)).
  assert (Hcmd : th_ctrl_get_command_str_from_argv (length strs) (argv d) (Ptr p) obl
                   (Memory (<[p := Chars (cmd_len d + 1) EmptyString]> (blocks (heap s)))
                           (tail (oracle (heap s))))
                 = Done (Ptr p)
                     (Memory (<[p := Chars (cmd_len d + 1)
                                      (command_line (copied_args strs obl 0))]>
                                (blocks (heap s)))
                             (tail (oracle (heap s))))).
  { unfold th_ctrl_get_command_str_from_argv.
    by rewrite (bind_done (get_command_str_loop _ _ _ _ _ _) _ _ _ _ Hloop). }
  set (h1 := Memory _ _) in Hcmd |- *.
  rewrite (bind_done _ _ _ _ _ (on_heap_done _ (with_heap h1 s2) _ _ Hcmd)).
  set (h2 := Memory _ _).
  assert (Hp2 : blocks h2 !! p
                = Some (Chars (cmd_len d + 1) (command_line (copied_args strs obl 0)))).
  { subst h2. simpl. apply lookup_insert_eq. }
  rewrite (bind_done _ _ _ _ _
             (on_heap_done _ (with_heap h2 (with_heap h1 s2)) _ _
                (load_str_done _ _ _ _ Hp2))).
  rewrite (bind_done _ _ _ _ _ (shell_print_done _ _ _)).
  set (s3 := say _ _).
  rewrite (on_heap_done _ s3 _ _ (free_done _ _ _ Hp2)).
  f_equal. subst s3 h2 h1 s2. unfold say, with_heap. simpl.
  rewrite <- app_assoc. simpl.
  rewrite delete_insert_eq, delete_id by done. done.
Qed.

(** X10. What the status report shows as the command of a slot with
    results: the stored arguments up to the first one that fails the
    length check against the recorded command length plus one (taken as
    a [uint16_t]), each followed by a space.  The shown arguments are
    always a prefix of the stored ones, never a reordering or a part of
    an argument.  (The line must fit the print buffer, see X11.) *)
Theorem status_command_truncated sh r s text strs :
  stored_results s r = Some text → text ≠ EmptyString →
  stored_argv s r = Some strs →
  alloc_succeeds (oracle (heap s)) = true →
  0 ≤ cmd_len (data_of r s) →
  strlen_of (command_line
               (copied_args strs ((cmd_len (data_of r s) + 1) `mod` 65536) 0))
  ≤ cmd_len (data_of r s) →
  th_ctrl_data_status_print sh r s
  = Done tt
      (say [status_header (data_of r s); Msg "  Results available";
            running_line (data_of r s);
            Msg ("  command: " +:+
                 command_line
                   (copied_args strs ((cmd_len (data_of r s) + 1) `mod` 65536) 0))]
         (with_heap (Memory (blocks (heap s)) (tail (oracle (heap s)))) s)) ∧
  copied_args strs ((cmd_len (data_of r s) + 1) `mod` 65536) 0 `prefix_of` strs.
Proof.
  intros Htext Hne Hargv Hor Hlen Hfit. split; [|apply copied_args_prefix].
  by apply (status_print_shown sh r s text strs).
Qed.

(** X10, instance: with a recorded command length of 7 only [iperf3] is
    shown. *)
Lemma status_command_truncated_witness :
  th_ctrl_data_status_print sh20 Th1 (finished_with 7)
  = Done tt
      (say [status_header (data_of Th1 (finished_with 7)); Msg "  Results available";
            running_line (data_of Th1 (finished_with 7));
            Msg ("  command: " +:+
                 command_line
                   (copied_args ["iperf3"; "-s"]
                      ((cmd_len (data_of Th1 (finished_with 7)) + 1) `mod` 65536) 0))]
         (with_heap (Memory (blocks (heap (finished_with 7)))
                            (tail (oracle (heap (finished_with 7)))))
            (finished_with 7))) ∧
  copied_args ["iperf3"; "-s"]
    ((cmd_len (data_of Th1 (finished_with 7)) + 1) `mod` 65536) 0
  `prefix_of` ["iperf3"; "-s"].
Proof.
  apply (status_command_truncated sh20 Th1 (finished_with 7) "done" ["iperf3"; "-s"]).
  - vm_compute. reflexivity.
  - discriminate.
  - vm_compute. reflexivity.
  - vm_compute. reflexivity.
  - vm_compute. discriminate.
  - vm_compute. discriminate.
Defined.

(** X11. The length check of [th_ctrl_get_command_str_from_argv] leaves no
    room for the space and the terminator it writes: if, after the
    arguments [pre] have been copied, the next argument ends at or one
    byte before the end of the print buffer, the status report writes
    past the buffer (undefined behaviour). *)
Theorem status_print_overflow sh r s text pre a rest :
  stored_results s r = Some text → text ≠ EmptyString →
  stored_argv s r = Some (pre ++ a :: rest) →
  alloc_succeeds (oracle (heap s)) = true →
  0 ≤ cmd_len (data_of r s) < 65535 →
  strlen_of (command_line pre) ≤ cmd_len (data_of r s) →
  cmd_len (data_of r s) ≤ strlen_of (command_line pre) + strlen_of a
                        ≤ cmd_len (data_of r s) + 1 →
  th_ctrl_data_status_print sh r s = Fault BadAccess.
Proof.
  intros Htext Hne (Hargc & Hargs)%stored_argv_inv Hor Hlen Hpre Hover.
  rewrite (status_print_available sh r s text Htext Hne).
  set (d := data_of r s) in *.
  set (s2 := say _ s).
  set (p := fresh (dom (blocks (heap s)))).
  assert (Hp : blocks (heap s) !! p = None) by apply fresh_loc_free.
  unfold calloc.
  rewrite (bind_done _ _ _ _ _
             (on_heap_done _ s2 _ _ (alloc_done _ (heap s) Hor))).
  fold p. rewrite Hargc, Z.mod_small by lia.
  apply bind_fault, on_heap_fault. unfold th_ctrl_get_command_str_from_argv.
  apply bind_fault. simpl heap.
  change 0 with (strlen_of EmptyString).
  apply (get_command_str_loop_overflow (blocks (heap s)) _ (argv d) (pre ++ a :: rest)
           p (cmd_len d + 1) (cmd_len d + 1) pre (length (pre ++ a :: rest)) 0%nat
           EmptyString a rest Hp Hargs);
    change (strlen_of EmptyString) with 0; try lia.
  rewrite drop_0. by apply take_ge.
Qed.

(** X11, instance: [iperf3 -s] with a recorded command length of 9. *)
Lemma status_print_overflow_witness :
  th_ctrl_data_status_print sh20 Th1 (finished_with 9) = Fault BadAccess.
Proof.
  apply (status_print_overflow sh20 Th1 (finished_with 9) "done" ["iperf3"] "-s" []).
  - vm_compute. reflexivity.
  - discriminate.
  - vm_compute. reflexivity.
  - vm_compute. reflexivity.
  - vm_compute. split; [discriminate | reflexivity].
  - vm_compute. discriminate.
  - vm_compute. split; discriminate.
Defined.

(** X12. The print buffer of the status report is used without a check
    of [calloc]: if that allocation fails for a slot with results whose
    first argument passes the length check, the report writes through
    [NULL] (undefined behaviour). *)
Theorem status_print_no_memory sh r s text a0 rest :
  stored_results s r = Some text → text ≠ EmptyString →
  stored_argv s r = Some (a0 :: rest) →
  alloc_succeeds (oracle (heap s)) = false →
  strlen_of a0 ≤ (cmd_len (data_of r s) + 1) `mod` 65536 →
  th_ctrl_data_status_print sh r s = Fault BadAccess.
Proof.
  intros Htext Hne (Hargc & Hargs)%stored_argv_inv Hor Hfit.
  rewrite (status_print_available sh r s text Htext Hne).
  set (d := data_of r s) in *. set (s2 := say _ s).
  unfold calloc.
  rewrite (bind_done _ _ _ _ _
             (on_heap_done _ s2 _ _ (alloc_null _ (heap s) Hor))).
  apply bind_fault, on_heap_fault. unfold th_ctrl_get_command_str_from_argv.
  apply bind_fault. rewrite Hargc. cbn [length get_command_str_loop].
  destruct (Hargs 0%nat a0 eq_refl) as (a & cells & l & capl & Ha & Hcells & Hl & Hls).
  rewrite Ha. set (m := heap _).
  assert (Hcells' : blocks m !! a = Some (Ptrs cells)) by done.
  assert (Hls' : blocks m !! l = Some (Chars capl a0)) by done.
  rewrite (bind_done _ _ _ _ _ (load_cell_done _ _ _ _ _ Hcells' Hl)).
  rewrite (bind_done _ _ _ _ _ (strlen_done _ _ _ _ Hls')).
  rewrite decide_False by lia.
  by rewrite (bind_done _ _ _ _ _ (load_str_done _ _ _ _ Hls')).
Qed.

(** X12, instance. *)
Lemma status_print_no_memory_witness :
  th_ctrl_data_status_print sh20 Th1 (with_oracle [false] bg_finished) = Fault BadAccess.
Proof.
  apply (status_print_no_memory sh20 Th1 (with_oracle [false] bg_finished)
           "done" "iperf3" ["-s"]).
  - vm_compute. reflexivity.
  - discriminate.
  - vm_compute. reflexivity.
  - vm_compute. reflexivity.
  - vm_compute. discriminate.
Defined.

(** ** The work handler *)

Lemma sprintf_at_start b cap s w m :
  blocks m !! b = Some (Chars cap s) →
  strlen_of w + 1 ≤ cap →
  sprintf_at (Ptr b) 0 w m
  = Done tt (Memory (<[b := Chars cap w]> (blocks m)) (oracle m)).
Proof.
  intros Hb Hcap. unfold sprintf_at.
  rewrite (bind_done _ _ _ _ _ (load_block_done _ _ _ Hb)).
  pose proof (strlen_of_nonneg s). pose proof (strlen_of_nonneg w).
  rewrite decide_True by lia. rewrite decide_True by lia.
  change (Z.to_nat 0) with 0%nat.
  replace (String.substring 0 0 s) with EmptyString by (by destruct s).
  by eapply store_block_done.
Qed.

Lemma load_argv_stored s r strs :
  stored_argv s r = Some strs →
  load_argv (argc (data_of r s)) 0 (argv (data_of r s)) (heap s) = Done strs (heap s) ∧
  argc (data_of r s) = length strs.
Proof.
  unfold stored_argv.
  destruct (load_argv _ _ _ _) as [strs' m'|] eqn:Hload; [|done].
  intros [= ->]. pose proof (load_argv_inv _ _ _ _ _ _ Hload) as (-> & Hlen & _).
  done.
Qed.

Section handler.
Variable iperf_main :
  nat → list string → option Z → k_poll_signal → Z * string.

Lemma work_handler_background r s sh b cap old strs :
  shell (data_of r s) = Some sh →
  background (data_of r s) = true →
  results_str (data_of r s) = Ptr b →
  blocks (heap s) !! b = Some (Chars cap old) →
  stored_argv s r = Some strs →
  argv (data_of r s) ≠ NULL →
  strlen_of (bg_call iperf_main s r strs).2 + 1 ≤ cap →
  th_ctrl_work_handler iperf_main r s
  = Done tt
      (say (handler_lines (data_of r s) (bg_call iperf_main s r strs).1)
         (with_heap
            (Memory (<[b := Chars cap (bg_call iperf_main s r strs).2]> (blocks (heap s)))
                    (oracle (heap s))) s)).
Proof.
  intros Hsh Hbg Hres Hb (Hload & Hargc)%load_argv_stored Hargv Hfit.
  unfold th_ctrl_work_handler, bg_call in *. mstep.
  set (d := data_of r s) in *. rewrite Hsh. mstep.
  destruct (argv d) as [|a] eqn:Ha; [done|]. simpl negb. mstep.
  set (s1 := say _ s).
  rewrite (bind_done (on_heap _) _ s1 strs s1).
  2:{ rewrite <- (with_heap_id s1) at 2. apply on_heap_done. exact Hload. }
  rewrite Hbg, Hres, Hargc. simpl negb.
  set (out := iperf_main _ _ _ _) in *.
  rewrite (bind_done _ _ s1 out.1
             (with_heap (Memory (<[b := Chars cap out.2]> (blocks (heap s)))
                                (oracle (heap s))) s1)).
  2:{ simpl is_null. simpl negb. rewrite (bind_done (assert true) _ s1 tt s1 eq_refl).
      erewrite (bind_done (on_heap _) _ s1); [reflexivity|].
      apply on_heap_done. by eapply sprintf_at_start. }
  do 3 mstep. rewrite shell_print_done.
  unfold handler_lines. fold d. rewrite Hbg.
  destruct s as [h d1 d2 c]. unfold say, with_heap, s1; simpl.
  by rewrite <- !(assoc_L (++)).
Qed.

Lemma work_handler_foreground r s sh strs :
  shell (data_of r s) = Some sh →
  background (data_of r s) = false →
  results_str (data_of r s) = NULL →
  stored_argv s r = Some strs →
  argv (data_of r s) ≠ NULL →
  th_ctrl_work_handler iperf_main r s
  = Done tt (say (handler_lines (data_of r s) (fg_call iperf_main s r strs).1) s).
Proof.
  intros Hsh Hbg Hres (Hload & Hargc)%load_argv_stored Hargv.
  unfold th_ctrl_work_handler, fg_call in *. mstep.
  set (d := data_of r s) in *. rewrite Hsh. mstep.
  destruct (argv d) as [|a] eqn:Ha; [done|]. simpl negb. mstep.
  set (s1 := say _ s).
  rewrite (bind_done (on_heap _) _ s1 strs s1).
  2:{ rewrite <- (with_heap_id s1) at 2. apply on_heap_done. exact Hload. }
  rewrite Hbg, Hres, Hargc. simpl is_null.
  set (out := iperf_main _ _ _ _) in *.
  rewrite (bind_done _ _ s1 out.1 s1 eq_refl).
  do 3 mstep. rewrite shell_print_done.
  unfold handler_lines. fold d. rewrite Hbg.
  destruct s as [h d1 d2 c]. unfold say, s1; simpl.
  by rewrite <- !(assoc_L (++)).
Qed.

Lemma work_q_run_eq r s s1 :
  is_running r s = true →
  th_ctrl_work_handler iperf_main r s = Done tt s1 →
  work_q_run iperf_main r s
  = Done tt (update_data r (set_work (KWork false (k_work_queue (work (data_of r s))))) s1).
Proof.
  intros Hrun Hh. unfold work_q_run, is_running in *. mstep. rewrite Hrun. mstep.
  rewrite (bind_done _ _ _ _ _ Hh). apply modify_data_done.
Qed.
End handler.

(** ** The pool invariant: ownership and frames *)

Lemma cells_of_elem ls l :
  (∃ i, cells_of ls !! i = Some (Some (Ptr l))) ↔ l ∈ ls.
Proof.
  unfold cells_of. split.
  - intros [i Hi]. rewrite list_lookup_fmap in Hi.
    destruct (ls !! i) as [l'|] eqn:Hl; [|done]. injection Hi as <-.
    by eapply list_elem_of_lookup_2.
  - intros [i Hi]%list_elem_of_lookup. exists i.
    by rewrite list_lookup_fmap, Hi.
Qed.

Lemma owns_vector s r a ls strs l :
  argv_at s r a ls strs →
  owns s r l ↔ results_str (data_of r s) = Ptr l ∨ l ∈ a :: ls.
Proof.
  intros (Ha & _ & Hcells & _). unfold owns. rewrite Ha. split.
  - intros [?|[[= ->]|(a' & cells & i & [= <-] & Hc & Hi)]]; [by left| |].
    + right. apply list_elem_of_here.
    + right. apply list_elem_of_further, cells_of_elem. exists i. congruence.
  - intros [?|[->|Hin]%elem_of_cons]; [by left|by right; left|].
    right; right. apply cells_of_elem in Hin as [i Hi]. by exists a, (cells_of ls), i.
Qed.

Lemma owns_no_vector s r l :
  argv (data_of r s) = NULL →
  owns s r l ↔ results_str (data_of r s) = Ptr l.
Proof.
  intros Ha. unfold owns. rewrite Ha. split; [|by left].
  by intros [?|[?|(? & ? & ? & ? & _)]].
Qed.

Lemma slot_inv_wf s r : slot_inv s r → slot_wf s r.
Proof.
  intros (Hnbr & Hres & Hargv & _). split; [done|]. split; [|done].
  destruct Hargv as [(? & _)|(a & ls & strs & ? & ? & _)]; [by left|].
  right. by exists a, ls, strs.
Qed.

Lemma owns_live s r l : slot_inv s r → owns s r l → is_Some (blocks (heap s) !! l).
Proof.
  intros (_ & Hres & Hargv & _) Hl.
  assert (Hb : results_str (data_of r s) = Ptr l → is_Some (blocks (heap s) !! l)).
  { intros Hp. destruct Hres as [?|(b & text & Hb & Hlive)]; [congruence|].
    rewrite Hp in Hb. injection Hb as ->. eauto. }
  destruct Hargv as [(Hnull & _)|(a & ls & strs & Hat & _)].
  - apply Hb. by apply owns_no_vector.
  - apply (owns_vector _ _ _ _ _ l Hat) in Hl as [?|Hin]; [auto|].
    destruct Hat as (_ & _ & Hown). by eapply owned_at_live.
Qed.

(** The invariant of a slot looks at the slot's record and at the blocks
    the slot owns, and at nothing else. *)
Lemma owns_frame s s' r l :
  data_of r s' = data_of r s →
  (∀ l, owns s r l → blocks (heap s') !! l = blocks (heap s) !! l) →
  owns s' r l → owns s r l.
Proof.
  intros Hd Hsame [Hb|[Ha|(a & cells & i & Ha & Hc & Hi)]]; rewrite Hd in *;
    [by left|by right; left|].
  right; right. exists a, cells, i. split; [done|]. split; [|done].
  rewrite <- Hsame; [done|]. by right; left.
Qed.

Lemma slot_inv_frame s s' r :
  data_of r s' = data_of r s →
  (∀ l, owns s r l → blocks (heap s') !! l = blocks (heap s) !! l) →
  slot_inv s r → slot_inv s' r.
Proof.
  intros Hd Hsame (Hnbr & Hres & Hargv & Hrun).
  assert (Hres' : ∀ b text, results_at s r b text → results_at s' r b text).
  { intros b text (Hb & Hlive). split; [by rewrite Hd|].
    rewrite Hsame; [done | by left]. }
  unfold slot_inv, is_running, no_results, stored_results in *.
  rewrite Hd. split; [done|]. split; [|split; [|done]].
  - destruct Hres as [?|(b & text & Hb)]; [by left|]. right. exists b, text. auto.
  - destruct Hargv as [(Hnull & Hno & Hidle)|(a & ls & strs & Hat & Hbls & Hfit)].
    + left. split; [done|]. split; [|done].
      destruct Hno as [?|Hno]; [by left|]. right.
      destruct (results_str (data_of r s)) as [|b] eqn:Hb; [done|].
      rewrite Hsame; [done | by left].
    + right. exists a, ls, strs. split; [|done].
      destruct Hat as (Ha & Hc & Hown). split; [by rewrite Hd|].
      split; [by rewrite Hd|].
      eapply owned_at_frame; [done|]. intros l Hl. apply Hsame.
      apply (owns_vector s r a ls strs); [done | by right].
Qed.

(** A step that leaves the other slot's record and blocks alone, and
    takes for slot [r] only blocks that were its own or not allocated. *)
Lemma pool_step r s s' :
  pool_inv s →
  data_of (other r) s' = data_of (other r) s →
  (∀ l blk, blocks (heap s) !! l = Some blk → ¬ owns s r l →
            blocks (heap s') !! l = Some blk) →
  (∀ l, owns s' r l → owns s r l ∨ blocks (heap s) !! l = None) →
  slot_inv s' r →
  pool_inv s'.
Proof.
  intros (H1 & H2 & Hdisj) Hother Hkeep Hnew Hinv.
  assert (Ho : slot_inv s (other r)) by (by destruct r).
  assert (Hdisj' : ∀ l, owns s r l → owns s (other r) l → False).
  { intros l. destruct r; [apply Hdisj|]. intros ? ?. by eapply Hdisj. }
  assert (Hsame : ∀ l, owns s (other r) l →
                       blocks (heap s') !! l = blocks (heap s) !! l).
  { intros l Hl. destruct (owns_live _ _ _ Ho Hl) as [blk Hblk].
    rewrite Hblk. apply Hkeep; [done|]. intros ?. by eapply Hdisj'. }
  assert (Ho' : slot_inv s' (other r)) by (by eapply slot_inv_frame).
  assert (Hd : ∀ l, owns s' r l → owns s' (other r) l → False).
  { intros l Hl Hl'. apply (owns_frame s s' (other r) l Hother Hsame) in Hl'.
    destruct (Hnew l Hl) as [?|Hnone]; [by eapply Hdisj'|].
    destruct (owns_live _ _ _ Ho Hl') as [blk Hblk]. congruence. }
  destruct r; (split; [|split]); try done.
  intros l ? ?. by eapply Hd.
Qed.

(** A step that changes neither a slot record nor a block. *)
Lemma pool_same s s' :
  data_of Th1 s' = data_of Th1 s → data_of Th2 s' = data_of Th2 s →
  blocks (heap s') = blocks (heap s) →
  pool_inv s → pool_inv s'.
Proof.
  intros Hd1 Hd2 Hb Hinv. apply (pool_step Th1 s s' Hinv); [done|..].
  - intros l blk Hl _. by rewrite Hb.
  - intros l Hl. left. eapply owns_frame; [done| |done]. intros. by rewrite Hb.
  - destruct Hinv as (H1 & _). eapply slot_inv_frame; [done| |done].
    intros. by rewrite Hb.
Qed.

(** ** A start seen from the rest of the heap *)

Lemma owns_dec s r l : slot_inv s r → owns s r l ∨ ¬ owns s r l.
Proof.
  intros (_ & _ & Hargv & _).
  assert (results_str (data_of r s) = Ptr l ∨ results_str (data_of r s) ≠ Ptr l)
    as [?|Hne]; [|by left; left|].
  { destruct (results_str (data_of r s)) as [|b]; [by right|].
    destruct (decide (b = l)) as [->|]; [by left | right; congruence]. }
  destruct Hargv as [(Hnull & _)|(a & ls & strs & Hat & _)].
  - right. by rewrite owns_no_vector.
  - destruct (decide (l ∈ a :: ls)) as [?|Hnin].
    + left. apply (owns_vector _ _ _ _ _ l Hat). by right.
    + right. rewrite (owns_vector _ _ _ _ _ l Hat). by intros [?|?].
Qed.

(** The result-buffer phase of [th_ctrl_data_start]: which state the
    argument phase starts in, and which blocks it has left alone. *)
Lemma data_start_prepare_local r sh n argv' bg s :
  slot_inv s r →
  is_running r s = false →
  needs_buffer bg (data_of r s) && negb (alloc_succeeds (oracle (heap s))) = false →
  ∃ s0 res,
    th_ctrl_data_start r sh n argv' bg s = th_ctrl_data_start_argv r sh n argv' bg s0 ∧
    console s0 = console s ∧
    data_of (other r) s0 = data_of (other r) s ∧
    data_of r s0 = set_results_str res (data_of r s) ∧
    oracle (heap s0) = oracle_at_dup bg s r ∧
    (if bg then
       ∃ b, res = Ptr b ∧
            blocks (heap s0) !! b = Some (Chars TH_RESPONSE_BUFFER_SIZE EmptyString) ∧
            (results_str (data_of r s) = Ptr b ∨ blocks (heap s) !! b = None)
     else res = NULL) ∧
    (∀ l blk, blocks (heap s) !! l = Some blk →
              results_str (data_of r s) ≠ Ptr l →
              blocks (heap s0) !! l = Some blk).
Proof.
  intros (_ & Hres & _) Hidle Hbuf.
  unfold is_running in Hidle. unfold oracle_at_dup, needs_buffer in *.
  rewrite data_start_eq. cbv zeta. rewrite Hidle.
  destruct Hres as [Hnull|(b & text & Hb & Hlive)].
  - rewrite Hnull in *. cbn [is_null] in *. destruct bg; cbn [andb negb] in *.
    + destruct (alloc_succeeds (oracle (heap s))); [|done].
      eexists _, (Ptr _). split; [done|].
      rewrite data_of_update_other, data_of_update, !data_of_with_heap,
        heap_update_data.
      split; [by destruct r|]. do 3 (split; [done|]). split.
      * eexists. split; [done|]. simpl. split; [apply lookup_insert_eq|].
        right. apply fresh_loc_free.
      * intros l blk Hl _. simpl. rewrite lookup_insert_ne; [done|].
        intros <-. by rewrite fresh_loc_free in Hl.
    + exists s, NULL. split; [done|]. split; [done|]. split; [done|].
      split; [by rewrite <- Hnull, set_results_str_same|]. done.
  - rewrite Hb, Hlive in *. cbn [is_null] in *. rewrite andb_false_r.
    destruct bg.
    + rewrite decide_True by done.
      eexists _, (Ptr b). split; [done|].
      rewrite !data_of_with_heap. split; [done|]. split; [done|].
      split; [by rewrite <- Hb, set_results_str_same|]. split; [done|]. split.
      * exists b. split; [done|]. simpl. split; [apply lookup_insert_eq | by left].
      * intros l blk Hl Hne. simpl. rewrite lookup_insert_ne; [done|]. congruence.
    + eexists _, NULL. split; [done|].
      rewrite data_of_update_other, data_of_update, !data_of_with_heap,
        heap_update_data.
      split; [by destruct r|]. do 4 (split; [done|]).
      intros l blk Hl Hne. simpl. rewrite lookup_delete_ne; [done|]. congruence.
Qed.

(** The release of the earlier vector touches that vector only. *)
Lemma release_old_local d h :
  argv_in (blocks h) d →
  ∃ h2, release_old d h = Done tt h2 ∧ oracle h2 = oracle h ∧
    ∀ l, (∀ a ls strs, argv d = Ptr a → owned_at (blocks h) a ls strs → l ∉ a :: ls) →
         blocks h2 !! l = blocks h !! l.
Proof.
  intros [Hnull | (a & ls & strs & Ha & Hc & Hown)]; unfold release_old.
  - rewrite Hnull. cbn [is_null negb]. exists h. auto.
  - rewrite Ha, Hc. cbn [is_null negb].
    eexists. split; [by apply duplicate_argv_free_spec|]. split; [reflexivity|].
    intros l Hl. simpl.
    pose proof (Hl a ls strs eq_refl Hown) as [Hla Hlls]%not_elem_of_cons.
    rewrite lookup_delete_ne, lookup_free_all, decide_False; [done | | congruence].
    intros Hin. by apply Hlls, (subseteq_drop 1).
Qed.

Lemma owned_at_fun h a ls ls' strs strs' :
  owned_at h a ls strs → owned_at h a ls' strs' → ls' = ls.
Proof.
  intros (Hc & _) (Hc' & _). rewrite Hc in Hc'. injection Hc' as Heq.
  by apply cells_of_inj in Heq.
Qed.

(** [th_ctrl_data_start] on an idle slot of a pool in order: the run
    returns; the blocks the slot did not own are as before; what the slot
    owns afterwards it owned before or is newly allocated; and the slot
    is in order again. *)
Lemma data_start_local r sh n argv' bg s :
  slot_inv s r →
  is_running r s = false →
  (1 < n)%nat → n = length argv' →
  strlen_of (command_line (drop 1 argv')) ≤ cmd_buff_len sh < 65535 →
  needs_buffer bg (data_of r s) && negb (alloc_succeeds (oracle (heap s))) = false →
  ∃ s',
    th_ctrl_data_start r sh n argv' bg s = Done tt s' ∧
    data_of (other r) s' = data_of (other r) s ∧
    (∀ l blk, blocks (heap s) !! l = Some blk → ¬ owns s r l →
              blocks (heap s') !! l = Some blk) ∧
    (∀ l, owns s' r l → owns s r l ∨ blocks (heap s) !! l = None) ∧
    slot_inv s' r.
Proof.
  intros Hinv Hidle Hn Hlen Hfit Hbuf.
  destruct (data_start_prepare_local r sh n argv' bg s Hinv Hidle Hbuf)
    as (s0 & res & -> & Hcon & Hother0 & Hd0 & Hor & Hres & Hkeep0).
  pose proof Hinv as (Hnbr & Hresults & Hargv & _).
  set (d := data_of r s) in *.
  assert (Hvec : ∀ a ls strs, argv d = Ptr a → owned_at (blocks (heap s)) a ls strs →
                   ∀ l, l ∈ a :: ls →
                        is_Some (blocks (heap s) !! l) ∧ results_str d ≠ Ptr l ∧
                        owns s r l).
  { intros a ls strs Ha Hown l Hl.
    destruct Hargv as [(? & _)|(a0 & ls0 & strs0 & Hat & Hbls & _)]; [congruence|].
    pose proof Hat as (Ha0 & _ & Hown0). fold d in Ha0.
    assert (a0 = a) as -> by congruence.
    rewrite (owned_at_fun _ _ _ _ _ _ Hown0 Hown) in *.
    split; [by eapply owned_at_live|]. split.
    - intros Hb. apply elem_of_cons in Hl as [->|Hl]; [|by eapply Hbls].
      destruct Hresults as [?|(b & text & Hb' & Hlive)]; [congruence|].
      fold d in Hb'. rewrite Hb in Hb'. injection Hb' as <-.
      destruct Hown as (Hc & _). congruence.
    - apply (owns_vector s r a ls0 strs0 l Hat). by right. }
  assert (Hin0 : argv_in (blocks (heap s0)) d).
  { destruct Hargv as [(? & _)|(a & ls & strs & (Ha & Hc & Hown) & _)]; [by left|].
    right. exists a, ls, strs. split; [done|]. split; [done|].
    eapply owned_at_frame; [done|]. intros l Hl.
    destruct (Hvec a ls strs Ha Hown l Hl) as ([blk Hblk] & Hne & _).
    rewrite Hblk. by apply Hkeep0. }
  destruct (release_old_local d (heap s0) Hin0) as (h2 & Hrel & Hor2 & Hkeep2).
  destruct (start_argv_run r sh n argv' bg s0 h2 Hn Hlen)
    as (s' & Hrun & Hother & Hframe & Hcases).
  { by rewrite Hd0. }
  { by rewrite Hd0, release_old_set_results. }
  (* the buffer of the new run survives the release *)
  assert (Hbuf' : if bg then
                    ∃ b, res = Ptr b ∧
                         blocks (heap s') !! b
                         = Some (Chars TH_RESPONSE_BUFFER_SIZE EmptyString) ∧
                         (results_str d = Ptr b ∨ blocks (heap s) !! b = None)
                  else res = NULL).
  { destruct bg; [|done]. destruct Hres as (b & -> & Hb & Hwhere).
    exists b. split; [done|]. split; [|done]. apply Hframe.
    rewrite Hkeep2; [done|]. intros a ls strs Ha Hown.
    by eapply owned_not_buffer. }
  (* blocks the slot did not own are left alone *)
  assert (Hkeep : ∀ l blk, blocks (heap s) !! l = Some blk → ¬ owns s r l →
                           blocks (heap s') !! l = Some blk).
  { intros l blk Hl Hnot. apply Hframe. rewrite Hkeep2.
    - apply Hkeep0; [done|]. intros ?. apply Hnot. by left.
    - intros a ls strs Ha Hown Hin. apply Hnot.
      destruct Hargv as [(? & _)|(a0 & ls0 & strs0 & Hat & _)]; [congruence|].
      pose proof Hat as (Ha0 & _ & Hown0). fold d in Ha0.
      assert (a0 = a) as -> by congruence.
      apply (owns_vector s r a ls0 strs0 l Hat). right.
      assert (Hown0' : owned_at (blocks (heap s0)) a ls0 strs0).
      { eapply owned_at_frame; [done|]. intros l' Hl'.
        destruct (Hvec a ls0 strs0 Ha Hown0 l' Hl') as ([blk' Hblk'] & Hne & _).
        rewrite Hblk'. by apply Hkeep0. }
      by rewrite (owned_at_fun _ _ _ _ _ _ Hown Hown0'). }
  assert (Hfresh : ∀ l, blocks h2 !! l = None →
                        owns s r l ∨ blocks (heap s) !! l = None).
  { intros l Hl. destruct (blocks (heap s) !! l) as [blk|] eqn:Hblk; [|by right].
    destruct (owns_dec s r l Hinv) as [?|Hnot]; [by left|]. exfalso.
    assert (blocks h2 !! l = Some blk); [|congruence].
    rewrite Hkeep2.
    - apply Hkeep0; [done|]. intros ?. apply Hnot. by left.
    - intros a ls strs Ha Hown Hin. apply Hnot.
      destruct Hargv as [(? & _)|(a0 & ls0 & strs0 & Hat & _)]; [congruence|].
      pose proof Hat as (Ha0 & _ & Hown0). fold d in Ha0.
      assert (a0 = a) as -> by congruence.
      apply (owns_vector s r a ls0 strs0 l Hat). right.
      assert (Hown0' : owned_at (blocks (heap s0)) a ls0 strs0).
      { eapply owned_at_frame; [done|]. intros l' Hl'.
        destruct (Hvec a ls0 strs0 Ha Hown0 l' Hl') as ([blk' Hblk'] & Hne & _).
        rewrite Hblk'. by apply Hkeep0. }
      by rewrite (owned_at_fun _ _ _ _ _ _ Hown Hown0'). }
  assert (Hbufnew : ∀ l, res = Ptr l → owns s r l ∨ blocks (heap s) !! l = None).
  { intros l ->. destruct bg; [|done].
    destruct Hbuf' as (b & [= <-] & _ & [?|?]); [by left; left | by right]. }
  exists s'. split; [done|]. split; [by rewrite Hother|]. split; [done|].
  rewrite Hor2, Hor, Hd0, Hcon in Hcases.
  destruct (all_succeed n (oracle_at_dup bg s r)).
  - destruct Hcases as (a & ls & Hd & Hown & Hnew & _).
    assert (Hat : argv_at s' r a ls (drop 1 argv')).
    { split; [by rewrite Hd|]. split; [|done].
      rewrite Hd. simpl. rewrite length_drop. lia. }
    split.
    + intros l [Hb|Hl]%(owns_vector s' r a ls (drop 1 argv') l Hat).
      * apply Hbufnew. by rewrite Hd in Hb.
      * by apply Hfresh, Hnew.
    + unfold slot_inv, results_at, is_running. rewrite Hd. simpl.
      split; [done|]. split; [|split].
      * destruct bg; [|by left]. destruct Hbuf' as (b & -> & Hb & _).
        right. by exists b, EmptyString.
      * right. exists a, ls, (drop 1 argv'). split; [done|]. split; [|done].
        intros b ->. destruct bg; [|done].
        destruct Hbuf' as (b' & [= <-] & Hb & _).
        by pose proof (owned_not_buffer _ _ _ _ _ Hown Hb) as [_ ?]%not_elem_of_cons.
      * intros _. split; [done|]. destruct bg.
        -- by destruct Hbuf' as (b & -> & _).
        -- by rewrite Hbuf'.
  - destruct Hcases as (Hd & _).
    assert (Hnull : argv (data_of r s') = NULL) by (by rewrite Hd).
    split.
    + intros l Hl%(owns_no_vector s' r l Hnull). apply Hbufnew.
      by rewrite Hd in Hl.
    + unfold slot_inv, results_at, is_running, no_results, stored_results.
      rewrite Hd. simpl. split; [done|]. split; [|split].
      * destruct bg; [|by left]. destruct Hbuf' as (b & -> & Hb & _).
        right. by exists b, EmptyString.
      * left. split; [done|]. split; [|done].
        destruct bg; [|by left]. destruct Hbuf' as (b & -> & Hb & _).
        right. by rewrite Hb.
      * unfold is_running in Hidle. fold d in Hidle. by rewrite Hidle.
Qed.

(** ** Every operation keeps the pool in order *)

Lemma pool_say l s : pool_inv s → pool_inv (say l s).
Proof. apply pool_same; by rewrite ?data_of_say. Qed.

Lemma ready_inv o : pool_inv (ready o).
Proof.
  assert (∀ r, slot_inv (ready o) r).
  { intros r. split; [by destruct r|]. split; [by left; destruct r|].
    split; [|by destruct r].
    left. split; [by destruct r|]. split; [by left; destruct r | by destruct r]. }
  split; [done|]. split; [done|].
  intros l Hl _. by apply owns_no_vector in Hl.
Qed.

(** Raising the kill signal of a slot. *)
Lemma pool_kill r v s :
  pool_inv s → pool_inv (update_data r (raise_kill_signal v) s).
Proof.
  intros Hinv.
  assert (Hown : ∀ l, owns (update_data r (raise_kill_signal v) s) r l → owns s r l).
  { intros l. unfold owns. by rewrite data_of_update, heap_update_data. }
  apply (pool_step r s _ Hinv).
  - by rewrite data_of_update_other.
  - intros l blk Hl _. by rewrite heap_update_data.
  - intros l Hl. left. by apply Hown.
  - assert (Hr : slot_inv s r) by (destruct Hinv as (? & ? & _); by destruct r).
    unfold slot_inv, results_at, argv_at, no_results, stored_results, is_running in *.
    by rewrite data_of_update, heap_update_data.
Qed.

Lemma kill_pool sh nbr s :
  pool_inv s → ∃ s', th_ctrl_kill sh nbr s = Done tt s' ∧ pool_inv s'.
Proof.
  intros Hinv.
  assert (Hr : ∀ r, ∃ s', th_ctrl_kill sh (slot_id r) s = Done tt s' ∧ pool_inv s').
  { intros r. rewrite kill_eq. eexists. split; [done|].
    destruct (is_running r s); [by apply pool_kill | by apply pool_say]. }
  destruct (decide (nbr = 1)) as [->|H1]; [apply (Hr Th1)|].
  destruct (decide (nbr = 2)) as [->|H2]; [apply (Hr Th2)|].
  exists s. split; [|done]. unfold th_ctrl_kill.
  by rewrite (proj2 (Z.eqb_neq _ _) H1), (proj2 (Z.eqb_neq _ _) H2).
Qed.

Lemma kill_em_all_pool s :
  pool_inv s → ∃ s', th_ctrl_kill_em_all s = Done tt s' ∧ pool_inv s'.
Proof.
  intros Hinv. rewrite kill_em_all_eq. eexists. split; [done|].
  assert (H1 : pool_inv (update_data Th1
            (if is_running Th1 s then raise_kill_signal 1 else λ d, d) s)).
  { destruct (is_running Th1 s); [by apply pool_kill | by rewrite update_data_id]. }
  destruct (is_running Th2 s); [by apply pool_kill | by rewrite update_data_id].
Qed.

(** A result report. *)
Lemma data_result_pool sh r s :
  pool_inv s → ∃ s', th_ctrl_data_result_print sh r s = Done tt s' ∧ pool_inv s'.
Proof.
  intros Hinv.
  assert (Hr : slot_inv s r) by (destruct Hinv as (? & ? & _); by destruct r).
  destruct Hr as (Hnbr & Hres & Hargv & _).
  destruct Hres as [Hnull|(b & text & Hb & Hlive)].
  { rewrite result_print_none by (by left). eexists. split; [done|].
    by apply pool_say. }
  destruct (decide (text = EmptyString)) as [->|Htext].
  { rewrite result_print_none by (right; by exists b, TH_RESPONSE_BUFFER_SIZE).
    eexists. split; [done|]. by apply pool_say. }
  destruct (is_running r s) eqn:Hrun.
  { rewrite (result_print_running sh r s b _ text Hb Hlive Htext Hrun).
    eexists. split; [done|]. by apply pool_say. }
  destruct Hargv as [(_ & Hno & _)|(a & ls & strs & Hat & Hbls & _)].
  { exfalso. destruct Hno as [?|Hno]; [congruence|].
    unfold stored_results in Hno. rewrite Hb, Hlive in Hno. congruence. }
  rewrite (result_print_finished sh r s b _ text a ls strs Hb Hlive Htext Hrun Hat
             (Hbls b Hb)).
  eexists. split; [done|]. apply pool_say. set (s' := update_data _ _ _).
  assert (Hd : data_of r s' = consumed (data_of r s)).
  { subst s'. by rewrite data_of_update, data_of_with_heap. }
  assert (Hnone : ∀ l, ¬ owns s' r l).
  { intros l Hl. apply owns_no_vector in Hl; by rewrite Hd in *. }
  apply (pool_step r s s' Hinv).
  - subst s'. by rewrite data_of_update_other, data_of_with_heap.
  - intros l blk Hl Hnot. subst s'. rewrite heap_update_data. simpl.
    assert (Hnb : l ≠ b) by (intros ->; apply Hnot; by left).
    assert (Hnv : l ∉ a :: ls).
    { intros Hin. apply Hnot. apply (owns_vector s r a ls strs l Hat). by right. }
    apply not_elem_of_cons in Hnv as [Hna Hnls].
    rewrite lookup_delete_ne, lookup_free_all, decide_False, lookup_delete_ne;
      [done|congruence| |congruence].
    intros Hin. by apply Hnls, (subseteq_drop 1).
  - intros l Hl. by destruct (Hnone l).
  - unfold slot_inv, results_at, no_results, is_running. rewrite Hd. simpl.
    unfold is_running in Hrun. rewrite Hrun.
    split; [done|]. split; [by left|]. split; [|done].
    left. split; [done|]. split; [by left | done].
Qed.

Lemma result_pool sh nbr s :
  pool_inv s → ∃ s', th_ctrl_result_print sh nbr s = Done tt s' ∧ pool_inv s'.
Proof.
  intros Hinv.
  destruct (decide (nbr = 1)) as [->|H1].
  { change 1 with (slot_id Th1). rewrite result_print_route.
    by apply data_result_pool. }
  destruct (decide (nbr = 2)) as [->|H2].
  { change 2 with (slot_id Th2). rewrite result_print_route.
    by apply data_result_pool. }
  exists s. split; [|done]. unfold th_ctrl_result_print.
  by rewrite (proj2 (Z.eqb_neq _ _) H1), (proj2 (Z.eqb_neq _ _) H2).
Qed.

(** A status report of one slot: nothing changes but the console and,
    if a print buffer was needed, the allocations still to come. *)
Lemma data_status_pool sh r s :
  pool_inv s → alloc_succeeds (oracle (heap s)) = true →
  ∃ s', th_ctrl_data_status_print sh r s = Done tt s' ∧ pool_inv s' ∧
        (oracle (heap s') = oracle (heap s) ∨
         oracle (heap s') = tail (oracle (heap s))).
Proof.
  intros Hinv Hor.
  assert (Hr : slot_inv s r) by (destruct Hinv as (? & ? & _); by destruct r).
  destruct Hr as (Hnbr & Hres & Hargv & _).
  destruct Hres as [Hnull|(b & text & Hb & Hlive)].
  { rewrite status_print_nothing by (by left). eexists. split; [done|].
    split; [by apply pool_say | by left]. }
  destruct (decide (text = EmptyString)) as [->|Htext].
  { rewrite status_print_nothing by (right; by exists b, TH_RESPONSE_BUFFER_SIZE).
    eexists. split; [done|]. split; [by apply pool_say | by left]. }
  assert (Hst : stored_results s r = Some text).
  { unfold stored_results. by rewrite Hb, Hlive. }
  destruct Hargv as [(_ & Hno & _)|(a & ls & strs & Hat & _ & Hfit)].
  { exfalso. destruct Hno as [?|Hno]; congruence. }
  pose proof (strlen_of_nonneg (command_line strs)).
  rewrite (status_print_results sh r s text strs Hst Htext
             (stored_argv_owned _ _ _ _ _ Hat) Hor ltac:(lia) ltac:(lia)).
  eexists. split; [done|]. split; [|by right].
  apply pool_say. revert Hinv. by apply pool_same.
Qed.

Lemma status_pool sh s :
  pool_inv s → all_succeed 2 (oracle (heap s)) = true →
  ∃ s', th_ctrl_status_print sh s = Done tt s' ∧ pool_inv s'.
Proof.
  intros Hinv Hmem. cbn [all_succeed] in Hmem.
  apply andb_true_iff in Hmem as [Hm1 [Hm2 _]%andb_true_iff].
  destruct (data_status_pool sh Th1 s Hinv Hm1) as (s1 & Hrun1 & Hinv1 & Hor1).
  assert (Hm : alloc_succeeds (oracle (heap s1)) = true).
  { destruct Hor1 as [-> | ->]; done. }
  destruct (data_status_pool sh Th2 s1 Hinv1 Hm) as (s2 & Hrun2 & Hinv2 & _).
  exists s2. split; [|done]. unfold th_ctrl_status_print.
  by rewrite (bind_done _ _ _ _ _ Hrun1).
Qed.

(** A start. *)
Lemma data_start_pool r sh n argv' bg s :
  pool_inv s →
  is_running r s = false →
  (1 < n)%nat → n = length argv' →
  strlen_of (command_line (drop 1 argv')) ≤ cmd_buff_len sh < 65535 →
  ∃ s', th_ctrl_data_start r sh n argv' bg s = Done tt s' ∧ pool_inv s'.
Proof.
  intros Hinv Hidle Hn Hlen Hfit.
  destruct (needs_buffer bg (data_of r s) && negb (alloc_succeeds (oracle (heap s))))
    eqn:Hbuf.
  - apply andb_true_iff in Hbuf as [Hneed Hor%negb_true_iff].
    rewrite (data_start_no_buffer r sh n argv' bg s Hidle Hneed Hor).
    eexists. split; [done|]. apply pool_say. revert Hinv. by apply pool_same.
  - assert (Hr : slot_inv s r) by (destruct Hinv as (? & ? & _); by destruct r).
    destruct (data_start_local r sh n argv' bg s Hr Hidle Hn Hlen Hfit Hbuf)
      as (s' & Hrun & Hother & Hkeep & Hnew & Hinv').
    exists s'. split; [done|]. by apply (pool_step r s s' Hinv).
Qed.

Lemma start_pool sh argv' bg s :
  pool_inv s → op_ok (OpStart sh argv' bg) s = true →
  ∃ s', th_ctrl_start sh (length argv') argv' bg s = Done tt s' ∧ pool_inv s'.
Proof.
  intros Hinv Hok. cbn [op_ok] in Hok.
  apply andb_true_iff in Hok as [[Hn%Nat.ltb_lt Hfit%Z.leb_le]%andb_true_iff
                                 Hlen%Z.ltb_lt].
  rewrite th_ctrl_start_eq.
  destruct (argv' !! 1%nat) as [kind|] eqn:Hkind.
  2:{ apply lookup_ge_None in Hkind. lia. }
  destruct (strcmp_ne0 kind "iperf3").
  { eexists. split; [done|]. by apply pool_say. }
  assert (Hstart : ∀ r, is_running r s = false →
            ∃ s', th_ctrl_data_start r sh (length argv') argv' bg
                    (say [starting_line] s) = Done tt s' ∧ pool_inv s').
  { intros r Hidle. apply data_start_pool; [by apply pool_say| |done|done|lia].
    unfold is_running. by rewrite data_of_say. }
  destruct (is_running Th1 s) eqn:H1; cbn [negb]; [|by apply Hstart].
  destruct (is_running Th2 s) eqn:H2; cbn [negb]; [|by apply Hstart].
  eexists. split; [done|]. by apply pool_say.
Qed.

Section jobs.
Variable iperf_main :
  nat → list string → option Z → k_poll_signal → Z * string.

(** The state the work queue leaves behind a background job. *)
Lemma job_background_run r s b old a ls strs :
  slot_inv s r → is_running r s = true →
  results_at s r b old →
  argv_at s r a ls strs →
  strlen_of (bg_call iperf_main s r strs).2 + 1 ≤ TH_RESPONSE_BUFFER_SIZE →
  ∃ s',
    work_q_run iperf_main r s = Done tt s' ∧
    data_of r s' = work_done (data_of r s) ∧
    data_of (other r) s' = data_of (other r) s ∧
    blocks (heap s')
    = <[b := Chars TH_RESPONSE_BUFFER_SIZE (bg_call iperf_main s r strs).2]>
        (blocks (heap s)) ∧
    console s'
    = console s ++ handler_lines (data_of r s) (bg_call iperf_main s r strs).1 ∧
    background (data_of r s) = true ∧
    argv_at s' r a ls strs ∧
    b ∉ a :: ls.
Proof.
  intros (Hnbr & _ & Hargv & Hpend) Hrun (Hb & Hlive) Hat Hfit.
  destruct (Hpend Hrun) as ([sh Hsh] & Hbg).
  pose proof Hat as (Ha & Hc & Hown).
  assert (Hnn : argv (data_of r s) ≠ NULL) by congruence.
  pose proof (stored_argv_owned _ _ _ _ _ Hat) as Hst.
  assert (Hbgt : background (data_of r s) = true).
  { destruct (background (data_of r s)); [done|].
    destruct Hbg as [_ Hbg]. rewrite Hbg in Hb; done. }
  assert (Hba : b ∉ a :: ls).
  { apply not_elem_of_cons. split.
    - intros ->. destruct Hown as (Hcells & _). congruence.
    - destruct Hargv as [(? & _)|(a0 & ls0 & strs0 & (Ha0 & _ & Hown0) & Hbls & _)];
        [congruence|].
      assert (a0 = a) as -> by congruence.
      rewrite (owned_at_fun _ _ _ _ _ _ Hown0 Hown). by apply Hbls. }
  rewrite (work_q_run_eq iperf_main r s _ Hrun
             (work_handler_background iperf_main r s sh b _ old strs Hsh Hbgt Hb
                Hlive Hst Hnn Hfit)).
  eexists. split; [done|]. set (s' := update_data _ _ _).
  assert (Hd : data_of r s' = work_done (data_of r s)).
  { subst s'. by rewrite data_of_update, data_of_say, data_of_with_heap. }
  assert (Hh : blocks (heap s')
               = <[b := Chars TH_RESPONSE_BUFFER_SIZE (bg_call iperf_main s r strs).2]>
                   (blocks (heap s))).
  { subst s'. by rewrite heap_update_data. }
  split; [done|]. split.
  { subst s'. by rewrite data_of_update_other, data_of_say, data_of_with_heap. }
  split; [done|]. split; [by destruct r|]. split; [done|]. split; [|done].
  split; [by rewrite Hd|]. split; [by rewrite Hd|].
  eapply owned_at_frame; [done|]. intros l Hl. rewrite Hh.
  apply lookup_insert_ne. by intros <-.
Qed.

(** The state the work queue leaves behind a foreground job. *)
Lemma job_foreground_run r s a ls strs :
  slot_inv s r → is_running r s = true →
  results_str (data_of r s) = NULL →
  argv_at s r a ls strs →
  work_q_run iperf_main r s
  = Done tt (update_data r work_done
               (say (handler_lines (data_of r s) (fg_call iperf_main s r strs).1) s)).
Proof.
  intros (_ & _ & _ & Hpend) Hrun Hnull Hat.
  destruct (Hpend Hrun) as ([sh Hsh] & Hbg).
  pose proof Hat as (Ha & _).
  rewrite (work_q_run_eq iperf_main r s _ Hrun
             (work_handler_foreground iperf_main r s sh strs Hsh
                (proj1 Hbg Hnull) Hnull (stored_argv_owned _ _ _ _ _ Hat)
                ltac:(congruence))).
  f_equal. apply update_data_ext. by rewrite data_of_say.
Qed.

(** The work queue runs a pending job to its end. *)
Lemma job_pool r s :
  pool_inv s → is_running r s = true →
  (∀ strs, stored_argv s r = Some strs →
           strlen_of (bg_call iperf_main s r strs).2 + 1 ≤ TH_RESPONSE_BUFFER_SIZE) →
  ∃ s', work_q_run iperf_main r s = Done tt s' ∧ pool_inv s'.
Proof.
  intros Hinv Hrun Hfits.
  assert (Hr : slot_inv s r) by (destruct Hinv as (? & ? & _); by destruct r).
  pose proof Hr as (Hnbr & Hres & Hargv & Hpend).
  destruct Hargv as [(_ & _ & ?)|(a & ls & strs & Hat & Hbls & Hfit)]; [congruence|].
  destruct Hres as [Hnull|(b & old & Hbuf)].
  - (* foreground *)
    rewrite (job_foreground_run r s a ls strs Hr Hrun Hnull Hat).
    eexists. split; [done|]. set (s' := update_data _ _ _).
    assert (Hd : data_of r s' = work_done (data_of r s)).
    { subst s'. by rewrite data_of_update, data_of_say. }
    assert (Hh : heap s' = heap s) by (subst s'; by rewrite heap_update_data).
    apply (pool_step r s s' Hinv).
    + subst s'. by rewrite data_of_update_other, data_of_say.
    + intros l blk Hl _. by rewrite Hh.
    + intros l Hl. left. unfold owns in *. by rewrite Hd, Hh in Hl.
    + unfold slot_inv, results_at, argv_at, no_results, stored_results, is_running
        in *. rewrite Hd, Hh. simpl. split; [done|]. split; [by left|].
      split; [|done]. right. by exists a, ls, strs.
  - (* background *)
    destruct (job_background_run r s b old a ls strs Hr Hrun Hbuf Hat
                (Hfits strs (stored_argv_owned _ _ _ _ _ Hat)))
      as (s' & Hq & Hd & Hother & Hh & _ & _ & Hat' & Hba).
    destruct Hbuf as (Hb & _).
    exists s'. split; [done|].
    apply (pool_step r s s' Hinv); [done|..].
    + intros l blk Hl Hnot. rewrite Hh, lookup_insert_ne; [done|].
      intros <-. apply Hnot. by left.
    + intros l Hl. left. apply (owns_vector s' r a ls strs l Hat') in Hl.
      apply (owns_vector s r a ls strs l Hat). by rewrite Hd in Hl.
    + unfold slot_inv, results_at, is_running. rewrite Hd. simpl.
      split; [done|]. split; [|split; [|done]].
      * right. eexists b, _. split; [done|]. rewrite Hh. apply lookup_insert_eq.
      * right. exists a, ls, strs. split; [done|]. split; done.
Qed.

Lemma exec_pool o s :
  job_fits iperf_main →
  pool_inv s → op_ok o s = true →
  ∃ s', exec iperf_main o s = Done tt s' ∧ pool_inv s'.
Proof.
  intros Hjob Hinv Hok. destruct o as [sh argv' bg|sh|sh nbr|sh nbr| |r]; cbn [exec].
  - by apply start_pool.
  - by apply status_pool.
  - by apply result_pool.
  - by apply kill_pool.
  - by apply kill_em_all_pool.
  - apply job_pool; [done..|]. intros strs _. apply Hjob.
Qed.

Lemma run_pool os : ∀ s,
  job_fits iperf_main →
  pool_inv s → trace_ok iperf_main os s = true →
  ∃ s', run iperf_main os s = Done tt s' ∧ pool_inv s'.
Proof.
  induction os as [|o os IH]; intros s Hjob Hinv Hok; cbn [run trace_ok] in *.
  - by exists s.
  - apply andb_true_iff in Hok as [Hop Hrest].
    destruct (exec_pool o s Hjob Hinv Hop) as (s1 & Hrun & Hinv1).
    rewrite Hrun in Hrest. rewrite (bind_done _ _ _ _ _ Hrun). by apply IH.
Qed.
End jobs.

(** ** Jobs, restarts, initialisation and sequences of operations *)

Lemma pool_slot s r : pool_inv s → slot_inv s r.
Proof. intros (? & ? & _). by destruct r. Qed.


Lemma bg_started_inv : pool_inv bg_started.
Proof.
  destruct (start_pool sh20 cmdline true (ready []) (ready_inv []) eq_refl)
    as (s' & Hrun & Hinv).
  assert (s' = bg_started) as <-; [|done].
  unfold bg_started, after. change (length cmdline) with 3%nat in Hrun.
  by rewrite Hrun.
Qed.

Lemma fg_started_inv : pool_inv fg_started.
Proof.
  destruct (start_pool sh20 ["start"; "iperf3"; "-s"]%string false (ready [])
              (ready_inv []) eq_refl) as (s' & Hrun & Hinv).
  assert (s' = fg_started) as <-; [|done].
  unfold fg_started, after.
  change (length ["start"; "iperf3"; "-s"]%string) with 3%nat in Hrun.
  by rewrite Hrun.
Qed.


(** X13. The work queue runs a pending background job of a slot in order:
    the job body is called with the stored vector, its length, the
    capacity of the result buffer and the slot's kill signal; if its text
    fits the buffer, the run returns, the text is the slot's stored
    result, the vector is still stored, the slot is idle, the console has
    got the handler's lines (with the hint at [th results]), and the
    other slot is as before. *)
Theorem background_job_stores_output iperf_main r s strs :
  slot_inv s r → is_running r s = true →
  background (data_of r s) = true →
  stored_argv s r = Some strs →
  strlen_of (bg_call iperf_main s r strs).2 + 1 ≤ TH_RESPONSE_BUFFER_SIZE →
  ∃ s',
    work_q_run iperf_main r s = Done tt s' ∧
    is_running r s' = false ∧
    stored_results s' r = Some (bg_call iperf_main s r strs).2 ∧
    stored_argv s' r = Some strs ∧
    console s'
    = console s ++ handler_lines (data_of r s) (bg_call iperf_main s r strs).1 ∧
    data_of (other r) s' = data_of (other r) s.
Proof.
  intros Hinv Hrun Hbg Hst Hfit.
  pose proof Hinv as (_ & Hres & Hargv & Hpend).
  destruct (Hpend Hrun) as (_ & Hiff).
  destruct Hargv as [(_ & _ & ?)|(a & ls & strs0 & Hat & _)]; [congruence|].
  rewrite (stored_argv_owned _ _ _ _ _ Hat) in Hst. injection Hst as ->.
  destruct Hres as [Hnull|(b & old & Hbuf)].
  { apply Hiff in Hnull. congruence. }
  destruct (job_background_run iperf_main r s b old a ls strs Hinv Hrun Hbuf Hat Hfit)
    as (s' & Hq & Hd & Hother & Hh & Hc & _ & Hat' & _).
  exists s'. split; [done|]. split; [by unfold is_running; rewrite Hd|].
  split; [|split; [by eapply stored_argv_owned | done]].
  destruct Hbuf as (Hb & _).
  unfold stored_results. rewrite Hd. simpl. by rewrite Hb, Hh, lookup_insert_eq.
Qed.

Lemma background_job_stores_output_witness :
  ∃ s', work_q_run job_done Th1 bg_started = Done tt s' ∧
    is_running Th1 s' = false ∧
    stored_results s' Th1 = Some "done"%string ∧
    stored_argv s' Th1 = Some ["iperf3"; "-s"]%string ∧
    console s'
    = console bg_started ++ handler_lines (data_of Th1 bg_started) 0 ∧
    data_of Th2 s' = data_of Th2 bg_started.
Proof.
  apply (background_job_stores_output job_done Th1 bg_started ["iperf3"; "-s"]%string).
  - apply (pool_slot _ Th1 bg_started_inv).
  - vm_compute; reflexivity.
  - vm_compute; reflexivity.
  - vm_compute; reflexivity.
  - vm_compute; discriminate.
Defined.

(** X14. The work queue runs a pending foreground job of a slot in order:
    the job body is called with the stored vector and without a buffer;
    the run returns and changes no block of the heap and no field of the
    slot but the pending flag, and the handler's lines on the console
    carry no hint at results. *)
Theorem foreground_job_leaves_heap iperf_main r s strs :
  slot_inv s r → is_running r s = true →
  background (data_of r s) = false →
  stored_argv s r = Some strs →
  work_q_run iperf_main r s
  = Done tt
      (update_data r work_done
         (say [Msg ("Starting a thread #" +:+ dec (th_nbr (data_of r s)));
               Msg "--------------------------------------------------";
               Msg ("iperf_main returned " +:+ dec (fg_call iperf_main s r strs).1
                    +:+ " from a thread #" +:+ dec (th_nbr (data_of r s)));
               Msg "--------------------------------------------------"] s)).
Proof.
  intros Hinv Hrun Hbg Hst.
  pose proof Hinv as (_ & _ & Hargv & Hpend).
  destruct (Hpend Hrun) as (_ & Hiff).
  destruct Hargv as [(_ & _ & ?)|(a & ls & strs0 & Hat & _)]; [congruence|].
  rewrite (stored_argv_owned _ _ _ _ _ Hat) in Hst. injection Hst as ->.
  rewrite (job_foreground_run iperf_main r s a ls strs Hinv Hrun
             (proj2 Hiff Hbg) Hat).
  unfold handler_lines. by rewrite Hbg.
Qed.

Lemma foreground_job_leaves_heap_witness :
  work_q_run job_done Th1 fg_started
  = Done tt
      (update_data Th1 work_done
         (say [Msg "Starting a thread #1";
               Msg "--------------------------------------------------";
               Msg "iperf_main returned 0 from a thread #1";
               Msg "--------------------------------------------------"]
            fg_started)).
Proof.
  apply (foreground_job_leaves_heap job_done Th1 fg_started ["iperf3"; "-s"]%string).
  - apply (pool_slot _ Th1 fg_started_inv).
  - vm_compute; reflexivity.
  - vm_compute; reflexivity.
  - vm_compute; reflexivity.
Defined.



(** X16. [th_ctrl_start] never touches a kill signal: after every start
    that returns, whether it hands a job over or not, both slots have the
    kill signal they had before.  In particular a signal that is raised
    when the start is made is still raised when the job has been handed
    over: the start does not reset it. *)
Theorem start_keeps_kill_signal sh n argv' bg s s' r :
  n = length argv' →
  th_ctrl_start sh n argv' bg s = Done tt s' →
  kill_signal (data_of r s') = kill_signal (data_of r s).
Proof.
  intros Hlen Hrun. rewrite th_ctrl_start_eq in Hrun.
  destruct (argv' !! 1%nat) as [kind|]; [|done].
  destruct (strcmp_ne0 kind "iperf3").
  { injection Hrun as <-. by rewrite data_of_say. }
  assert (Hon : ∀ r0, th_ctrl_data_start r0 sh n argv' bg (say [starting_line] s)
                      = Done tt s' →
                      kill_signal (data_of r s') = kill_signal (data_of r s)).
  { intros r0 H0. destruct (th_ref_cases r r0) as [-> | ->].
    - apply data_start_inv in H0 as (_ & [(_ & _ & _ & ->)|(res & h & H0)]).
      { by rewrite !data_of_say, data_of_with_heap. }
      apply start_argv_inv in H0 as (_ & h2 & p & h3 & _ & _ & ->); [|lia].
      destruct (is_null p);
        by rewrite ?data_of_say, !data_of_update, !data_of_with_heap,
             data_of_update, data_of_with_heap, data_of_say.
    - apply data_start_other in H0; [|done]. by rewrite H0, data_of_say. }
  destruct (negb (is_running Th1 s)); [by apply (Hon Th1)|].
  destruct (negb (is_running Th2 s)); [by apply (Hon Th2)|].
  injection Hrun as <-. by rewrite data_of_say.
Qed.

(** X16, instance: slot 1 is idle and its kill signal is raised with
    value 1; the start hands the job to slot 1, and the job is pending
    with the signal still raised. *)
Lemma start_keeps_kill_signal_witness :
  kill_signal (data_of Th1 raised_idle) = KPollSignal true 1 ∧
  is_running Th1 (after (th_ctrl_start sh20 3 cmdline true) raised_idle) = true ∧
  kill_signal (data_of Th1 (after (th_ctrl_start sh20 3 cmdline true) raised_idle))
  = kill_signal (data_of Th1 raised_idle).
Proof.
  split; [vm_compute; reflexivity|]. split; [vm_compute; reflexivity|].
  apply (start_keeps_kill_signal sh20 3 cmdline true raised_idle
           (after (th_ctrl_start sh20 3 cmdline true) raised_idle) Th1).
  - vm_compute; reflexivity.
  - vm_compute; reflexivity.
Defined.

(** X17. [th_ctrl_init] on statics that point to nothing (as the
    zero-initialised statics at boot do) returns and leaves a pool in
    order with both slots idle, so that the first start goes to slot 1. *)
Theorem init_establishes_pool s :
  (∀ r, results_str (data_of r s) = NULL ∧ argv (data_of r s) = NULL) →
  ∃ s', th_ctrl_init s = Done tt s' ∧ pool_inv s' ∧
        first_idle s' = Some Th1 ∧ is_running Th2 s' = false.
Proof.
  intros Hnull. unfold th_ctrl_init. mstep. rewrite modify_data_done.
  eexists. split; [done|]. set (s' := update_data _ _ _).
  assert (Hd : ∀ r, data_of r s' = init_data (slot_id r) (data_of r s)).
  { intros []; subst s'; by destruct s. }
  assert (Hslot : ∀ r, slot_inv s' r).
  { intros r. destruct (Hnull r) as (Hres & Hargv).
    unfold slot_inv, no_results, is_running. rewrite Hd. simpl.
    rewrite Hres, Hargv. split; [done|]. split; [by left|]. split; [|done].
    left. split; [done|]. split; [by left | done]. }
  split; [|split].
  - split; [done|]. split; [done|]. intros l Hl _.
    assert (Ha : argv (data_of Th1 s') = NULL).
    { rewrite Hd. simpl. apply (Hnull Th1). }
    apply (owns_no_vector _ _ _ Ha) in Hl. rewrite Hd in Hl.
    destruct (Hnull Th1) as [Hr _]. simpl in Hl, Hr. congruence.
  - unfold first_idle, is_running. by rewrite Hd.
  - unfold is_running. by rewrite Hd.
Qed.

Lemma init_establishes_pool_witness :
  ∃ s', th_ctrl_init (boot []) = Done tt s' ∧ pool_inv s' ∧
        first_idle s' = Some Th1 ∧ is_running Th2 s' = false.
Proof.
  apply (init_establishes_pool (boot [])).
  intros r. destruct r; vm_compute; split; reflexivity.
Defined.

(** X18. From a pool in order, every sequence of controller calls and job
    completions whose operations meet their preconditions (a start with
    at least two arguments whose command line fits the shell's command
    buffer length, a status report with memory for its print buffers, a
    job completion only for a pending job whose text fits the result
    buffer) runs to its end without a failed assertion or an invalid
    memory access, and ends in a pool in order: the slots' results and
    vectors are allocated, disjoint, and never used after release. *)
Theorem operations_keep_pool iperf_main os s :
  job_fits iperf_main →
  pool_inv s →
  trace_ok iperf_main os s = true →
  ∃ s', run iperf_main os s = Done tt s' ∧ pool_inv s'.
Proof. intros Hjob Hinv Hok. by apply run_pool. Qed.

Lemma operations_keep_pool_witness :
  ∃ s', run job_done session (ready []) = Done tt s' ∧ pool_inv s'.
Proof.
  apply (operations_keep_pool job_done session (ready [])).
  - intros n args sig. vm_compute. discriminate.
  - apply ready_inv.
  - vm_compute; reflexivity.
Defined.

(** ** A background job from start to report *)

Lemma start_first_idle sh n argv' bg s r :
  argv' !! 1%nat = Some "iperf3"%string →
  first_idle s = Some r →
  is_running r s = false ∧
  th_ctrl_start sh n argv' bg s
  = th_ctrl_data_start r sh n argv' bg (say [starting_line] s).
Proof.
  intros Hkind Hfirst. rewrite th_ctrl_start_eq, Hkind.
  change (strcmp_ne0 "iperf3" "iperf3") with false. cbv iota.
  unfold first_idle in Hfirst.
  destruct (is_running Th1 s) eqn:H1; cbn [negb] in *; [|by injection Hfirst as <-].
  destruct (is_running Th2 s) eqn:H2; cbn [negb] in *; [done|].
  by injection Hfirst as <-.
Qed.

(** X19. A background job from start to report.  On a pool in order with
    memory for the result buffer and the copy of the arguments,
    [th_ctrl_start] hands the job to the first idle slot; when the work
    queue has run the job ([out] is what the job body returns for the
    arguments from index 1 on, a non-empty text that fits the buffer) and
    [th_ctrl_result_print] is called for that slot, the three runs
    return, the console has got the start line, the handler's lines, the
    job's text between its rules and the deletion note, and the slot is
    idle without results and without a vector, in a pool in order. *)
Theorem background_round_trip iperf_main sh sh' argv' s r :
  pool_inv s →
  argv' !! 1%nat = Some "iperf3"%string →
  first_idle s = Some r →
  op_ok (OpStart sh argv' true) s = true →
  all_succeed (S (length argv')) (oracle (heap s)) = true →
  let out := iperf_main (length argv' - 1)%nat (drop 1 argv')
               (Some TH_RESPONSE_BUFFER_SIZE) (kill_signal (data_of r s)) in
  out.2 ≠ EmptyString →
  strlen_of out.2 + 1 ≤ TH_RESPONSE_BUFFER_SIZE →
  ∃ s3,
    (th_ctrl_start sh (length argv') argv' true;;
     work_q_run iperf_main r;;
     th_ctrl_result_print sh' (slot_id r)) s = Done tt s3 ∧
    console s3
    = console s ++ [starting_line]
      ++ handler_lines (set_background true (data_of r s)) out.1
      ++ results_lines (data_of r s) out.2 ++ [deleted_line (data_of r s)] ∧
    results_str (data_of r s3) = NULL ∧
    argv (data_of r s3) = NULL ∧
    is_running r s3 = false ∧
    pool_inv s3.
Proof.
  intros Hinv Hkind Hfirst Hok Hmem out Htext Hfit.
  pose proof Hok as Hok'. cbn [op_ok] in Hok'.
  apply andb_true_iff in Hok' as [[Hn%Nat.ltb_lt Hcmd%Z.leb_le]%andb_true_iff
                                  Hlen%Z.ltb_lt].
  destruct (start_first_idle sh (length argv') argv' true s r Hkind Hfirst)
    as (Hidle & Hstart).
  set (s0 := say [starting_line] s) in *.
  assert (Hinv0 : pool_inv s0) by (by apply pool_say).
  assert (Hidle0 : is_running r s0 = false).
  { unfold is_running, s0. by rewrite data_of_say. }
  (* the start *)
  destruct (all_succeed_at_dup (length argv') true s0 r Hmem) as [Hbuf Hdup].
  destruct (data_start_wf r sh (length argv') argv' true s0
              (slot_inv_wf _ _ (pool_slot _ r Hinv0)) Hidle0 Hn eq_refl Hbuf)
    as (s1 & res & Hrun1 & _ & (b & -> & Hb1) & _ & Hcases).
  rewrite Hdup in Hcases. destruct Hcases as (a & ls & Hd1 & Hown1 & Hc1).
  unfold s0 in Hd1. rewrite data_of_say in Hd1.
  assert (Hinv1 : pool_inv s1).
  { destruct (data_start_pool r sh (length argv') argv' true s0 Hinv0 Hidle0 Hn
                eq_refl ltac:(lia)) as (s1' & Hrun1' & Hinv1).
    rewrite Hrun1 in Hrun1'. by injection Hrun1' as <-. }
  assert (Hat1 : argv_at s1 r a ls (drop 1 argv')).
  { split; [by rewrite Hd1|]. split; [|done].
    rewrite Hd1. simpl. rewrite length_drop. lia. }
  assert (Hrunning1 : is_running r s1 = true).
  { unfold is_running. by rewrite Hd1. }
  assert (Hbuf1 : results_at s1 r b EmptyString).
  { split; [by rewrite Hd1 | done]. }
  assert (Hout : bg_call iperf_main s1 r (drop 1 argv') = out).
  { unfold bg_call. rewrite Hd1. simpl. by rewrite length_drop. }
  (* the job *)
  destruct (job_background_run iperf_main r s1 b EmptyString a ls (drop 1 argv')
              (pool_slot _ r Hinv1) Hrunning1 Hbuf1 Hat1 ltac:(by rewrite Hout))
    as (s2 & Hrun2 & Hd2 & _ & Hh2 & Hc2 & _ & Hat2 & Hba).
  rewrite Hout in Hh2, Hc2.
  assert (Hinv2 : pool_inv s2).
  { destruct (job_pool iperf_main r s1 Hinv1 Hrunning1) as (s2' & Hrun2' & Hinv2).
    - intros strs Hst. rewrite (stored_argv_owned _ _ _ _ _ Hat1) in Hst.
      injection Hst as <-. by rewrite Hout.
    - rewrite Hrun2 in Hrun2'. by injection Hrun2' as <-. }
  (* the report *)
  assert (Hres2 : results_str (data_of r s2) = Ptr b) by (by rewrite Hd2, Hd1).
  assert (Hb2 : blocks (heap s2) !! b = Some (Chars TH_RESPONSE_BUFFER_SIZE out.2)).
  { rewrite Hh2. apply lookup_insert_eq. }
  assert (Hidle2 : is_running r s2 = false).
  { unfold is_running. by rewrite Hd2. }
  apply not_elem_of_cons in Hba as [_ Hbls].
  pose proof (result_print_finished sh' r s2 b _ out.2 a ls (drop 1 argv')
                Hres2 Hb2 Htext Hidle2 Hat2 Hbls) as Hrun3.
  rewrite <- result_print_route in Hrun3.
  assert (Hinv3 : ∀ s3, th_ctrl_result_print sh' (slot_id r) s2 = Done tt s3 →
                        pool_inv s3).
  { intros s3 H3. destruct (result_pool sh' (slot_id r) s2 Hinv2) as (s3' & H3' & ?).
    rewrite H3 in H3'. by injection H3' as <-. }
  eexists. split.
  { rewrite <- Hstart in Hrun1.
    rewrite (bind_done _ _ _ _ _ Hrun1), (bind_done _ _ _ _ _ Hrun2). exact Hrun3. }
  split; [|split; [|split; [|split; [|by apply Hinv3]]]].
  - assert (Hlines : results_lines (data_of r s2) out.2 = results_lines (data_of r s) out.2
                     ∧ deleted_line (data_of r s2) = deleted_line (data_of r s)
                     ∧ handler_lines (data_of r s1) out.1
                       = handler_lines (set_background true (data_of r s)) out.1).
    { unfold results_lines, deleted_line, handler_lines. by rewrite Hd2, Hd1. }
    destruct Hlines as (-> & -> & <-).
    assert (Hcs : ∀ l t, console (say l t) = console t ++ l) by done.
    assert (Hcu : ∀ f t, console (update_data r f t) = console t) by (by destruct r).
    rewrite Hcs, Hcu. simpl console at 1. rewrite Hc2, Hc1. subst s0.
    rewrite Hcs. by rewrite <- !(assoc_L (++)).
  - by rewrite data_of_say, data_of_update.
  - by rewrite data_of_say, data_of_update.
  - unfold is_running in *. rewrite data_of_say, data_of_update, data_of_with_heap.
    simpl. exact Hidle2.
Qed.

Lemma background_round_trip_witness :
  ∃ s3,
    (th_ctrl_start sh20 3 cmdline true;;
     work_q_run job_done Th1;;
     th_ctrl_result_print sh20 1) (ready []) = Done tt s3 ∧
    console s3
    = [starting_line]
      ++ handler_lines (set_background true (data_of Th1 (ready []))) 0
      ++ results_lines (data_of Th1 (ready [])) "done"
      ++ [deleted_line (data_of Th1 (ready []))] ∧
    results_str (data_of Th1 s3) = NULL ∧
    argv (data_of Th1 s3) = NULL ∧
    is_running Th1 s3 = false ∧
    pool_inv s3.
Proof.
  apply (background_round_trip job_done sh20 sh20 cmdline (ready []) Th1).
  - apply ready_inv.
  - vm_compute; reflexivity.
  - vm_compute; reflexivity.
  - vm_compute; reflexivity.
  - vm_compute; reflexivity.
  - vm_compute; discriminate.
  - vm_compute; discriminate.
Defined.

(** ** The status report of both slots *)

(** The status report of one slot, for every slot the report can be
    made of. *)
Lemma data_status_view sh r s :
  status_ready s r →
  (has_text s r = true → alloc_succeeds (oracle (heap s)) = true) →
  th_ctrl_data_status_print sh r s
  = Done tt
      (say (report_lines (data_of r s) (status_view s r))
         (with_heap
            (Memory (blocks (heap s))
                    (if has_text s r then tail (oracle (heap s))
                     else oracle (heap s))) s)).
Proof.
  intros (Hbuf & Hcmd) Hmem. unfold status_view.
  destruct (has_text s r) eqn:Ht.
  - unfold has_text in Ht.
    destruct (stored_results s r) as [text|] eqn:Hres; [|done].
    apply negb_true_iff, bool_decide_eq_false in Ht.
    destruct (Hcmd eq_refl) as ([strs Hst] & Hfit).
    unfold shown_args in *. rewrite Hst in *.
    pose proof (strlen_of_nonneg
                  (command_line
                     (copied_args strs ((cmd_len (data_of r s) + 1) `mod` 65536) 0))).
    rewrite (status_print_shown sh r s text strs Hres Ht Hst (Hmem eq_refl)
               ltac:(lia) Hfit).
    unfold report_lines, running_line, is_running.
    by destruct (k_work_is_pending (work (data_of r s))).
  - rewrite status_print_nothing.
    + by destruct s as [[bl o] d1 d2 c].
    + destruct Hbuf as [?|[text Hres]]; [by left|]. right.
      unfold has_text in Ht. rewrite Hres in Ht.
      apply negb_false_iff, bool_decide_eq_true in Ht as ->.
      by apply stored_results_inv.
Qed.

(** What a status report shows of a slot depends on the slot's record
    and on the blocks of the heap only. *)
Lemma status_view_blocks s s' r :
  data_of r s' = data_of r s →
  blocks (heap s') = blocks (heap s) →
  has_text s' r = has_text s r ∧
  status_view s' r = status_view s r ∧
  (status_ready s r → status_ready s' r).
Proof.
  intros Hd Hb. pose proof (stored_results_blocks s s' r Hd Hb) as Hres.
  pose proof (stored_argv_blocks s s' r Hd Hb) as Hargv.
  unfold status_ready, status_view, shown_args, has_text, is_running.
  by rewrite Hd, Hres, Hargv.
Qed.

(** C7, as the code has it. [th_ctrl_status_print] reports slot 1 and
    then slot 2; no slot is left out on account of its state.  The report
    of a slot is the header followed by "Nothing" when the slot has no
    results, whether or not it is running, and by "Results available",
    the running flag and the command when it has results; the command is
    made of the stored arguments that pass the length check against the
    recorded command length.  A print buffer is allocated for each slot
    with results and for no other.  The run returns whenever each result
    buffer is allocated, the arguments of each slot with results can be
    read, the line to show is no longer than the recorded command length
    and the print buffers can be allocated; it leaves the heap blocks and
    both slot records as they were. *)
Theorem status_print_spec sh s :
  status_ready s Th1 → status_ready s Th2 →
  all_succeed (status_allocs s) (oracle (heap s)) = true →
  ∃ s', th_ctrl_status_print sh s = Done tt s' ∧
        console s' = console s ++ report_lines (th_work_data_1 s) (status_view s Th1)
                               ++ report_lines (th_work_data_2 s) (status_view s Th2) ∧
        (∀ r, no_results s r → status_view s r = Nothing) ∧
        (∀ r, status_view s r ≠ Nothing →
              ∃ text, stored_results s r = Some text ∧ text ≠ EmptyString ∧
                      status_view s r
                      = Available (is_running r s) (command_line (shown_args s r))) ∧
        blocks (heap s') = blocks (heap s) ∧
        oracle (heap s') = drop (status_allocs s) (oracle (heap s)) ∧
        th_work_data_1 s' = th_work_data_1 s ∧
        th_work_data_2 s' = th_work_data_2 s.
Proof.
  intros H1 H2 Hmem.
  assert (Hm1 : has_text s Th1 = true → alloc_succeeds (oracle (heap s)) = true).
  { intros Ht. unfold status_allocs in Hmem. rewrite Ht in Hmem.
    cbn [Nat.add all_succeed] in Hmem. by apply andb_true_iff in Hmem as [? _]. }
  pose proof (data_status_view sh Th1 s H1 Hm1) as Hrun1.
  set (s1 := say _ _) in Hrun1.
  destruct (status_view_blocks s s1 Th2 eq_refl eq_refl) as (Ht2 & Hv2 & Hr2).
  assert (Hm2 : has_text s1 Th2 = true → alloc_succeeds (oracle (heap s1)) = true).
  { rewrite Ht2. intros Ht. unfold status_allocs in Hmem. rewrite Ht in Hmem.
    subst s1. simpl. destruct (has_text s Th1); cbn [Nat.add all_succeed] in Hmem.
    - by apply andb_true_iff in Hmem as [_ [? _]%andb_true_iff].
    - by apply andb_true_iff in Hmem as [? _]. }
  pose proof (data_status_view sh Th2 s1 (Hr2 H2) Hm2) as Hrun2.
  rewrite Ht2, Hv2 in Hrun2.
  unfold th_ctrl_status_print. rewrite (bind_done _ _ _ _ _ Hrun1), Hrun2.
  eexists. split; [done|]. subst s1. simpl.
  split; [by rewrite <- app_assoc|]. split; [|split].
  - intros r Hno. unfold status_view, has_text.
    destruct Hno as [Hnull| ->]; [|by rewrite bool_decide_eq_true_2].
    unfold stored_results. by rewrite Hnull.
  - intros r Hv. unfold status_view, has_text in *.
    destruct (stored_results s r) as [text|]; [|done].
    destruct (bool_decide (text = EmptyString)) eqn:Hd; [done|].
    apply bool_decide_eq_false in Hd. by exists text.
  - split; [done|]. split; [|done]. unfold status_allocs.
    destruct (has_text s Th1), (has_text s Th2); cbn [Nat.add];
      by rewrite ?drop_0, <- ?drop_tail, ?drop_0.
Qed.

(** C7, instance: the example job has finished on slot 1 with a recorded
    command length of 7, slot 2 is idle, and the allocator grants one
    block only.  Slot 1 is reported with the command cut to [iperf3],
    slot 2 with nothing, and one allocation is made. *)
Lemma status_print_spec_witness :
  ∃ s', th_ctrl_status_print sh20 (with_oracle [true; false] (finished_with 7))
        = Done tt s' ∧
        console s'
        = console (with_oracle [true; false] (finished_with 7))
          ++ report_lines (th_work_data_1 (with_oracle [true; false] (finished_with 7)))
               (status_view (with_oracle [true; false] (finished_with 7)) Th1)
          ++ report_lines (th_work_data_2 (with_oracle [true; false] (finished_with 7)))
               (status_view (with_oracle [true; false] (finished_with 7)) Th2) ∧
        (∀ r, no_results (with_oracle [true; false] (finished_with 7)) r →
              status_view (with_oracle [true; false] (finished_with 7)) r = Nothing) ∧
        (∀ r, status_view (with_oracle [true; false] (finished_with 7)) r ≠ Nothing →
              ∃ text,
                stored_results (with_oracle [true; false] (finished_with 7)) r
                = Some text ∧ text ≠ EmptyString ∧
                status_view (with_oracle [true; false] (finished_with 7)) r
                = Available
                    (is_running r (with_oracle [true; false] (finished_with 7)))
                    (command_line
                       (shown_args (with_oracle [true; false] (finished_with 7)) r))) ∧
        blocks (heap s') = blocks (heap (with_oracle [true; false] (finished_with 7))) ∧
        oracle (heap s')
        = drop (status_allocs (with_oracle [true; false] (finished_with 7)))
            (oracle (heap (with_oracle [true; false] (finished_with 7)))) ∧
        th_work_data_1 s' = th_work_data_1 (with_oracle [true; false] (finished_with 7)) ∧
        th_work_data_2 s' = th_work_data_2 (with_oracle [true; false] (finished_with 7)).
Proof.
  apply (status_print_spec sh20 (with_oracle [true; false] (finished_with 7))).
  - split; [right; vm_compute; eexists; reflexivity|]. intros _.
    split; [vm_compute; eexists; reflexivity | vm_compute; discriminate].
  - split; [left; vm_compute; reflexivity|]. vm_compute. discriminate.
  - vm_compute. reflexivity.
Defined.
